(** * osmnx/plot.py: the spatial network rendering pipeline

    A shallow embedding of [src/osmnx/plot.py].  Python floats are read as
    exact rationals ([Q]); a [dict] is an association list in iteration
    order; the caller's graph, the matplotlib figure under construction and
    the output sink (files written, windows shown) form an explicit world
    that every operation threads, and a Python exception is a [Raise]
    result that stops the computation and leaves the world as it was at
    the point of the raise.  Logging and timing ([log], [time.time]) and
    the creation of the images folder are left out. *)

From Stdlib Require Import List String ZArith QArith Qminmax Qround Bool Lia Lqa.
From Stdlib Require Import Permutation Sorted.
Import ListNotations.
Local Open Scope string_scope.
Local Open Scope list_scope.
Local Open Scope Q_scope.

(** ** Exceptions and results *)

Inductive exn : Type :=
| KeyError
| IndexError
| ZeroDivisionError
| ValueError
| TypeError
| ImportError.

(** [KeyError] and [IndexError] are the two subclasses of Python's
    [LookupError]. *)
Definition LookupError (e : exn) : bool :=
  match e with
  | KeyError | IndexError => true
  | _ => false
  end.

Inductive result (A : Type) : Type :=
| OK (a : A)
| Raise (e : exn).
Arguments OK {A} a.
Arguments Raise {A} e.

(** ** Data model *)

Definition point : Type := (Q * Q)%type.
Definition polyline : Type := list point.

(** A shapely [LineString], by its coordinate sequence. *)
Definition LineString : Type := list point.

(** The [.xy] property of a [LineString]: the separate arrays of x and of y. *)
Definition xy (g : LineString) : list Q * list Q := (map fst g, map snd g).

(** An OSM tag value: a single string, or a list of them. *)
Inductive tag : Type :=
| Scalar (s : string)
| Listed (l : list string).

(** The attribute dict of a node: [node['x']], [node['y']].  The node
    table of a graph holds the nodes that have both. *)
Record NodeData : Type := mkNode { node_x : Q; node_y : Q }.

(** The attribute dict of an edge: [data['length']], [data['highway']],
    the optional [data['geometry']], and any further numeric attributes. *)
Record EdgeData : Type := mkEdge {
  edge_length : Q;
  highway : tag;
  geometry : option LineString;
  numeric : list (string * Q)
}.

(** A dict keyed by node identifiers or edge keys. *)
Definition dict (V : Type) : Type := list (Z * V).

Fixpoint dict_get {V : Type} (k : Z) (d : dict V) : option V :=
  match d with
  | [] => None
  | (k', v) :: rest => if Z.eqb k k' then Some v else dict_get k rest
  end.

Fixpoint str_get {V : Type} (k : string) (d : list (string * V)) : option V :=
  match d with
  | [] => None
  | (k', v) :: rest => if String.eqb k k' then Some v else str_get k rest
  end.

Definition values {V : Type} (d : dict V) : list V := map snd d.

(** A networkx MultiDiGraph: [G.node] and the adjacency [G.edge], where
    [G.edge[u][v]] is the dict of the parallel edges from [u] to [v]. *)
Record Graph : Type := mkGraph {
  node : dict NodeData;
  edge : dict (dict (dict EdgeData))
}.

Definition edge_record : Type := (Z * Z * Z * EdgeData)%type.

(** [G.edges(keys=True, data=True)]. *)
Definition edges_of (g : Graph) : list edge_record :=
  flat_map (fun '(u, nbrs) =>
    flat_map (fun '(v, par) =>
      map (fun '(key, data) => (u, v, key, data)) par) nbrs) (edge g).

(** A line width argument: one number, or one number per line. *)
Inductive widths : Type :=
| Width (w : Q)
| Widths (ws : list Q).

(** What a matplotlib axis holds after [add_collection], [scatter],
    [annotate] and [add_patch]. *)
Inductive artist : Type :=
| LineCollection (lines : list polyline) (colors : string)
    (linewidths : widths) (alpha : Q) (zorder : Z)
| PathCollection (xs ys : list Q) (s : Q) (c : string) (alpha : Q)
    (edgecolor : string) (zorder : Z)
| Annotation (text : Z) (at_xy : point)
| PolygonPatch (ring : polyline) (fc ec : string) (linewidth : Q) (alpha : Q).

(** The figure and its axis. [chrome] lists the cosmetic calls in order. *)
Record Axes : Type := mkAxes {
  figsize : Q * Q;
  fig_facecolor : option string;
  ax_facecolor : option string;
  artists : list artist;
  ylim : option (Q * Q);
  xlim : option (Q * Q);
  axis_shown : bool;
  aspect_equal : bool;
  chrome : list string
}.

(** The [bbox_inches] argument of [savefig]: 0, the extent of the axis, or
    'tight'. *)
Inductive extent : Type :=
| BboxZero
| BboxAxis
| BboxTight.

(** What reaches the output sink: [fig.savefig], [plt.show], [plt.close]. *)
Inductive output : Type :=
| SaveFig (path : string) (format : string) (dpi : option Z) (bbox_inches : extent)
| Show
| Close.

(** The world a rendering call runs in: the caller's graph [G], the
    current figure, the images folder of [globals], whether the optional
    [import folium] succeeded, and the output sink. *)
Record World : Type := mkWorld {
  graph : Graph;
  canvas : Axes;
  imgs_folder : string;
  folium : bool;
  sink : list output
}.

(** ** The state and exception monad *)

Definition M (A : Type) : Type := World -> result A * World.

Definition ret {A : Type} (a : A) : M A := fun w => (OK a, w).

Definition raise {A : Type} (e : exn) : M A := fun w => (Raise e, w).

Definition bind {A B : Type} (m : M A) (k : A -> M B) : M B :=
  fun w =>
    match m w with
    | (OK a, w') => k a w'
    | (Raise e, w') => (Raise e, w')
    end.

Notation "x <- c1 ;; c2" := (bind c1 (fun x => c2))
  (at level 61, c1 at next level, right associativity).
Notation "' pat <- c1 ;; c2" := (bind c1 (fun x => match x with pat => c2 end))
  (at level 61, pat pattern, c1 at next level, right associativity).
Notation "c1 ;; c2" := (bind c1 (fun _ => c2))
  (at level 61, right associativity).

(** [acc = []; for a in l: acc.append(body(a))]. *)
Fixpoint for_collect {A B : Type} (body : A -> M B) (l : list A) : M (list B) :=
  match l with
  | [] => ret []
  | a :: rest =>
      b <- body a ;;
      bs <- for_collect body rest ;;
      ret (b :: bs)
  end.

(** [for a in l: body(a)]. *)
Fixpoint for_each {A : Type} (body : A -> M unit) (l : list A) : M unit :=
  match l with
  | [] => ret tt
  | a :: rest => body a ;; for_each body rest
  end.

Definition when (b : bool) (m : M unit) : M unit := if b then m else ret tt.

(** ** Reading the graph *)

Definition the_graph : M Graph := fun w => (OK (graph w), w).

Definition of_option {A : Type} (e : exn) (o : option A) : M A :=
  match o with
  | Some a => ret a
  | None => raise e
  end.

(** [G.node[u]]. *)
Definition G_node (u : Z) : M NodeData :=
  g <- the_graph ;; of_option KeyError (dict_get u (node g)).

(** [G.node.values()]. *)
Definition G_node_values : M (list NodeData) :=
  g <- the_graph ;; ret (values (node g)).

(** [G.nodes(data=True)]. *)
Definition G_nodes : M (list (Z * NodeData)) :=
  g <- the_graph ;; ret (node g).

(** [G.edges(keys=True, data=True)]. *)
Definition G_edges : M (list edge_record) :=
  g <- the_graph ;; ret (edges_of g).

(** [G.edge[u][v]]. *)
Definition G_edge (u v : Z) : M (dict EdgeData) :=
  g <- the_graph ;;
  nbrs <- of_option KeyError (dict_get u (edge g)) ;;
  of_option KeyError (dict_get v nbrs).

(** ** Arithmetic *)

(** [a / b] on Python numbers, as a box passed by the caller holds
    them. *)
Definition py_div (a b : Q) : M Q :=
  if Qeq_bool b 0 then raise ZeroDivisionError else ret (a / b).

Definition Qltb (a b : Q) : bool := negb (Qle_bool b a).

(** ** Drawing on the current figure *)

Definition blank (size : Q * Q) (fc : option string) : Axes :=
  mkAxes size fc None [] None None true false [].

Definition on_canvas (f : Axes -> Axes) : M unit :=
  fun w => (OK tt, mkWorld (graph w) (f (canvas w)) (imgs_folder w) (folium w)
                      (sink w)).

Definition emit (o : output) : M unit :=
  fun w => (OK tt, mkWorld (graph w) (canvas w) (imgs_folder w) (folium w)
                      (sink w ++ [o])).

Definition the_imgs_folder : M string := fun w => (OK (imgs_folder w), w).

Definition the_folium : M bool := fun w => (OK (folium w), w).

(** [plt.subplots(figsize=..., facecolor=...)]. *)
Definition subplots (size : Q * Q) (fc : option string) : M unit :=
  on_canvas (fun _ => blank size fc).

Definition set_facecolor (c : string) : M unit :=
  on_canvas (fun a => mkAxes (figsize a) (fig_facecolor a) (Some c) (artists a)
    (ylim a) (xlim a) (axis_shown a) (aspect_equal a) (chrome a)).

Definition add_artist (r : artist) : M unit :=
  on_canvas (fun a => mkAxes (figsize a) (fig_facecolor a) (ax_facecolor a)
    (artists a ++ [r]) (ylim a) (xlim a) (axis_shown a) (aspect_equal a) (chrome a)).

Definition set_ylim (l : Q * Q) : M unit :=
  on_canvas (fun a => mkAxes (figsize a) (fig_facecolor a) (ax_facecolor a)
    (artists a) (Some l) (xlim a) (axis_shown a) (aspect_equal a) (chrome a)).

Definition set_xlim (l : Q * Q) : M unit :=
  on_canvas (fun a => mkAxes (figsize a) (fig_facecolor a) (ax_facecolor a)
    (artists a) (ylim a) (Some l) (axis_shown a) (aspect_equal a) (chrome a)).

(** [ax.axis('off')]. *)
Definition axis_hide : M unit :=
  on_canvas (fun a => mkAxes (figsize a) (fig_facecolor a) (ax_facecolor a)
    (artists a) (ylim a) (xlim a) false (aspect_equal a) (chrome a)).

(** [ax.set_aspect('equal')], which with the adjustable box leaves the
    data limits alone. *)
Definition set_aspect_equal : M unit :=
  on_canvas (fun a => mkAxes (figsize a) (fig_facecolor a) (ax_facecolor a)
    (artists a) (ylim a) (xlim a) (axis_shown a) true (chrome a)).

(** A cosmetic call that touches neither artists nor limits. *)
Definition cosmetic (what : string) : M unit :=
  on_canvas (fun a => mkAxes (figsize a) (fig_facecolor a) (ax_facecolor a)
    (artists a) (ylim a) (xlim a) (axis_shown a) (aspect_equal a)
    (chrome a ++ [what])).

(** ** Collaborators outside this module *)

(** A row of the edge table (GeoDataFrame) that [graph_to_gdfs] returns. *)
Record EdgeRow : Type := mkRow {
  row_u : Z;
  row_v : Z;
  row_key : Z;
  row_data : EdgeData;
  row_geometry : LineString
}.

(** Modelled from the spec: [graph_to_gdfs(G, nodes=False,
    fill_edge_geometry=True)] of [save_load], which is not part of this
    module.  The table has one row per edge, in the order of [G.edges],
    with the edge's endpoints, key and attributes; an edge without curve
    data gets the straight segment between its endpoint coordinates as its
    geometry. *)
Definition graph_to_gdfs : M (list EdgeRow) :=
  es <- G_edges ;;
  for_collect (fun '(u, v, key, data) =>
    match geometry data with
    | Some geom => ret (mkRow u v key data geom)
    | None =>
        pu <- G_node u ;;
        pv <- G_node v ;;
        ret (mkRow u v key data
               [(node_x pu, node_y pu); (node_x pv, node_y pv)])
    end) es.

(** The enclosing rectangle (minx, miny, maxx, maxy) of some points. *)
Definition bounds_of (pts : list point) : option (Q * Q * Q * Q) :=
  match pts with
  | [] => None
  | (x0, y0) :: rest =>
      Some (fold_left (fun '(minx, miny, maxx, maxy) '(px, py) =>
              (Qmin minx px, Qmin miny py, Qmax maxx px, Qmax maxy py))
            rest (x0, y0, x0, y0))
  end.

(** Modelled from the spec: [total_bounds] of the edge table, the
    rectangle enclosing all edge geometries; with no geometry at all the
    extent is undefined and the call fails. *)
Definition total_bounds (rows : list EdgeRow) : M (Q * Q * Q * Q) :=
  of_option ValueError (bounds_of (flat_map row_geometry rows)).

(** ** plot_shape *)

(** A geometry of the GeoDataFrame handed to [plot_shape]: a polygon by
    its exterior ring, a multipolygon by those of its parts, or any other
    geometry. *)
Inductive shape : Type :=
| Polygon (ring : polyline)
| MultiPolygon (parts : list polyline)
| OtherShape (coords : list point).

Definition shape_coords (s : shape) : list point :=
  match s with
  | Polygon ring => ring
  | MultiPolygon parts => List.concat parts
  | OtherShape coords => coords
  end.

(** [gdf.unary_union.bounds]: (west, south, east, north) of the union of
    the geometries; unpacking the empty bounds of an empty union fails. *)
Definition unary_union_bounds (gdf : list shape) : M (Q * Q * Q * Q) :=
  of_option ValueError (bounds_of (flat_map shape_coords gdf)).

Definition plot_shape (gdf : list shape) (fc ec : string) (linewidth alpha : Q)
    (size : Q * Q) (margin : Q) (axis_off : bool) : M unit :=
  subplots size None ;;
  for_each (fun geom =>
    match geom with
    | OtherShape _ => raise ValueError
    | Polygon ring =>
        for_each (fun polygon =>
          add_artist (PolygonPatch polygon fc ec linewidth alpha)) [ring]
    | MultiPolygon parts =>
        for_each (fun polygon =>
          add_artist (PolygonPatch polygon fc ec linewidth alpha)) parts
    end) gdf ;;
  '(west, south, east, north) <- unary_union_bounds gdf ;;
  let margin_ns := (north - south) * margin in
  let margin_ew := (east - west) * margin in
  set_ylim (south - margin_ns, north + margin_ns) ;;
  set_xlim (west - margin_ew, east + margin_ew) ;;
  set_aspect_equal ;;
  when axis_off axis_hide ;;
  emit Show.

(** ** get_edge_colors_by_attr *)

(** [data[attr]] for a numeric attribute. *)
Definition edge_get (data : EdgeData) (attr : string) : option Q :=
  if String.eqb attr "length" then Some (edge_length data)
  else str_get attr (numeric data).

(** [np.linspace(start, stop, num)]. *)
Definition linspace (start stop : Q) (num : nat) : list Q :=
  match num with
  | O => []
  | S O => [start]
  | S div =>
      map (fun i => inject_Z (Z.of_nat i) * ((stop - start) / inject_Z (Z.of_nat div))
                    + start)
          (seq 0 num)
  end.

(** A colour of a named matplotlib colormap: [cm.get_cmap(cmap)(x)]. *)
Inductive rgba : Type :=
| cmap_at (cmap : string) (x : Q).

(** Sorting in ascending order, as [np.sort] does. *)
Fixpoint insert (x : Q) (l : list Q) : list Q :=
  match l with
  | [] => [x]
  | y :: rest => if Qle_bool x y then x :: l else y :: insert x rest
  end.

Fixpoint sort (l : list Q) : list Q :=
  match l with
  | [] => []
  | x :: rest => insert x (sort rest)
  end.

(** The index below the position [level * (n - 1)] of a quantile among
    [n] sorted values. *)
Definition position (n : nat) (level : Q) : Q :=
  level * inject_Z (Z.of_nat (n - 1)).

Definition index_below (n : nat) (level : Q) : nat :=
  Z.to_nat (Qfloor (position n level)).

(** The quantile of sorted values at a level in [0, 1], by linear
    interpolation between the two values around its position (the
    default of pandas and numpy). *)
Definition quantile (sorted : list Q) (level : Q) : Q :=
  let n := List.length sorted in
  let lo := index_below n level in
  let hi := Nat.min (S lo) (n - 1) in
  let fraction := position n level - inject_Z (Qfloor (position n level)) in
  let lower := nth lo sorted 0 in
  let upper := nth hi sorted 0 in
  lower + (upper - lower) * fraction.

(** The bin edges of [pd.qcut(x, q)] for an integer [q]: the quantiles of
    [x] at the levels [np.linspace(0, 1, q + 1)]. *)
Definition quantile_edges (x : list Q) (q : nat) : list Q :=
  map (quantile (sort x)) (linspace 0 1 (S q)).

(** Whether some two bin edges are equal. *)
Fixpoint has_duplicate (l : list Q) : bool :=
  match l with
  | [] => false
  | b :: rest => existsb (Qeq_bool b) rest || has_duplicate rest
  end.

(** [bins.searchsorted(v, side='left')] on ascending [bins]: the first
    index whose edge is not below [v]. *)
Fixpoint searchsorted (bins : list Q) (v : Q) : nat :=
  match bins with
  | [] => O
  | b :: rest => if Qltb b v then S (searchsorted rest v) else O
  end.

(** The bin of a value, counted from 1: intervals are closed on the
    right, and the lowest edge belongs to the first bin. *)
Definition bin_id (bins : list Q) (v : Q) : nat :=
  if Qeq_bool v (hd 0 bins) then 1%nat else searchsorted bins v.

(** [pd.qcut(x, q, labels)] of pandas, which is not part of this
    repository, as its documentation describes it for an integer [q]:
    the bin edges are the quantiles of [x], duplicate edges raise a
    [ValueError] (the [duplicates] argument is left at 'raise'; two edges
    alone are let through), there must be one label per bin, and a value
    gets the label of its bin, or none (NaN) when it lies in no bin.  An
    empty series has no quantiles, and the call raises [TypeError].
    Floats are exact rationals here. *)
Definition qcut (x : list Q) (q : nat) (labels : list nat) : M (list (option nat)) :=
  let bins := quantile_edges x q in
  if Nat.eqb (List.length x) 0 then
    raise TypeError
  else if has_duplicate bins && negb (Nat.eqb (List.length bins) 2) then
    raise ValueError
  else if negb (Nat.eqb (List.length labels) (List.length bins - 1)) then
    raise ValueError
  else
    ret (map (fun v =>
                let id := bin_id bins v in
                if Nat.eqb id 0 || Nat.eqb id (List.length bins) then None
                else nth_error labels (id - 1)) x).

(** [[data[attr] for u, v, key, data in G.edges(keys=True, data=True)]]. *)
Definition attr_values (attr : string) : M (list Q) :=
  es <- G_edges ;;
  for_collect (fun '(u, v, key, data) =>
    of_option KeyError (edge_get data attr)) es.

(** [color_list[cat]]: a NaN category is no list index. *)
Definition color_of (color_list : list rgba) (cat : option nat) : M rgba :=
  match cat with
  | None => raise TypeError
  | Some c => of_option IndexError (nth_error color_list c)
  end.

Definition get_edge_colors_by_attr (attr : string) (num_bins : nat)
    (cmap : string) (start stop : Q) : M (list rgba) :=
  let bin_labels := seq 0 num_bins in
  attr_values <- attr_values attr ;;
  cats <- qcut attr_values num_bins bin_labels ;;
  let color_list := map (cmap_at cmap) (linspace start stop num_bins) in
  colors <- for_collect (color_of color_list) cats ;;
  ret colors.

(** ** save_and_show *)

Definition path_of (folder filename file_format : string) : string :=
  (folder ++ "/" ++ filename ++ "." ++ file_format)%string.

Definition savefig (path fmt : string) (dpi : option Z) (e : extent) : M unit :=
  emit (SaveFig path fmt dpi e).

Definition save_and_show (save show close : bool) (filename file_format : string)
    (dpi : Z) (axis_off : bool) : M unit :=
  when save (
    folder <- the_imgs_folder ;;
    let path_filename := path_of folder filename file_format in
    if String.eqb file_format "svg" then
      axis_hide ;;
      cosmetic "set_position([0, 0, 1, 1])" ;;
      cosmetic "ax.patch.set_alpha(0.)" ;;
      cosmetic "fig.patch.set_alpha(0.)" ;;
      savefig path_filename file_format None BboxZero
    else
      let extent := if axis_off then BboxAxis else BboxTight in
      savefig path_filename file_format (Some dpi) extent) ;;
  if show then emit Show
  else if close then emit Close
  else ret tt.

(** ** plot_graph *)

Definition bbox_t : Type := (Q * Q * Q * Q)%type.

(** The keyword arguments of [plot_graph]. *)
Record GraphArgs : Type := mkGraphArgs {
  bbox : option bbox_t;
  fig_height : Q;
  fig_width : option Q;
  margin : Q;
  axis_off : bool;
  bgcolor : string;
  show : bool;
  save : bool;
  close : bool;
  file_format : string;
  filename : string;
  dpi : Z;
  annotate : bool;
  node_color : string;
  node_size : Q;
  node_alpha : Q;
  node_edgecolor : string;
  node_zorder : Z;
  edge_color : string;
  edge_linewidth : widths;
  edge_alpha : Q;
  use_geom : bool
}.

(** The defaults of [plot_graph]'s signature. *)
Definition plot_graph_defaults : GraphArgs :=
  mkGraphArgs None 6 None (2 # 100) true "w" true false true "png" "temp"
    300%Z false "#66ccff" 15 1 "none" 1%Z "#999999" (Width 1) 1 true.

(** The straight line from node to node. *)
Definition node_to_node (u v : Z) : M polyline :=
  nu <- G_node u ;;
  let x1 := node_x nu in
  nu <- G_node u ;;
  let y1 := node_y nu in
  nv <- G_node v ;;
  let x2 := node_x nv in
  nv <- G_node v ;;
  let y2 := node_y nv in
  ret [(x1, y1); (x2, y2)].

(** The polyline of one edge, as both [plot_graph] (lines 262-273) and
    [plot_graph_route] (lines 425-436) compute it. *)
Definition edge_polyline (use_geom : bool) (u v : Z) (data : EdgeData) : M polyline :=
  match geometry data with
  | Some geom =>
      if use_geom then
        let '(xs, ys) := xy geom in ret (combine xs ys)
      else node_to_node u v
  | None => node_to_node u v
  end.

(** North, south, east and west: from the [bbox] argument, or from the
    spatial extent of the edges' geometries. *)
Definition get_bbox (b : option bbox_t) : M bbox_t :=
  match b with
  | None =>
      edges <- graph_to_gdfs ;;
      '(west, south, east, north) <- total_bounds edges ;;
      ret (north, south, east, west)
  | Some nsew => ret nsew
  end.

Definition plot_graph (a : GraphArgs) : M unit :=
  nodes <- G_node_values ;;
  let node_Xs := map node_x nodes in
  let node_Ys := map node_y nodes in
  '(north, south, east, west) <- get_bbox (bbox a) ;;
  bbox_aspect_ratio <- py_div (north - south) (east - west) ;;
  fig_width <- match fig_width a with
               | None => py_div (fig_height a) bbox_aspect_ratio
               | Some fw => ret fw
               end ;;
  subplots (fig_width, fig_height a) (Some (bgcolor a)) ;;
  set_facecolor (bgcolor a) ;;
  es <- G_edges ;;
  lines <- for_collect (fun '(u, v, key, data) =>
             edge_polyline (use_geom a) u v data) es ;;
  add_artist (LineCollection lines (edge_color a) (edge_linewidth a)
                (edge_alpha a) 2%Z) ;;
  add_artist (PathCollection node_Xs node_Ys (node_size a) (node_color a)
                (node_alpha a) (node_edgecolor a) (node_zorder a)) ;;
  let margin_ns := (north - south) * margin a in
  let margin_ew := (east - west) * margin a in
  set_ylim (south - margin_ns, north + margin_ns) ;;
  set_xlim (west - margin_ew, east + margin_ew) ;;
  cosmetic "xaxis.set_useOffset(False)" ;;
  cosmetic "yaxis.set_useOffset(False)" ;;
  when (axis_off a) (
    axis_hide ;;
    cosmetic "margins(0)" ;;
    cosmetic "tick_params(which='both', direction='in')" ;;
    cosmetic "fig.canvas.draw()") ;;
  when (annotate a) (
    nds <- G_nodes ;;
    for_each (fun '(n, data) =>
      add_artist (Annotation n (node_x data, node_y data))) nds) ;;
  save_and_show (save a) (show a) (close a) (filename a) (file_format a)
    (dpi a) (axis_off a).

(** ** plot_graph_route *)

(** The keyword arguments of [plot_graph_route]: those it shares with
    [plot_graph], and its own. *)
Record RouteArgs : Type := mkRouteArgs {
  base : GraphArgs;
  origin_point : option point;
  destination_point : option point;
  route_color : string;
  route_linewidth : Q;
  route_alpha : Q;
  orig_dest_node_alpha : Q;
  orig_dest_node_size : Q;
  orig_dest_node_color : string;
  orig_dest_point_color : string
}.

(** The defaults of [plot_graph_route]'s signature. *)
Definition plot_graph_route_defaults : RouteArgs :=
  mkRouteArgs
    (mkGraphArgs None 6 None (2 # 100) true "w" true false true "png" "temp"
       300%Z false "#999999" 15 1 "none" 1%Z "#999999" (Width 1) 1 true)
    None None "r" 4 (1 # 2) (1 # 2) 100 "r" "b".

(** The arguments [plot_graph_route] hands to [plot_graph]: its own, with
    [show], [save] and [close] off and [file_format] left at the default. *)
Definition background_args (a : GraphArgs) : GraphArgs :=
  mkGraphArgs (bbox a) (fig_height a) (fig_width a) (margin a) (axis_off a)
    (bgcolor a) false false false (file_format plot_graph_defaults)
    (filename a) (dpi a) (annotate a) (node_color a) (node_size a)
    (node_alpha a) (node_edgecolor a) (node_zorder a) (edge_color a)
    (edge_linewidth a) (edge_alpha a) (use_geom a).

(** [route[0]] and [route[-1]]. *)
Definition first_of (route : list Z) : M Z := of_option IndexError (hd_error route).

Definition last_of (route : list Z) : M Z :=
  of_option IndexError (hd_error (rev route)).

(** [list(zip(route[:-1], route[1:]))]. *)
Definition steps (route : list Z) : list (Z * Z) :=
  combine (removelast route) (tl route).

(** [min(l, key=key)]: the first item whose key no other item's key is
    below; of an empty list, a [ValueError]. *)
Fixpoint min_from {A : Type} (key : A -> Q) (best : A) (l : list A) : A :=
  match l with
  | [] => best
  | a :: rest =>
      if Qltb (key a) (key best) then min_from key a rest
      else min_from key best rest
  end.

Definition py_min {A : Type} (key : A -> Q) (l : list A) : M A :=
  match l with
  | [] => raise ValueError
  | a :: rest => ret (min_from key a rest)
  end.

(** The edge data drawn for the route step from [u] to [v]: of the
    parallel edges, the shortest in length. *)
Definition route_edge (u v : Z) : M EdgeData :=
  par <- G_edge u v ;;
  py_min edge_length (values par).

Definition is_None {A : Type} (o : option A) : bool :=
  match o with
  | None => true
  | Some _ => false
  end.

(** [p[0]] and [p[1]] of an optional point; subscripting [None] is a
    [TypeError]. *)
Definition lat_of (p : option point) : M Q :=
  match p with
  | Some c => ret (fst c)
  | None => raise TypeError
  end.

Definition lon_of (p : option point) : M Q :=
  match p with
  | Some c => ret (snd c)
  | None => raise TypeError
  end.

(** Origin and destination markers (lines 403-411): latitudes, longitudes
    and colour. *)
Definition markers (a : RouteArgs) (origin_node destination_node : Z)
  : M (list Q * list Q * string) :=
  if is_None (origin_point a) || is_None (destination_point a) then
    o <- G_node origin_node ;;
    d <- G_node destination_node ;;
    let origin_destination_lats := [node_y o; node_y d] in
    o <- G_node origin_node ;;
    d <- G_node destination_node ;;
    let origin_destination_lons := [node_x o; node_x d] in
    ret (origin_destination_lats, origin_destination_lons,
         orig_dest_node_color a)
  else
    lat_o <- lat_of (origin_point a) ;;
    lat_d <- lat_of (destination_point a) ;;
    lon_o <- lon_of (origin_point a) ;;
    lon_d <- lon_of (destination_point a) ;;
    ret ([lat_o; lat_d], [lon_o; lon_d], orig_dest_point_color a).

Definition plot_graph_route (route : list Z) (a : RouteArgs) : M unit :=
  plot_graph (background_args (base a)) ;;
  origin_node <- first_of route ;;
  destination_node <- last_of route ;;
  '(origin_destination_lats, origin_destination_lons, colour) <-
     markers a origin_node destination_node ;;
  add_artist (PathCollection origin_destination_lons origin_destination_lats
                (orig_dest_node_size a) colour (orig_dest_node_alpha a)
                (node_edgecolor (base a)) 4%Z) ;;
  let edge_nodes := steps route in
  lines <- for_collect (fun '(u, v) =>
             data <- route_edge u v ;;
             edge_polyline (use_geom (base a)) u v data) edge_nodes ;;
  add_artist (LineCollection lines (route_color a) (Width (route_linewidth a))
                (route_alpha a) 3%Z) ;;
  save_and_show (save (base a)) (show (base a)) (close (base a))
    (filename (base a)) (file_format (base a)) (dpi (base a))
    (axis_off (base a)).

(** ** The folium web map *)

(** A value read from a row of the edge table by column name. *)
Inductive cell : Type :=
| NodeCell (n : Z)
| NumCell (q : Q)
| TagCell (t : tag)
| GeomCell (g : LineString).

(** [edge[column]], for a column in which the row has a value. *)
Definition row_get (row : EdgeRow) (column : string) : option cell :=
  if String.eqb column "u" then Some (NodeCell (row_u row))
  else if String.eqb column "v" then Some (NodeCell (row_v row))
  else if String.eqb column "key" then Some (NodeCell (row_key row))
  else if String.eqb column "geometry" then Some (GeomCell (row_geometry row))
  else if String.eqb column "length" then Some (NumCell (edge_length (row_data row)))
  else if String.eqb column "highway" then Some (TagCell (highway (row_data row)))
  else option_map NumCell (str_get column (numeric (row_data row))).

Record PolyLine : Type := mkPolyLine {
  locations : list point;
  popup : option cell;
  color : string;
  weight : Q;
  opacity : Q
}.

(** Where a new map is centred: the centroid of the union of some
    geometries, which the geometry library computes. *)
Inductive place : Type :=
| CentroidOf (geoms : list LineString).

Record FoliumMap : Type := mkMap {
  location : place;
  zoom_start : Z;
  tiles : string;
  layers : list PolyLine;
  fitted : option (point * point)
}.

Definition add_to (pl : PolyLine) (m : FoliumMap) : FoliumMap :=
  mkMap (location m) (zoom_start m) (tiles m) (layers m ++ [pl]) (fitted m).

Definition fit_to (bounds : point * point) (m : FoliumMap) : FoliumMap :=
  mkMap (location m) (zoom_start m) (tiles m) (layers m) (Some bounds).

Definition need_folium : M unit :=
  ok <- the_folium ;;
  if negb ok then raise ImportError else ret tt.

Definition make_folium_polyline (edge : EdgeRow) (edge_color : string)
    (edge_width edge_opacity : Q) (popup_attribute : option string) : M PolyLine :=
  need_folium ;;
  let locations := row_geometry edge in
  popup <- match popup_attribute with
           | None => ret None
           | Some column =>
               popup_text <- of_option KeyError (row_get edge column) ;;
               ret (Some popup_text)
           end ;;
  ret (mkPolyLine locations popup edge_color edge_width edge_opacity).

(** The index labels of a freshly built table: 0, 1, 2, ... *)
Definition labelled (rows : list EdgeRow) : list (nat * EdgeRow) :=
  combine (seq 0 (List.length rows)) rows.

(** [gdf_edges[(gdf_edges['u']==u) & (gdf_edges['v']==v)].index]. *)
Definition matching_index (u v : Z) (rows : list EdgeRow) : list nat :=
  map fst (filter (fun '(_, r) => Z.eqb (row_u r) u && Z.eqb (row_v r) v)
             (labelled rows)).

(** [gdf_edges.loc[index]]. *)
Definition loc (rows : list EdgeRow) (index : list nat) : M (list EdgeRow) :=
  for_collect (fun i => of_option KeyError (nth_error rows i)) index.

(** The rows of the route's edges (lines 591-594). *)
Definition route_rows (route : list Z) : M (list EdgeRow) :=
  gdf_edges <- graph_to_gdfs ;;
  let route_nodes := steps route in
  index <- for_collect (fun '(u, v) =>
             of_option IndexError (hd_error (matching_index u v gdf_edges)))
             route_nodes ;;
  loc gdf_edges index.

Fixpoint add_polylines (rows : list EdgeRow) (c : string) (wd op : Q)
    (popup_attribute : option string) (m : FoliumMap) : M FoliumMap :=
  match rows with
  | [] => ret m
  | row :: rest =>
      pl <- make_folium_polyline row c wd op popup_attribute ;;
      add_polylines rest c wd op popup_attribute (add_to pl m)
  end.

Definition plot_route_folium (route : list Z) (route_map : option FoliumMap)
    (popup_attribute : option string) (tiles : string) (zoom : Z)
    (fit_bounds : bool) (route_color : string) (route_width route_opacity : Q)
  : M FoliumMap :=
  need_folium ;;
  gdf_route_edges <- route_rows route ;;
  let route_centroid := CentroidOf (map row_geometry gdf_route_edges) in
  let route_map :=
    match route_map with
    | None => mkMap route_centroid zoom tiles [] None
    | Some m => m
    end in
  route_map <- add_polylines gdf_route_edges route_color route_width
                 route_opacity popup_attribute route_map ;;
  if fit_bounds then
    '(tb0, tb1, tb2, tb3) <- total_bounds gdf_route_edges ;;
    let bounds := ((tb1, tb0), (tb3, tb2)) in
    ret (fit_to bounds route_map)
  else ret route_map.

(** [plot_graph_folium] (lines 524-551): as [plot_route_folium], with
    every row of the edge table in place of the rows of the route. *)
Definition plot_graph_folium (graph_map : option FoliumMap)
    (popup_attribute : option string) (tiles : string) (zoom : Z)
    (fit_bounds : bool) (edge_color : string) (edge_width edge_opacity : Q)
  : M FoliumMap :=
  need_folium ;;
  gdf_edges <- graph_to_gdfs ;;
  let graph_centroid := CentroidOf (map row_geometry gdf_edges) in
  let graph_map :=
    match graph_map with
    | None => mkMap graph_centroid zoom tiles [] None
    | Some m => m
    end in
  graph_map <- add_polylines gdf_edges edge_color edge_width edge_opacity
                 popup_attribute graph_map ;;
  if fit_bounds then
    '(tb0, tb1, tb2, tb3) <- total_bounds gdf_edges ;;
    let bounds := ((tb1, tb0), (tb3, tb2)) in
    ret (fit_to bounds graph_map)
  else ret graph_map.

(** ** plot_figure_ground: street widths *)

(** The widths used when the caller passes no [street_widths]. *)
Definition default_street_widths : list (string * Q) :=
  [("footway", 3 # 2); ("steps", 3 # 2); ("pedestrian", 3 # 2);
   ("service", 3 # 2); ("path", 3 # 2); ("track", 3 # 2); ("motorway", 6)]%string.

(** [data['highway'][0] if isinstance(data['highway'], list) else
    data['highway']]. *)
Definition street_type (h : tag) : M string :=
  match h with
  | Listed l => of_option IndexError (hd_error l)
  | Scalar s => ret s
  end.

(** The line width of one edge (lines 690-694). *)
Definition street_width (street_widths : list (string * Q)) (default_width : Q)
    (data : EdgeData) : M Q :=
  st <- street_type (highway data) ;;
  match str_get st street_widths with
  | Some w => ret w
  | None => ret default_width
  end.

(** The list [edge_linewidths] (lines 688-694). *)
Definition edge_linewidths (street_widths : list (string * Q))
    (default_width : Q) : M (list Q) :=
  es <- G_edges ;;
  for_collect (fun '(u, v, key, data) =>
    street_width street_widths default_width data) es.

(** [plot_figure_ground] from line 677 on: the world's graph is the
    projected network, [bbox_proj] is what [bbox_from_point] returned and
    [default_name] the file name formatted from point and network type. *)
Definition plot_figure_ground (bbox_proj : bbox_t) (default_name : string)
    (street_widths : option (list (string * Q))) (default_width fig_length : Q)
    (edge_color bgcolor : string) (filename : option string)
    (file_format : string) (show save close : bool) (dpi : Z) : M unit :=
  let street_widths :=
    match street_widths with
    | None => default_street_widths
    | Some d => d
    end in
  edge_linewidths <- edge_linewidths street_widths default_width ;;
  let filename :=
    match filename with
    | None => if save then default_name else ""%string
    | Some f => f
    end in
  plot_graph (mkGraphArgs (Some bbox_proj) fig_length None 0 true bgcolor
                show save close file_format filename dpi false "#66ccff" 0 1
                "none" 1%Z edge_color (Widths edge_linewidths) 1 true) ;;
  set_aspect_equal ;;
  cosmetic "fig.canvas.draw()".

(** ** Vocabulary of the properties *)

(** The world a computation leaves behind, whether it returned or raised. *)
Definition after {A : Type} (m : M A) (w : World) : World := snd (m w).

(** A computation that leaves the world as it found it. *)
Definition reads {A : Type} (m : M A) : Prop := forall w, after m w = w.

(** A computation that leaves one observation [f] of the world unchanged. *)
Definition keeps {T A : Type} (f : World -> T) (m : M A) : Prop :=
  forall w, f (after m w) = f w.

(** The view limits, the figure size and the artists of the current
    figure, and the observations of the world that the properties speak of. *)
Definition limits (w : World) : option (Q * Q) * option (Q * Q) :=
  (ylim (canvas w), xlim (canvas w)).

Definition figure_size (w : World) : Q * Q := figsize (canvas w).

Definition drawn (w : World) : list artist := artists (canvas w).

Definition view (w : World)
  : Graph * (Q * Q) * list artist * (option (Q * Q) * option (Q * Q)) :=
  (graph w, figure_size w, drawn w, limits w).

(** The parallel edges from [u] to [v], in the order of [G.edge[u][v]]. *)
Definition parallel (g : Graph) (u v : Z) : option (list EdgeData) :=
  match dict_get u (edge g) with
  | Some nbrs => option_map values (dict_get v nbrs)
  | None => None
  end.

(** [G.has_edge(u, v)], read off [G.edges()]. *)
Definition has_edge (g : Graph) (u v : Z) : bool :=
  existsb (fun '(u', v', _, _) => Z.eqb u' u && Z.eqb v' v) (edges_of g).

(** networkx keeps an adjacency entry [G.edge[u][v]] only while it holds
    at least one parallel edge. *)
Definition adjacency_nonempty (g : Graph) : bool :=
  forallb (fun '(_, nbrs) =>
    forallb (fun '(_, par) => negb (Nat.eqb (List.length par) 0)) nbrs) (edge g).

(** The two-point line from the coordinates of [u] to those of [v]. *)
Definition straight (g : Graph) (u v : Z) (line : polyline) : Prop :=
  exists nu nv,
    dict_get u (node g) = Some nu /\ dict_get v (node g) = Some nv /\
    line = [(node_x nu, node_y nu); (node_x nv, node_y nv)].

(** What the spec says the polyline of an edge is. *)
Definition drawn_as (g : Graph) (use_geom : bool) (u v : Z) (data : EdgeData)
    (line : polyline) : Prop :=
  match geometry data with
  | Some geom => if use_geom then line = geom else straight g u v line
  | None => straight g u v line
  end.

(** The node annotations [plot_graph] adds when [annotate] is on. *)
Definition annotations (on : bool) (nds : dict NodeData) : list artist :=
  if on then map (fun '(n, data) => Annotation n (node_x data, node_y data)) nds
  else [].


(** The route overlay: line collections at z-order 3. *)
Definition is_route_layer (r : artist) : bool :=
  match r with
  | LineCollection _ _ _ _ z => Z.eqb z 3
  | _ => false
  end.

(** Where the origin and destination markers go and in which colour: at
    the override points when both are given, else at the two nodes. *)
Definition marked (g : Graph) (a : RouteArgs) (o d : Z)
    (lats lons : list Q) (c : string) : Prop :=
  if is_None (origin_point a) || is_None (destination_point a) then
    exists no nd,
      dict_get o (node g) = Some no /\ dict_get d (node g) = Some nd /\
      lats = [node_y no; node_y nd] /\ lons = [node_x no; node_x nd] /\
      c = orig_dest_node_color a
  else
    exists op dp,
      origin_point a = Some op /\ destination_point a = Some dp /\
      lats = [fst op; fst dp] /\ lons = [snd op; snd dp] /\
      c = orig_dest_point_color a.

(** The polyline of a route step: that of the parallel edge which
    [min] picks by length. *)
Definition route_line (g : Graph) (use_geom : bool) (step : Z * Z)
    (line : polyline) : Prop :=
  exists first rest,
    parallel g (fst step) (snd step) = Some (first :: rest) /\
    drawn_as g use_geom (fst step) (snd step)
      (min_from edge_length first rest) line.

(** The street type the spec reads off a [highway] value: the first
    element of a list, or the value itself. *)
Definition street_type_of (h : tag) : option string :=
  match h with
  | Listed (s :: _) => Some s
  | Listed [] => None
  | Scalar s => Some s
  end.

(** A computation that returns on every world. *)
Definition returns (m : M unit) : Prop := forall w, exists w', m w = (OK tt, w').

(** Every edge of the graph joins two nodes of the graph. *)
Definition endpoints_known (g : Graph) : Prop :=
  forall u v key data,
    In (u, v, key, data) (edges_of g) ->
    exists nu nv, dict_get u (node g) = Some nu /\ dict_get v (node g) = Some nv.






(** What [save_and_show] hands to the output sink: the file, if it
    saves, and then the window shown or closed. *)
Definition saved (save : bool) (folder filename file_format : string)
    (dpi : Z) (axis_off : bool) : list output :=
  if save then
    if String.eqb file_format "svg" then
      [SaveFig (path_of folder filename file_format) file_format None BboxZero]
    else
      [SaveFig (path_of folder filename file_format) file_format (Some dpi)
         (if axis_off then BboxAxis else BboxTight)]
  else [].

Definition shown (show close : bool) : list output :=
  if show then [Show] else if close then [Close] else [].

(** The rings [plot_shape] draws a patch for. *)
Definition rings (s : shape) : list polyline :=
  match s with
  | Polygon ring => [ring]
  | MultiPolygon parts => parts
  | OtherShape _ => []
  end.

Definition is_polygonal (s : shape) : bool :=
  match s with
  | OtherShape _ => false
  | _ => true
  end.

(** The polyline [make_folium_polyline] builds for a row. *)
Definition polyline_for (c : string) (wd op : Q) (popup_attribute : option string)
    (row : EdgeRow) (pl : PolyLine) : Prop :=
  locations pl = row_geometry row /\ color pl = c /\ weight pl = wd /\
  opacity pl = op /\
  popup pl = match popup_attribute with
             | None => None
             | Some column => row_get row column
             end /\
  match popup_attribute with
  | None => True
  | Some column => row_get row column <> None
  end.

(** The first row of the table from [u] to [v]. *)
Definition first_row (table : list EdgeRow) (step : Z * Z) (r : EdgeRow) : Prop :=
  exists pre post,
    table = pre ++ r :: post /\ row_u r = fst step /\ row_v r = snd step /\
    Forall (fun r' => Z.eqb (row_u r') (fst step) && Z.eqb (row_v r') (snd step)
                      = false) pre.

(** A parallel edge of minimal length, and of several the first. *)
Definition first_shortest (pars : list EdgeData) (data : EdgeData) : Prop :=
  exists pre post,
    pars = pre ++ data :: post /\
    Forall (fun d => edge_length data < edge_length d) pre /\
    Forall (fun d => edge_length data <= edge_length d) post.

(** What a computation adds to the output sink when it returns; the
    images folder it leaves as it is. *)
Definition ledger (w : World) : list output * string := (sink w, imgs_folder w).

Definition adds {A : Type} (m : M A) (outs : string -> list output) : Prop :=
  forall w a w',
    m w = (OK a, w') ->
    imgs_folder w' = imgs_folder w /\ sink w' = sink w ++ outs (imgs_folder w).

(** ** Sample inputs *)

Definition street (len : Q) : EdgeData :=
  mkEdge len (Scalar "residential") None [].

(** Four nodes on the unit square and the loop of edges around it. *)
Definition square : Graph :=
  mkGraph
    [(0%Z, mkNode 0 0); (1%Z, mkNode 0 1); (2%Z, mkNode 1 1); (3%Z, mkNode 1 0)]
    [(0%Z, [(1%Z, [(0%Z, street 1)])]); (1%Z, [(2%Z, [(0%Z, street 1)])]);
     (2%Z, [(3%Z, [(0%Z, street 1)])]); (3%Z, [(0%Z, [(0%Z, street 1)])])].

(** A world with no figure drawn yet and folium installed. *)
Definition fresh (g : Graph) : World :=
  mkWorld g (blank (0, 0) None) "images" true [].

(** [plot_graph]'s defaults with an explicit bounding box. *)
Definition boxed (b : bbox_t) : GraphArgs :=
  mkGraphArgs (Some b) 6 None (2 # 100) true "w" true false true "png" "temp"
    300%Z false "#66ccff" 15 1 "none" 1%Z "#999999" (Width 1) 1 true.


(** One triangle as the only boundary geometry. *)
Definition triangle : list shape := [Polygon [(0, 0); (4, 0); (0, 2)]].

(** Two nodes joined by two parallel edges: key 0 is the longer one and
    carries a curve, key 1 the shorter one and carries none. *)
Definition divided : Graph :=
  mkGraph
    [(1%Z, mkNode 0 0); (2%Z, mkNode 2 0)]
    [(1%Z, [(2%Z, [(0%Z, mkEdge 4 (Scalar "primary")
                           (Some [(0, 0); (1, 1); (2, 0)]) []);
                   (1%Z, mkEdge 2 (Listed ["service"; "alley"]) None [])])]);
     (2%Z, [])]%string.

(** [plot_graph_route]'s defaults with an explicit bounding box. *)
Definition route_boxed (b : bbox_t) : RouteArgs :=
  mkRouteArgs (boxed b) None None "r" 4 (1 # 2) (1 # 2) 100 "r" "b".


(** Edges with a numeric attribute "speed". *)
Definition with_speed (speed : Q) : EdgeData :=
  mkEdge 1 (Scalar "residential") None [("speed", speed)].

(** Two nodes joined by one parallel edge per speed in the list. *)
Definition speeds (l : list Q) : Graph :=
  mkGraph
    [(0%Z, mkNode 0 0); (1%Z, mkNode 0 1)]
    [(0%Z, [(1%Z, combine (map Z.of_nat (seq 0 (List.length l)))
                    (map with_speed l))]);
     (1%Z, [])].

(** A graph with an edge to a node that has no coordinates. *)
Definition dangling : Graph :=
  mkGraph [(0%Z, mkNode 0 0)] [(0%Z, [(7%Z, [(0%Z, street 1)])])].

(** A point among the boundary geometries. *)
Definition mixed : list shape :=
  [Polygon [(0, 0); (4, 0); (0, 2)]; OtherShape [(1, 1)]].

(** A world without folium. *)
Definition bare (g : Graph) : World :=
  mkWorld g (blank (0, 0) None) "images" false [].

(** [plot_graph_route]'s defaults with an explicit box and both points. *)
Definition route_between (b : bbox_t) (p q : point) : RouteArgs :=
  mkRouteArgs (boxed b) (Some p) (Some q) "r" 4 (1 # 2) (1 # 2) 100 "r" "b".

(** The world with some artists added to the figure. *)
Definition with_artists (extra : list artist) (w : World) : World :=
  after (on_canvas (fun a =>
    mkAxes (figsize a) (fig_facecolor a) (ax_facecolor a) (artists a ++ extra)
      (ylim a) (xlim a) (axis_shown a) (aspect_equal a) (chrome a))) w.

(** The patches [plot_shape] draws for some geometries. *)
Definition patches (fc ec : string) (linewidth alpha : Q) (gdf : list shape)
  : list artist :=
  map (fun polygon => PolygonPatch polygon fc ec linewidth alpha)
    (flat_map rings gdf).

(** The row of the edge table that [graph_to_gdfs] makes of an edge. *)
Definition row_of (g : Graph) (e : edge_record) (r : EdgeRow) : Prop :=
  let '(u, v, key, data) := e in
  row_u r = u /\ row_v r = v /\ row_key r = key /\ row_data r = data /\
  drawn_as g true u v data (row_geometry r).

(** The map the polylines are added to: the caller's, or a new one
    centred on the rows' geometries. *)
Definition started (given : option FoliumMap) (rows : list EdgeRow)
    (tiles : string) (zoom : Z) : FoliumMap :=
  match given with
  | None => mkMap (CentroidOf (map row_geometry rows)) zoom tiles [] None
  | Some m => m
  end.

(** The bounds a map is fitted to, [(south, west), (north, east)] of the
    rows' geometries, or those it had. *)
Definition fit_of (fit_bounds : bool) (rows : list EdgeRow)
    (before now : option (point * point)) : Prop :=
  if fit_bounds then
    exists minx miny maxx maxy,
      bounds_of (flat_map row_geometry rows) = Some (minx, miny, maxx, maxy) /\
      now = Some ((miny, minx), (maxy, maxx))
  else now = before.

(** What a folium rendering of some rows has made of the map. *)
Definition rendered (rows : list EdgeRow) (c : string) (wd op : Q)
    (popup_attribute : option string) (fit_bounds : bool)
    (m0 m' : FoliumMap) : Prop :=
  exists new,
    Forall2 (polyline_for c wd op popup_attribute) rows new /\
    layers m' = layers m0 ++ new /\
    location m' = location m0 /\ zoom_start m' = zoom_start m0 /\
    tiles m' = tiles m0 /\
    fit_of fit_bounds rows (fitted m0) (fitted m').

(** The width [plot_figure_ground] gives an edge: that of its street
    type, or the default. *)
Definition classified (street_widths : list (string * Q)) (default_width : Q)
    (data : EdgeData) (width : Q) : Prop :=
  exists st,
    street_type_of (highway data) = Some st /\
    width = match str_get st street_widths with
            | Some mapped => mapped
            | None => default_width
            end.

(** The street widths in force: the caller's, or the defaults. *)
Definition widths_in_force (street_widths : option (list (string * Q)))
  : list (string * Q) :=
  match street_widths with
  | None => default_street_widths
  | Some d => d
  end.

(** The file name in force: the caller's, or the name made of the point
    and the network type. *)
Definition name_in_force (filename : option string) (default_name : string)
  : string :=
  match filename with
  | None => default_name
  | Some f => f
  end.

(** Two nodes joined by an edge whose [highway] list is empty. *)
Definition untagged : Graph :=
  mkGraph
    [(0%Z, mkNode 0 0); (1%Z, mkNode 0 1)]
    [(0%Z, [(1%Z, [(0%Z, mkEdge 1 (Listed []) None [])])]); (1%Z, [])].

(** Every edge that [plot_graph] draws as a straight line, for want of
    curve data or of [use_geom], joins two nodes with coordinates. *)
Definition endpoints_needed (use_geom : bool) (g : Graph) : Prop :=
  forall u v key data,
    In (u, v, key, data) (edges_of g) ->
    geometry data = None \/ use_geom = false ->
    exists nu nv, dict_get u (node g) = Some nu /\ dict_get v (node g) = Some nv.

(** The width of an edge, in the words of the street-width rule: the
    edge's street type is its [highway] value, or the first element of it
    when it is a list, and the width is what [street_widths] maps the type
    to, or [default_width] when the type is no key of it. *)
Definition mapped_or_default (street_widths : list (string * Q))
    (default_width : Q) (data : EdgeData) (width : Q) : Prop :=
  exists st,
    (highway data = Scalar st \/ exists others, highway data = Listed (st :: others)) /\
    (forall mapped, str_get st street_widths = Some mapped -> width = mapped) /\
    (str_get st street_widths = None -> width = default_width).

(** The popup attribute, if one is asked for, is a column in which every
    edge of the graph has a value. *)
Definition popup_carried (popup_attribute : option string) (g : Graph) : Prop :=
  match popup_attribute with
  | None => True
  | Some column =>
      forall u v key data line,
        In (u, v, key, data) (edges_of g) ->
        row_get (mkRow u v key data line) column <> None
  end.

(** * Properties *)

(** ** Runs of the monad *)

Lemma bind_OK {A B : Type} (m : M A) (k : A -> M B) w b w' :
  bind m k w = (OK b, w') ->
  exists a w1, m w = (OK a, w1) /\ k a w1 = (OK b, w').
Proof.
  unfold bind. destruct (m w) as [[a|e] w1]; intro H.
  - exists a, w1. split; [reflexivity | exact H].
  - discriminate H.
Qed.

Lemma bind_run_OK {A B : Type} (m : M A) (k : A -> M B) w a w1 :
  m w = (OK a, w1) -> bind m k w = k a w1.
Proof. intro H. unfold bind. rewrite H. reflexivity. Qed.

Lemma bind_run_Raise {A B : Type} (m : M A) (k : A -> M B) w e w1 :
  m w = (Raise e, w1) -> bind m k w = (Raise e, w1).
Proof. intro H. unfold bind. rewrite H. reflexivity. Qed.

Lemma keeps_ret {T A : Type} (f : World -> T) (a : A) : keeps f (ret a).
Proof. intro w. reflexivity. Qed.

Lemma keeps_raise {T A : Type} (f : World -> T) e : keeps f (@raise A e).
Proof. intro w. reflexivity. Qed.

Lemma keeps_bind {T A B : Type} (f : World -> T) (m : M A) (k : A -> M B) :
  keeps f m -> (forall a, keeps f (k a)) -> keeps f (bind m k).
Proof.
  intros Hm Hk w. unfold after, bind. specialize (Hm w). unfold after in Hm.
  destruct (m w) as [[a|e] w1]; simpl in *.
  - rewrite <- Hm. apply Hk.
  - exact Hm.
Qed.

Lemma keeps_when {T : Type} (f : World -> T) b m :
  keeps f m -> keeps f (when b m).
Proof. intro H. destruct b; [exact H | apply keeps_ret]. Qed.

Lemma keeps_for_each {T A : Type} (f : World -> T) (body : A -> M unit) l :
  (forall a, keeps f (body a)) -> keeps f (for_each body l).
Proof.
  intro Hb. induction l as [|a l IH]; simpl.
  - apply keeps_ret.
  - apply keeps_bind; [apply Hb | intros _; exact IH].
Qed.

Lemma keeps_for_collect {T A B : Type} (f : World -> T) (body : A -> M B) l :
  (forall a, keeps f (body a)) -> keeps f (for_collect body l).
Proof.
  intro Hb. induction l as [|a l IH]; simpl.
  - apply keeps_ret.
  - apply keeps_bind; [apply Hb | intro b].
    apply keeps_bind; [exact IH | intro bs; apply keeps_ret].
Qed.

Lemma keeps_of_option {T A : Type} (f : World -> T) e (o : option A) :
  keeps f (of_option e o).
Proof. destruct o; [apply keeps_ret | apply keeps_raise]. Qed.

Lemma keeps_reads {A : Type} (m : M A) : keeps (fun w => w) m -> reads m.
Proof. intros H w. exact (H w). Qed.

Lemma reads_same {A : Type} (m : M A) w r w1 :
  reads m -> m w = (r, w1) -> w1 = w.
Proof. intros Hm H. specialize (Hm w). unfold after in Hm. rewrite H in Hm. exact Hm. Qed.

Lemma keeps_the_graph {T : Type} (f : World -> T) : keeps f the_graph.
Proof. intro w. reflexivity. Qed.

Lemma keeps_the_folium {T : Type} (f : World -> T) : keeps f the_folium.
Proof. intro w. reflexivity. Qed.

Lemma keeps_the_imgs_folder {T : Type} (f : World -> T) : keeps f the_imgs_folder.
Proof. intro w. reflexivity. Qed.

Lemma keeps_py_div {T : Type} (f : World -> T) a b : keeps f (py_div a b).
Proof. unfold py_div. destruct (Qeq_bool b 0); [apply keeps_raise | apply keeps_ret]. Qed.

Lemma keeps_py_min {T A : Type} (f : World -> T) (key : A -> Q) l :
  keeps f (py_min key l).
Proof. destruct l; [apply keeps_raise | apply keeps_ret]. Qed.

Create HintDb frame.
#[local] Hint Resolve keeps_ret keeps_raise keeps_bind keeps_when keeps_for_each
  keeps_for_collect keeps_of_option keeps_the_graph keeps_the_folium
  keeps_the_imgs_folder keeps_py_div keeps_py_min : frame.

(** Every read of the graph keeps every observation of the world. *)

Lemma keeps_G_node {T : Type} (f : World -> T) u : keeps f (G_node u).
Proof. unfold G_node. auto with frame. Qed.

Lemma keeps_G_node_values {T : Type} (f : World -> T) : keeps f G_node_values.
Proof. unfold G_node_values. auto with frame. Qed.

Lemma keeps_G_nodes {T : Type} (f : World -> T) : keeps f G_nodes.
Proof. unfold G_nodes. auto with frame. Qed.

Lemma keeps_G_edges {T : Type} (f : World -> T) : keeps f G_edges.
Proof. unfold G_edges. auto with frame. Qed.

Lemma keeps_G_edge {T : Type} (f : World -> T) u v : keeps f (G_edge u v).
Proof. unfold G_edge. auto 6 with frame. Qed.

#[local] Hint Resolve keeps_G_node keeps_G_node_values keeps_G_nodes
  keeps_G_edges keeps_G_edge : frame.

Lemma keeps_node_to_node {T : Type} (f : World -> T) u v :
  keeps f (node_to_node u v).
Proof. unfold node_to_node. auto 10 with frame. Qed.

#[local] Hint Resolve keeps_node_to_node : frame.

Lemma keeps_edge_polyline {T : Type} (f : World -> T) ug u v d :
  keeps f (edge_polyline ug u v d).
Proof.
  unfold edge_polyline. destruct (geometry d); [destruct ug|]; simpl;
    auto with frame.
Qed.

Lemma keeps_route_edge {T : Type} (f : World -> T) u v : keeps f (route_edge u v).
Proof. unfold route_edge. auto with frame. Qed.

Lemma keeps_graph_to_gdfs {T : Type} (f : World -> T) : keeps f graph_to_gdfs.
Proof.
  unfold graph_to_gdfs. apply keeps_bind; [auto with frame | intro es].
  apply keeps_for_collect. intros [[[u v] key] data].
  destruct (geometry data); auto 6 with frame.
Qed.

Lemma keeps_total_bounds {T : Type} (f : World -> T) rows :
  keeps f (total_bounds rows).
Proof. unfold total_bounds. auto with frame. Qed.

#[local] Hint Resolve keeps_edge_polyline keeps_route_edge keeps_graph_to_gdfs
  keeps_total_bounds : frame.

Lemma keeps_get_bbox {T : Type} (f : World -> T) b : keeps f (get_bbox b).
Proof.
  unfold get_bbox. destruct b; [auto with frame|].
  apply keeps_bind; [auto with frame | intro rows].
  apply keeps_bind; [auto with frame | intros [[[? ?] ?] ?]; auto with frame].
Qed.

Lemma keeps_markers {T : Type} (f : World -> T) a o d : keeps f (markers a o d).
Proof.
  unfold markers, lat_of, lon_of.
  destruct (origin_point a), (destination_point a); simpl; auto 10 with frame.
Qed.

#[local] Hint Resolve keeps_get_bbox keeps_markers : frame.

(** ** What the drawing operations leave alone *)

(** Splits a [keeps] goal along the structure of the computation; the
    primitives are closed by the [frame] hints or by evaluation. *)
Ltac keep :=
  lazymatch goal with
  | |- keeps _ (bind _ _) => apply keeps_bind; [keep | intro; keep]
  | |- keeps _ (when _ _) => apply keeps_when; keep
  | |- keeps _ (for_each _ _) => apply keeps_for_each; intro; keep
  | |- keeps _ (for_collect _ _) => apply keeps_for_collect; intro; keep
  | |- keeps _ (match ?x with _ => _ end) => destruct x; keep
  | |- keeps _ _ => first [ solve [auto with frame] | solve [intro; reflexivity] ]
  end.

Lemma save_and_show_keeps_graph sv sh cl fn ff d ao :
  keeps graph (save_and_show sv sh cl fn ff d ao).
Proof. unfold save_and_show, savefig. keep. Qed.

Lemma save_and_show_keeps_limits sv sh cl fn ff d ao :
  keeps limits (save_and_show sv sh cl fn ff d ao).
Proof. unfold save_and_show, savefig. keep. Qed.

Lemma save_and_show_keeps_drawn sv sh cl fn ff d ao :
  keeps drawn (save_and_show sv sh cl fn ff d ao).
Proof. unfold save_and_show, savefig. keep. Qed.

Lemma save_and_show_keeps_figure_size sv sh cl fn ff d ao :
  keeps figure_size (save_and_show sv sh cl fn ff d ao).
Proof. unfold save_and_show, savefig. keep. Qed.

#[local] Hint Resolve save_and_show_keeps_graph save_and_show_keeps_limits
  save_and_show_keeps_drawn save_and_show_keeps_figure_size : frame.

Lemma plot_graph_keeps_graph a : keeps graph (plot_graph a).
Proof. unfold plot_graph. keep. Qed.

Lemma plot_graph_route_keeps_graph route a : keeps graph (plot_graph_route route a).
Proof.
  unfold plot_graph_route. apply keeps_bind; [apply plot_graph_keeps_graph|].
  intros _. unfold first_of, last_of. keep.
Qed.

Lemma keeps_run {T A : Type} (f : World -> T) (m : M A) w r w' :
  keeps f m -> m w = (r, w') -> f w' = f w.
Proof. intros Hk H. specialize (Hk w). unfold after in Hk. rewrite H in Hk. exact Hk. Qed.

(** A loop of reads collects, item by item, what its body returns. *)
Lemma for_collect_reads {A B : Type} (body : A -> M B) l w bs w' :
  (forall a, reads (body a)) ->
  for_collect body l w = (OK bs, w') ->
  w' = w /\ Forall2 (fun a b => body a w = (OK b, w)) l bs.
Proof.
  intro Hr. revert bs w'. induction l as [|a l IH]; simpl; intros bs w' H.
  - inversion H; subst. split; [reflexivity | constructor].
  - apply bind_OK in H as (b & w1 & Hb & H).
    apply bind_OK in H as (bs' & w2 & Hbs & H).
    inversion H; subst; clear H.
    assert (w1 = w) by (eapply reads_same; [apply Hr | exact Hb]). subst w1.
    destruct (IH _ _ Hbs) as [-> HF].
    split; [reflexivity | constructor; assumption].
Qed.

(** A loop of reads whose body succeeds on every item succeeds. *)
Lemma for_collect_total {A B : Type} (body : A -> M B) (f : A -> B) l w :
  (forall a, In a l -> body a w = (OK (f a), w)) ->
  for_collect body l w = (OK (map f l), w).
Proof.
  induction l as [|a l IH]; simpl; intro H; [reflexivity|].
  rewrite (bind_run_OK _ _ _ _ _ (H a (or_introl eq_refl))).
  rewrite (bind_run_OK _ _ _ _ _ (IH (fun x Hx => H x (or_intror Hx)))).
  reflexivity.
Qed.

(** ** The polyline of an edge *)

Lemma zip_xy (g : LineString) : combine (fst (xy g)) (snd (xy g)) = g.
Proof.
  unfold xy; simpl. induction g as [|[px py] g IH]; simpl; [reflexivity|].
  rewrite IH. reflexivity.
Qed.

Lemma G_node_OK u w nd w' :
  G_node u w = (OK nd, w') -> w' = w /\ dict_get u (node (graph w)) = Some nd.
Proof.
  unfold G_node, the_graph, bind, of_option.
  destruct (dict_get u (node (graph w))); simpl; intro H; inversion H; auto.
Qed.

Lemma G_node_found u w nd :
  dict_get u (node (graph w)) = Some nd -> G_node u w = (OK nd, w).
Proof. intro H. unfold G_node, the_graph, bind, of_option. rewrite H. reflexivity. Qed.

Lemma node_to_node_OK u v w line w' :
  node_to_node u v w = (OK line, w') -> w' = w /\ straight (graph w) u v line.
Proof.
  unfold node_to_node. intro H.
  apply bind_OK in H as (nu & w1 & H1 & H). apply G_node_OK in H1 as [-> Hu].
  apply bind_OK in H as (nu' & w1 & H1 & H). apply G_node_OK in H1 as [-> Hu'].
  apply bind_OK in H as (nv & w1 & H1 & H). apply G_node_OK in H1 as [-> Hv].
  apply bind_OK in H as (nv' & w1 & H1 & H). apply G_node_OK in H1 as [-> Hv'].
  inversion H; subst; clear H.
  rewrite Hu in Hu'; inversion Hu'; subst nu'.
  rewrite Hv in Hv'; inversion Hv'; subst nv'.
  split; [reflexivity|]. exists nu, nv. auto.
Qed.

Lemma node_to_node_found u v w nu nv :
  dict_get u (node (graph w)) = Some nu ->
  dict_get v (node (graph w)) = Some nv ->
  node_to_node u v w = (OK [(node_x nu, node_y nu); (node_x nv, node_y nv)], w).
Proof.
  intros Hu Hv. unfold node_to_node.
  rewrite (bind_run_OK _ _ _ _ _ (G_node_found u w nu Hu)).
  rewrite (bind_run_OK _ _ _ _ _ (G_node_found u w nu Hu)).
  rewrite (bind_run_OK _ _ _ _ _ (G_node_found v w nv Hv)).
  rewrite (bind_run_OK _ _ _ _ _ (G_node_found v w nv Hv)).
  reflexivity.
Qed.

Lemma edge_polyline_OK ug u v data w line w' :
  edge_polyline ug u v data w = (OK line, w') ->
  w' = w /\ drawn_as (graph w) ug u v data line.
Proof.
  unfold edge_polyline, drawn_as. destruct (geometry data) as [geom|].
  - destruct ug.
    + pose proof (zip_xy geom) as Hz. unfold xy in *. simpl in *.
      intro H. inversion H; subst. rewrite Hz. auto.
    + apply node_to_node_OK.
  - apply node_to_node_OK.
Qed.

(** Seen from a world with the same graph, a polyline is drawn the same. *)
Lemma drawn_as_graph g ug u v data line :
  drawn_as g ug u v data line ->
  forall w, graph w = g -> edge_polyline ug u v data w = (OK line, w).
Proof.
  unfold drawn_as, edge_polyline. intros H w <-.
  destruct (geometry data) as [geom|].
  - destruct ug.
    + subst line. pose proof (zip_xy geom) as Hz. unfold xy in *. simpl in *.
      rewrite Hz. reflexivity.
    + destruct H as (nu & nv & Hu & Hv & ->). apply node_to_node_found; assumption.
  - destruct H as (nu & nv & Hu & Hv & ->). apply node_to_node_found; assumption.
Qed.

(** ** What a successful plot_graph leaves on the figure *)

Lemma view_inv w g s d l :
  view w = (g, s, d, l) ->
  graph w = g /\ figure_size w = s /\ drawn w = d /\ limits w = l.
Proof. unfold view. intro H. inversion H. auto. Qed.

Lemma subplots_view size fc w w1 :
  subplots size fc w = (OK tt, w1) ->
  view w1 = (graph w, size, [], (None, None)).
Proof. intro H. inversion H. reflexivity. Qed.

Lemma add_artist_view r w w1 g s d l :
  view w = (g, s, d, l) ->
  add_artist r w = (OK tt, w1) -> view w1 = (g, s, d ++ [r], l).
Proof. intros Hv H. inversion H. inversion Hv. reflexivity. Qed.

Lemma set_ylim_view yl w w1 g s d l :
  view w = (g, s, d, l) ->
  set_ylim yl w = (OK tt, w1) -> view w1 = (g, s, d, (Some yl, snd l)).
Proof. intros Hv H. inversion H. inversion Hv. reflexivity. Qed.

Lemma set_xlim_view xl w w1 g s d l :
  view w = (g, s, d, l) ->
  set_xlim xl w = (OK tt, w1) -> view w1 = (g, s, d, (fst l, Some xl)).
Proof. intros Hv H. inversion H. inversion Hv. reflexivity. Qed.

Lemma save_and_show_keeps_view sv sh cl fn ff d ao :
  keeps view (save_and_show sv sh cl fn ff d ao).
Proof. unfold save_and_show, savefig. keep. Qed.

Lemma py_div_OK a b w q w' :
  py_div a b w = (OK q, w') -> w' = w /\ Qeq_bool b 0 = false /\ q = a / b.
Proof.
  unfold py_div. destruct (Qeq_bool b 0); intro H; inversion H; auto.
Qed.

Lemma annotate_loop_view nds w w' g s d l :
  view w = (g, s, d, l) ->
  for_each (fun '(n, data) =>
    add_artist (Annotation n (node_x data, node_y data))) nds w = (OK tt, w') ->
  view w' = (g, s, d ++ annotations true nds, l).
Proof.
  revert w d. induction nds as [|[n data] nds IH]; simpl; intros w d Hv H.
  - inversion H; subst. rewrite app_nil_r. exact Hv.
  - apply bind_OK in H as ([] & w1 & H1 & H).
    apply (add_artist_view _ _ _ _ _ _ _ Hv) in H1.
    rewrite (IH _ _ H1 H). rewrite <- app_assoc. reflexivity.
Qed.

Lemma annotate_view b w w' g s d l :
  view w = (g, s, d, l) ->
  when b (nds <- G_nodes ;;
          for_each (fun '(n, data) =>
            add_artist (Annotation n (node_x data, node_y data))) nds) w
    = (OK tt, w') ->
  view w' = (g, s, d ++ annotations b (node g), l).
Proof.
  intros Hv H. destruct b; simpl in H.
  - apply bind_OK in H as (nds & w1 & H1 & H).
    cbv [G_nodes the_graph bind ret] in H1. inversion H1; subst; clear H1.
    apply view_inv in Hv as Hg. destruct Hg as (<- & _).
    eapply annotate_loop_view; eassumption.
  - inversion H; subst. simpl. rewrite app_nil_r. exact Hv.
Qed.

Lemma plot_graph_OK a w w' :
  plot_graph a w = (OK tt, w') ->
  exists north south east west fw lines,
    get_bbox (bbox a) w = (OK (north, south, east, west), w) /\
    Qeq_bool (east - west) 0 = false /\
    match fig_width a with
    | Some given => fw = given
    | None =>
        Qeq_bool ((north - south) / (east - west)) 0 = false /\
        fw = fig_height a / ((north - south) / (east - west))
    end /\
    Forall2 (fun '(u, v, _, data) line =>
               drawn_as (graph w) (use_geom a) u v data line)
            (edges_of (graph w)) lines /\
    view w' =
      (graph w, (fw, fig_height a),
       LineCollection lines (edge_color a) (edge_linewidth a) (edge_alpha a) 2%Z
       :: PathCollection (map node_x (values (node (graph w))))
            (map node_y (values (node (graph w)))) (node_size a) (node_color a)
            (node_alpha a) (node_edgecolor a) (node_zorder a)
       :: annotations (annotate a) (node (graph w)),
       (Some (south - (north - south) * margin a,
              north + (north - south) * margin a),
        Some (west - (east - west) * margin a,
              east + (east - west) * margin a))).
Proof.
  intro H. unfold plot_graph in H.
  apply bind_OK in H as (nodes & wa & H1 & H).
  cbv [G_node_values the_graph bind ret] in H1. inversion H1; subst; clear H1.
  apply bind_OK in H as ([[[north south] east] west] & wb & Hb & H).
  pose proof (keeps_run (fun x => x) _ _ _ _ (keeps_get_bbox _ _) Hb) as Hwb.
  simpl in Hwb. subst wb.
  apply bind_OK in H as (ratio & wc & Hr & H).
  apply py_div_OK in Hr as (-> & Hew & ->).
  apply bind_OK in H as (fw & wd & Hw & H).
  assert (wd = wa /\ match fig_width a with
                     | Some given => fw = given
                     | None =>
                         Qeq_bool ((north - south) / (east - west)) 0 = false /\
                         fw = fig_height a / ((north - south) / (east - west))
                     end) as [-> Hfw].
  { destruct (fig_width a).
    - inversion Hw; auto.
    - apply py_div_OK in Hw as (-> & ? & ->). auto. }
  clear Hw.
  exists north, south, east, west, fw.
  apply bind_OK in H as ([] & we & Hv & H). apply subplots_view in Hv.
  apply bind_OK in H as ([] & wf & Hf & H).
  apply (keeps_run view) in Hf; [| keep]. rewrite Hv in Hf. clear Hv we.
  apply bind_OK in H as (es & wg & He & H).
  cbv [G_edges the_graph bind ret] in He. inversion He; subst; clear He.
  apply bind_OK in H as (lines & wh & Hl & H).
  apply for_collect_reads in Hl as [-> Hl];
    [| intros [[[? ?] ?] ?]; apply keeps_reads, keeps_edge_polyline].
  exists lines.
  assert (graph wg = graph wa) as Hg by (apply view_inv in Hf; tauto).
  rewrite Hg in *.
  apply bind_OK in H as ([] & wi & Hi & H).
  apply (add_artist_view _ _ _ _ _ _ _ Hf) in Hi. clear Hf.
  apply bind_OK in H as ([] & wj & Hj & H).
  apply (add_artist_view _ _ _ _ _ _ _ Hi) in Hj. clear Hi wi.
  apply bind_OK in H as ([] & wi & Hi & H).
  apply (set_ylim_view _ _ _ _ _ _ _ Hj) in Hi. clear Hj wj.
  apply bind_OK in H as ([] & wj & Hj & H).
  apply (set_xlim_view _ _ _ _ _ _ _ Hi) in Hj. clear Hi wi.
  apply bind_OK in H as ([] & wi & Hi & H).
  apply (keeps_run view) in Hi; [| keep]. rewrite Hj in Hi. clear Hj wj.
  apply bind_OK in H as ([] & wj & Hj & H).
  apply (keeps_run view) in Hj; [| keep]. rewrite Hi in Hj. clear Hi wi.
  apply bind_OK in H as ([] & wi & Hi & H).
  apply (keeps_run view) in Hi; [| keep]. rewrite Hj in Hi. clear Hj wj.
  apply bind_OK in H as ([] & wj & Hj & H).
  apply (annotate_view _ _ _ _ _ _ _ Hi) in Hj. clear Hi wi.
  apply (keeps_run view) in H; [| apply save_and_show_keeps_view].
  rewrite Hj in H. clear Hj wj.
  repeat split; try assumption.
  clear H. induction Hl as [|[[[u v] key] data] line es ls Hx _ IH];
    constructor; [| exact IH].
  apply edge_polyline_OK in Hx as [_ Hx]. rewrite Hg in Hx. exact Hx.
Qed.

(** ** C9: the graph is only read *)

(** C9.  Whatever the arguments and whether it returns or raises,
    [plot_graph] leaves the caller's graph as it found it: the same node
    dict, the same adjacency, hence the same nodes, edges and attributes. *)
Theorem plot_graph_leaves_graph_unchanged (a : GraphArgs) (w : World) :
  graph (after (plot_graph a) w) = graph w /\
  node (graph (after (plot_graph a) w)) = node (graph w) /\
  edge (graph (after (plot_graph a) w)) = edge (graph w).
Proof.
  pose proof (plot_graph_keeps_graph a w) as H.
  rewrite H. auto.
Qed.

(** ** The limits plot_shape sets *)

Lemma Qmult_swap (a b : Q) : a * b = b * a.
Proof.
  unfold Qmult. rewrite (Z.mul_comm (Qnum a)), (Pos.mul_comm (Qden a)).
  reflexivity.
Qed.

Lemma of_option_OK {A : Type} e (o : option A) w a w' :
  of_option e o w = (OK a, w') -> w' = w /\ o = Some a.
Proof. destruct o; intro H; inversion H; auto. Qed.

Lemma plot_shape_limits gdf fc ec lw al size m ao w w' :
  plot_shape gdf fc ec lw al size m ao w = (OK tt, w') ->
  exists west south east north,
    unary_union_bounds gdf w = (OK (west, south, east, north), w) /\
    limits w' =
      (Some (south - (north - south) * m, north + (north - south) * m),
       Some (west - (east - west) * m, east + (east - west) * m)).
Proof.
  intro H. unfold plot_shape in H.
  apply bind_OK in H as ([] & w1 & _ & H).
  apply bind_OK in H as ([] & w2 & _ & H).
  apply bind_OK in H as ([[[west south] east] north] & w3 & Hb & H).
  apply of_option_OK in Hb as [-> Hb].
  exists west, south, east, north. split.
  { unfold unary_union_bounds. rewrite Hb. reflexivity. }
  apply bind_OK in H as ([] & w4 & Hy & H).
  cbv [set_ylim on_canvas] in Hy. inversion Hy; subst w4; clear Hy.
  apply bind_OK in H as ([] & w5 & Hx & H).
  cbv [set_xlim on_canvas] in Hx. inversion Hx; subst w5; clear Hx.
  apply (keeps_run limits) in H; [| keep].
  rewrite H. reflexivity.
Qed.

(** ** C4: the figure width *)

Lemma py_div_run a b w :
  Qeq_bool b 0 = false -> py_div a b w = (OK (a / b), w).
Proof. intro H. unfold py_div. rewrite H. reflexivity. Qed.

Lemma py_div_by_zero a b w :
  b == 0 -> py_div a b w = (Raise ZeroDivisionError, w).
Proof.
  intro H. unfold py_div. apply Qeq_bool_iff in H. rewrite H. reflexivity.
Qed.

Lemma difference_nonzero (p q : Q) : ~ p == q -> Qeq_bool (p - q) 0 = false.
Proof.
  intro H. destruct (Qeq_bool (p - q) 0) eqn:E; [|reflexivity].
  apply Qeq_bool_iff in E. exfalso. apply H. lra.
Qed.

Lemma ratio_nonzero (n s e w : Q) :
  ~ n == s -> ~ e == w -> Qeq_bool ((n - s) / (e - w)) 0 = false.
Proof.
  intros Hns Hew. destruct (Qeq_bool ((n - s) / (e - w)) 0) eqn:E; [|reflexivity].
  apply Qeq_bool_iff in E. exfalso. apply Hns.
  assert (~ e - w == 0) as Hd by (intro; apply Hew; lra).
  pose proof (Qmult_div_r (n - s) (e - w) Hd) as Hm.
  rewrite E in Hm. lra.
Qed.






(** ** C3: the view limits *)

Lemma graph_to_gdfs_table w rows w' :
  graph_to_gdfs w = (OK rows, w') ->
  w' = w /\ Forall2 (row_of (graph w)) (edges_of (graph w)) rows.
Proof.
  unfold graph_to_gdfs. intro H.
  apply bind_OK in H as (es & w1 & He & H).
  cbv [G_edges the_graph bind ret] in He. inversion He; subst es w1; clear He.
  apply for_collect_reads in H as [-> H].
  2:{ intros [[[u v] key] data]. apply keeps_reads.
      destruct (geometry data); keep. }
  split; [reflexivity|].
  eapply Forall2_impl; [| exact H].
  intros [[[u v] key] data] r Hr. unfold row_of, drawn_as.
  destruct (geometry data) as [geom|] eqn:Hg.
  - inversion Hr; subst r; simpl. auto.
  - apply bind_OK in Hr as (pu & w1 & Hu & Hr). apply G_node_OK in Hu as [-> Hu].
    apply bind_OK in Hr as (pv & w2 & Hv & Hr). apply G_node_OK in Hv as [-> Hv].
    inversion Hr; subst r; simpl. repeat split.
    exists pu, pv. auto.
Qed.

Lemma edge_table_polylines g (es : list edge_record) (rows : list EdgeRow) :
  Forall2 (row_of g) es rows ->
  Forall2 (fun '(u, v, _, data) line => drawn_as g true u v data line)
          es (map row_geometry rows).
Proof.
  induction 1 as [|[[[u v] key] data] r es rows Hr _ IH]; simpl; constructor;
    [| exact IH].
  destruct Hr as (_ & _ & _ & _ & Hr). exact Hr.
Qed.

Lemma plot_graph_degenerate_box a w north south east west :
  bbox a = Some (north, south, east, west) ->
  east == west \/ (fig_width a = None /\ north == south) ->
  plot_graph a w = (Raise ZeroDivisionError, w).
Proof.
  intros Hb Hdeg. unfold plot_graph.
  rewrite (bind_run_OK G_node_values _ w _ w eq_refl).
  rewrite Hb. simpl get_bbox.
  rewrite (bind_run_OK (ret (north, south, east, west)) _ w _ w eq_refl).
  cbv beta iota.
  destruct (Qeq_dec east west) as [Hew | Hew].
  - apply bind_run_Raise, py_div_by_zero. lra.
  - destruct Hdeg as [Hew' | [Hnone Hns]]; [contradiction|].
    rewrite (bind_run_OK _ _ _ _ _
               (py_div_run (north - south) (east - west) w
                  (difference_nonzero _ _ Hew))).
    rewrite Hnone. apply bind_run_Raise, py_div_by_zero.
    assert (~ east - west == 0) as Hd by (intro; apply Hew; lra).
    assert (north - south == 0) as -> by lra. field. exact Hd.
Qed.

(** C3, as amended.  Given a box (N, S, E, W), [plot_graph] returns only
    if E <> W, and N <> S when it has to derive the figure width, and
    when it returns the view limits are (S - m(N - S), N + m(N - S)) on
    the y axis and (W - m(E - W), E + m(E - W)) on the x axis, for its
    [margin] m; on a box with E = W, or with N = S and no [fig_width], it
    does not return and sets no limits.  Given no box, the limits it has
    set when it returns are these for the bounds of the edges' lines; and
    those [plot_shape] has set when it returns are these for the bounds
    of the geometries. *)
Theorem view_limits_are_margin_expanded_box
    (a : GraphArgs) (gdf : list shape) (fc ec : string) (lw al : Q)
    (size : Q * Q) (m : Q) (ao : bool) (w w' : World)
    (north south east west : Q) :
  (bbox a = Some (north, south, east, west) ->
   (plot_graph a w = (OK tt, w') ->
    ~ east == west /\
    (fig_width a = None -> ~ north == south) /\
    ylim (canvas w') =
      Some (south - margin a * (north - south),
            north + margin a * (north - south)) /\
    xlim (canvas w') =
      Some (west - margin a * (east - west),
            east + margin a * (east - west))) /\
   (east == west \/ (fig_width a = None /\ north == south) ->
    plot_graph a w <> (OK tt, w') /\
    limits (after (plot_graph a) w) = limits w)) /\
  (bbox a = None ->
   plot_graph a w = (OK tt, w') ->
   exists lines minx miny maxx maxy,
     Forall2 (fun '(u, v, _, data) line => drawn_as (graph w) true u v data line)
             (edges_of (graph w)) lines /\
     bounds_of (List.concat lines) = Some (minx, miny, maxx, maxy) /\
     ylim (canvas w') =
       Some (miny - margin a * (maxy - miny), maxy + margin a * (maxy - miny)) /\
     xlim (canvas w') =
       Some (minx - margin a * (maxx - minx), maxx + margin a * (maxx - minx))) /\
  (plot_shape gdf fc ec lw al size m ao w = (OK tt, w') ->
   exists minx miny maxx maxy,
     bounds_of (flat_map shape_coords gdf) = Some (minx, miny, maxx, maxy) /\
     ylim (canvas w') =
       Some (miny - m * (maxy - miny), maxy + m * (maxy - miny)) /\
     xlim (canvas w') =
       Some (minx - m * (maxx - minx), maxx + m * (maxx - minx))).
Proof.
  split; [| split].
  - intro Hb. split.
    + intro H. apply plot_graph_OK in H
        as (n & s & e & w0 & fw & lines & Hbox & Hew & Hfw & _ & Hv).
      rewrite Hb in Hbox. inversion Hbox; subst n s e w0; clear Hbox.
      apply Qeq_bool_neq in Hew.
      assert (~ east == west) as Hne by (intro Heq; apply Hew; lra).
      split; [exact Hne|]. split.
      * intros Hnone Hns. rewrite Hnone in Hfw. destruct Hfw as [Hr _].
        apply Qeq_bool_neq in Hr. apply Hr.
        assert (north - south == 0) as -> by lra. field. exact Hew.
      * apply view_inv in Hv as (_ & _ & _ & Hl). unfold limits in Hl.
        inversion Hl as [[Hy Hx]].
        rewrite (Qmult_swap (margin a) (north - south)).
        rewrite (Qmult_swap (margin a) (east - west)). auto.
    + intro Hdeg.
      pose proof (plot_graph_degenerate_box a w north south east west Hb Hdeg)
        as Hrun.
      split; [rewrite Hrun; discriminate|].
      unfold after. rewrite Hrun. reflexivity.
  - intros Hb H. apply plot_graph_OK in H
      as (n & s & e & w0 & fw & lines & Hbox & _ & _ & _ & Hv).
    rewrite Hb in Hbox. unfold get_bbox in Hbox.
    apply bind_OK in Hbox as (rows & w1 & Hrows & Hbox).
    apply graph_to_gdfs_table in Hrows as [-> Hrows].
    apply bind_OK in Hbox as ([[[minx miny] maxx] maxy] & w1 & Ht & Hbox).
    apply of_option_OK in Ht as [-> Ht].
    inversion Hbox; subst n s e w0; clear Hbox.
    exists (map row_geometry rows), minx, miny, maxx, maxy.
    split; [apply edge_table_polylines, Hrows|].
    split; [rewrite <- flat_map_concat_map; exact Ht|].
    apply view_inv in Hv as (_ & _ & _ & Hl). unfold limits in Hl.
    inversion Hl as [[Hy Hx]].
    rewrite (Qmult_swap (margin a) (maxy - miny)).
    rewrite (Qmult_swap (margin a) (maxx - minx)). auto.
  - intro H. apply plot_shape_limits in H as (minx & miny & maxx & maxy & Hb & Hl).
    exists minx, miny, maxx, maxy.
    unfold unary_union_bounds in Hb. apply of_option_OK in Hb as [_ Hb].
    split; [exact Hb|].
    unfold limits in Hl. inversion Hl as [[Hy Hx]].
    rewrite (Qmult_swap m (maxy - miny)), (Qmult_swap m (maxx - minx)). auto.
Qed.

(** The limits of the unit square drawn in a given box and in the box of
    its edges, both with the default margin, and of the triangle drawn
    with a margin of one tenth; and a box of no height, on which no limit
    is set. *)
Lemma view_limits_witness :
  (ylim (canvas (after (plot_graph (boxed (2, 0, 1, 0))) (fresh square)))
     = Some (0 - (2 # 100) * (2 - 0), 2 + (2 # 100) * (2 - 0))) /\
  (limits (after (plot_graph (boxed (1, 1, 1, 0))) (fresh square))
     = limits (fresh square)) /\
  (exists lines minx miny maxx maxy,
     Forall2 (fun '(u, v, _, data) line => drawn_as square true u v data line)
             (edges_of square) lines /\
     bounds_of (List.concat lines) = Some (minx, miny, maxx, maxy) /\
     ylim (canvas (after (plot_graph plot_graph_defaults) (fresh square)))
       = Some (miny - (2 # 100) * (maxy - miny),
               maxy + (2 # 100) * (maxy - miny)) /\
     xlim (canvas (after (plot_graph plot_graph_defaults) (fresh square)))
       = Some (minx - (2 # 100) * (maxx - minx),
               maxx + (2 # 100) * (maxx - minx))) /\
  (exists minx miny maxx maxy,
     bounds_of (flat_map shape_coords triangle) = Some (minx, miny, maxx, maxy) /\
     ylim (canvas (after (plot_shape triangle "#cbe0f0" "#999999" 1 1 (6, 6)
                            (1 # 10) true) (fresh square)))
       = Some (miny - (1 # 10) * (maxy - miny), maxy + (1 # 10) * (maxy - miny)) /\
     xlim (canvas (after (plot_shape triangle "#cbe0f0" "#999999" 1 1 (6, 6)
                            (1 # 10) true) (fresh square)))
       = Some (minx - (1 # 10) * (maxx - minx), maxx + (1 # 10) * (maxx - minx))).
Proof.
  split; [| split; [| split]].
  - apply (proj1 (proj1 (view_limits_are_margin_expanded_box
             (boxed (2, 0, 1, 0)) triangle "#cbe0f0" "#999999" 1 1 (6, 6)
             (1 # 10) true (fresh square)
             (after (plot_graph (boxed (2, 0, 1, 0))) (fresh square))
             2 0 1 0) eq_refl) ltac:(vm_compute; reflexivity)).
  - apply (proj2 (proj1 (view_limits_are_margin_expanded_box
             (boxed (1, 1, 1, 0)) triangle "#cbe0f0" "#999999" 1 1 (6, 6)
             (1 # 10) true (fresh square) (fresh square) 1 1 1 0) eq_refl)).
    right. split; reflexivity.
  - apply (proj1 (proj2 (view_limits_are_margin_expanded_box
             plot_graph_defaults triangle "#cbe0f0" "#999999" 1 1 (6, 6)
             (1 # 10) true (fresh square)
             (after (plot_graph plot_graph_defaults) (fresh square))
             0 0 0 0)) eq_refl ltac:(vm_compute; reflexivity)).
  - apply (proj2 (proj2 (view_limits_are_margin_expanded_box
             plot_graph_defaults triangle "#cbe0f0" "#999999" 1 1 (6, 6)
             (1 # 10) true (fresh square)
             (after (plot_shape triangle "#cbe0f0" "#999999" 1 1 (6, 6)
                       (1 # 10) true) (fresh square))
             0 0 0 0)) ltac:(vm_compute; reflexivity)).
Defined.

(** C3 as stated fails on a box of no width: east = west, the aspect
    ratio cannot be computed, [plot_graph] raises before it creates the
    figure, and no view limit is set. *)
Lemma view_limits_zero_width_box_counterexample :
  bbox (boxed (1, 0, 1, 1)) = Some (1, 0, 1, 1) /\
  plot_graph (boxed (1, 0, 1, 1)) (fresh square)
    = (Raise ZeroDivisionError, fresh square) /\
  ylim (canvas (after (plot_graph (boxed (1, 0, 1, 1))) (fresh square))) = None /\
  xlim (canvas (after (plot_graph (boxed (1, 0, 1, 1))) (fresh square))) = None.
Proof.
  repeat split; vm_compute; reflexivity.
Qed.

(** ** When plot_graph returns *)

Lemma returns_bind (m k : M unit) : returns m -> returns k -> returns (m ;; k).
Proof.
  intros Hm Hk w. destruct (Hm w) as [w1 H1]. destruct (Hk w1) as [w2 H2].
  exists w2. rewrite (bind_run_OK _ _ _ _ _ H1). exact H2.
Qed.

Lemma returns_ret : returns (ret tt).
Proof. intro w. exists w. reflexivity. Qed.

Lemma returns_on_canvas f : returns (on_canvas f).
Proof. intro w. eexists. reflexivity. Qed.

Lemma returns_emit o : returns (emit o).
Proof. intro w. eexists. reflexivity. Qed.

Lemma returns_when b m : returns m -> returns (when b m).
Proof. intro H. destruct b; [exact H | apply returns_ret]. Qed.

Lemma returns_for_each {A : Type} (body : A -> M unit) l :
  (forall a, returns (body a)) -> returns (for_each body l).
Proof.
  intro Hb. induction l as [|a l IH]; simpl;
    [apply returns_ret | apply returns_bind; [apply Hb | exact IH]].
Qed.

Lemma returns_save_and_show sv sh cl fn ff d ao :
  returns (save_and_show sv sh cl fn ff d ao).
Proof.
  unfold save_and_show. apply returns_bind.
  - apply returns_when. intro w. unfold bind, the_imgs_folder.
    destruct (String.eqb ff "svg"); eexists; reflexivity.
  - destruct sh; [| destruct cl];
      [apply returns_emit | apply returns_emit | apply returns_ret].
Qed.

Lemma returns_annotate b :
  returns (when b (nds <- G_nodes ;;
                   for_each (fun '(n, data) =>
                     add_artist (Annotation n (node_x data, node_y data))) nds)).
Proof.
  apply returns_when. intro w.
  rewrite (bind_run_OK G_nodes _ w (node (graph w)) w eq_refl).
  apply returns_for_each. intros [n data]. apply returns_on_canvas.
Qed.

(** With the endpoints of every edge among the nodes, every edge has a
    polyline. *)
Lemma edge_polylines_exist ug g w :
  graph w = g ->
  endpoints_known g ->
  exists lines,
    for_collect (fun '(u, v, _, data) => edge_polyline ug u v data)
      (edges_of g) w = (OK lines, w).
Proof.
  intros <- Hk. unfold endpoints_known in Hk.
  induction (edges_of (graph w)) as [|[[[u v] key] data] es IH]; simpl.
  - exists []. reflexivity.
  - destruct IH as [lines IH]; [intros; eapply Hk; right; eassumption|].
    destruct (Hk u v key data (or_introl eq_refl)) as (nu & nv & Hu & Hv).
    assert (exists line, edge_polyline ug u v data w = (OK line, w)) as [line Hl].
    { unfold edge_polyline. destruct (geometry data) as [geom|]; [destruct ug|];
        try (eexists; apply (node_to_node_found u v w nu nv Hu Hv)).
      eexists. reflexivity. }
    exists (line :: lines).
    rewrite (bind_run_OK _ _ _ _ _ Hl), (bind_run_OK _ _ _ _ _ IH). reflexivity.
Qed.

(** [plot_graph] returns when it is given a box with east <> west (and
    north <> south, if it must derive the figure width) and a graph whose
    edges join nodes of the graph. *)
Lemma plot_graph_returns a w north south east west :
  bbox a = Some (north, south, east, west) ->
  ~ east == west ->
  (fig_width a = None -> ~ north == south) ->
  endpoints_known (graph w) ->
  exists w', plot_graph a w = (OK tt, w').
Proof.
  intros Hb Hew Hns Hk. unfold plot_graph.
  rewrite (bind_run_OK G_node_values _ w _ w eq_refl).
  rewrite Hb. simpl get_bbox.
  rewrite (bind_run_OK (ret (north, south, east, west)) _ w _ w eq_refl).
  cbv beta iota.
  rewrite (bind_run_OK _ _ _ _ _
             (py_div_run (north - south) (east - west) w
                (difference_nonzero _ _ Hew))).
  assert (exists fw,
            match fig_width a with
            | Some fw => ret fw
            | None => py_div (fig_height a) ((north - south) / (east - west))
            end w = (OK fw, w)) as [fw Hfw].
  { destruct (fig_width a) as [given|].
    - exists given. reflexivity.
    - eexists. apply py_div_run, ratio_nonzero; auto. }
  rewrite (bind_run_OK _ _ _ _ _ Hfw).
  rewrite (bind_run_OK (subplots _ _) _ w tt _ eq_refl).
  match goal with
  | |- context [bind (set_facecolor ?c) _ ?w1] =>
      rewrite (bind_run_OK (set_facecolor c) _ w1 tt _ eq_refl)
  end.
  match goal with
  | |- context [bind G_edges _ ?w1] =>
      rewrite (bind_run_OK G_edges _ w1 (edges_of (graph w)) w1 eq_refl);
      destruct (edge_polylines_exist (use_geom a) (graph w) w1 eq_refl Hk)
        as [lines Hl]
  end.
  rewrite (bind_run_OK _ _ _ _ _ Hl).
  repeat (apply returns_bind; [apply returns_on_canvas|]).
  apply returns_bind.
  { apply returns_when.
    repeat (apply returns_bind; [apply returns_on_canvas|]).
    apply returns_on_canvas. }
  apply returns_bind; [apply returns_annotate | apply returns_save_and_show].
Qed.

(** ** What a successful plot_graph_route leaves on the figure *)

Lemma G_edge_OK u v w par w' :
  G_edge u v w = (OK par, w') ->
  w' = w /\ parallel (graph w) u v = Some (values par).
Proof.
  unfold G_edge, parallel. intro H.
  apply bind_OK in H as (g & w1 & Hg & H).
  cbv [the_graph] in Hg. inversion Hg; subst g w1; clear Hg.
  apply bind_OK in H as (nbrs & w2 & Hn & H).
  apply of_option_OK in Hn as [-> Hn]. apply of_option_OK in H as [-> H].
  rewrite Hn, H. auto.
Qed.

Lemma route_edge_OK u v w data w' :
  route_edge u v w = (OK data, w') ->
  w' = w /\
  exists first rest,
    parallel (graph w) u v = Some (first :: rest) /\
    data = min_from edge_length first rest.
Proof.
  unfold route_edge. intro H.
  apply bind_OK in H as (par & w1 & Hp & H).
  apply G_edge_OK in Hp as [-> Hp]. unfold py_min in H.
  destruct (values par) as [|first rest]; inversion H; subst.
  split; [reflexivity|]. exists first, rest. auto.
Qed.

Lemma markers_OK a o d w lats lons c w' :
  markers a o d w = (OK (lats, lons, c), w') ->
  w' = w /\ marked (graph w) a o d lats lons c.
Proof.
  unfold markers, marked.
  destruct (is_None (origin_point a) || is_None (destination_point a)); intro H.
  - apply bind_OK in H as (no & w1 & H1 & H). apply G_node_OK in H1 as [-> Ho].
    apply bind_OK in H as (nd & w1 & H1 & H). apply G_node_OK in H1 as [-> Hd].
    apply bind_OK in H as (no' & w1 & H1 & H). apply G_node_OK in H1 as [-> Ho'].
    apply bind_OK in H as (nd' & w1 & H1 & H). apply G_node_OK in H1 as [-> Hd'].
    rewrite Ho in Ho'; inversion Ho'; subst no'.
    rewrite Hd in Hd'; inversion Hd'; subst nd'.
    inversion H; subst. split; [reflexivity|]. exists no, nd. auto.
  - destruct (origin_point a) as [op|], (destination_point a) as [dp|];
      simpl in H; inversion H; subst.
    split; [reflexivity|]. exists op, dp. auto.
Qed.

Lemma plot_graph_route_OK route a w w' :
  plot_graph_route route a w = (OK tt, w') ->
  exists w1 o d lats lons c rlines,
    plot_graph (background_args (base a)) w = (OK tt, w1) /\
    hd_error route = Some o /\ hd_error (rev route) = Some d /\
    marked (graph w) a o d lats lons c /\
    Forall2 (route_line (graph w) (use_geom (base a))) (steps route) rlines /\
    view w' =
      (graph w, figure_size w1,
       drawn w1 ++
       [PathCollection lons lats (orig_dest_node_size a) c
          (orig_dest_node_alpha a) (node_edgecolor (base a)) 4%Z;
        LineCollection rlines (route_color a) (Width (route_linewidth a))
          (route_alpha a) 3%Z],
       limits w1).
Proof.
  intro H. unfold plot_graph_route in H.
  apply bind_OK in H as ([] & w1 & Hbg & H).
  pose proof (keeps_run _ _ _ _ _ (plot_graph_keeps_graph _) Hbg) as Hg.
  apply bind_OK in H as (o & w2 & Ho & H). apply of_option_OK in Ho as [-> Ho].
  apply bind_OK in H as (d & w2 & Hd & H). apply of_option_OK in Hd as [-> Hd].
  apply bind_OK in H as ([[lats lons] c] & w2 & Hm & H).
  apply markers_OK in Hm as [-> Hm]. rewrite Hg in Hm.
  assert (view w1 = (graph w, figure_size w1, drawn w1, limits w1)) as Hv
    by (unfold view; rewrite Hg; reflexivity).
  apply bind_OK in H as ([] & w2 & Hi & H).
  apply (add_artist_view _ _ _ _ _ _ _ Hv) in Hi. clear Hv.
  apply bind_OK in H as (rlines & w3 & Hl & H).
  apply for_collect_reads in Hl as [-> Hl];
    [| intros [u v]; apply keeps_reads; keep].
  apply bind_OK in H as ([] & w3 & Hj & H).
  apply (add_artist_view _ _ _ _ _ _ _ Hi) in Hj.
  apply (keeps_run view) in H; [| apply save_and_show_keeps_view].
  rewrite Hj, <- app_assoc in H.
  exists w1, o, d, lats, lons, c, rlines. repeat split; try assumption.
  assert (graph w2 = graph w) as Hg2 by (apply view_inv in Hi; tauto).
  clear - Hl Hg2. induction Hl as [|[u v] line ss ls Hx _ IH];
    constructor; [| exact IH].
  apply bind_OK in Hx as (data & wx & He & Hx).
  apply route_edge_OK in He as (-> & first & rest & Hp & ->).
  apply edge_polyline_OK in Hx as [_ Hx]. rewrite Hg2 in *.
  exists first, rest. auto.
Qed.

(** ** C5: the polyline of an edge *)

(** C5.  The polyline [plot_graph] and [plot_graph_route] compute for an
    edge is its [geometry] coordinate sequence, unchanged, when it has one
    and [use_geom] is true, and otherwise the two points of its source and
    target nodes ([drawn_as]); the edge layer [plot_graph] draws holds
    these polylines, one per edge in the order of [G.edges], and the route
    layer [plot_graph_route] draws holds one per route step, for the
    parallel edge chosen. *)
Theorem edge_polyline_is_geometry_or_straight
    (a : GraphArgs) (route : list Z) (ra : RouteArgs) (w w' : World) :
  (forall u v data line,
     edge_polyline (use_geom a) u v data w = (OK line, w) <->
     drawn_as (graph w) (use_geom a) u v data line) /\
  (plot_graph a w = (OK tt, w') ->
   exists lines others,
     drawn w' =
       LineCollection lines (edge_color a) (edge_linewidth a) (edge_alpha a) 2%Z
       :: others /\
     Forall2 (fun '(u, v, _, data) line =>
                drawn_as (graph w) (use_geom a) u v data line)
             (edges_of (graph w)) lines) /\
  (plot_graph_route route ra w = (OK tt, w') ->
   exists before marker lines,
     drawn w' =
       before ++
       [marker;
        LineCollection lines (route_color ra) (Width (route_linewidth ra))
          (route_alpha ra) 3%Z] /\
     Forall2 (route_line (graph w) (use_geom (base ra))) (steps route) lines).
Proof.
  split; [| split].
  - intros u v data line. split.
    + intro H. apply edge_polyline_OK in H as [_ H]. exact H.
    + intro H. apply (drawn_as_graph _ _ _ _ _ _ H). reflexivity.
  - intro H. apply plot_graph_OK in H
      as (north & south & east & west & fw & lines & _ & _ & _ & Hl & Hv).
    apply view_inv in Hv as (_ & _ & Hd & _).
    exists lines. eexists. split; [exact Hd | exact Hl].
  - intro H. apply plot_graph_route_OK in H
      as (w1 & o & d & lats & lons & c & rlines & _ & _ & _ & _ & Hl & Hv).
    apply view_inv in Hv as (_ & _ & Hd & _).
    exists (drawn w1). eexists. exists rlines. split; [exact Hd | exact Hl].
Qed.

(** On the divided road, the edge layer holds the curve of the first
    parallel edge and the straight line of the second. *)
Lemma edge_polyline_witness :
  exists others,
    drawn (after (plot_graph (boxed (1, 0, 2, 0))) (fresh divided)) =
      LineCollection [[(0, 0); (1, 1); (2, 0)]; [(0, 0); (2, 0)]]
        "#999999" (Width 1) 1 2%Z :: others.
Proof.
  destruct (edge_polyline_is_geometry_or_straight (boxed (1, 0, 2, 0)) [1; 2]%Z
              (route_boxed (1, 0, 2, 0)) (fresh divided)
              (after (plot_graph (boxed (1, 0, 2, 0))) (fresh divided)))
    as (_ & H & _).
  destruct (H ltac:(vm_compute; reflexivity)) as (lines & others & Hd & HF).
  exists others. rewrite Hd. f_equal. f_equal.
  vm_compute in Hd. inversion Hd. reflexivity.
Defined.

(** ** C6: the z-order of the layers *)

Lemma annotations_are_annotations b nds :
  Forall (fun r => exists n p, r = Annotation n p) (annotations b nds).
Proof.
  unfold annotations. destruct b; [| constructor].
  induction nds as [|[n data] nds IH]; simpl; constructor; [| exact IH].
  eexists. eexists. reflexivity.
Qed.

(** C6.  When [plot_graph_route] returns, the figure holds, in this
    order: the edge lines with z-order 2, the nodes with z-order
    [node_zorder], the node annotations if any, the origin and destination
    markers with z-order 4 and the route lines with z-order 3; and
    [node_zorder] defaults to 1, below the edges. *)
Theorem route_rendering_zorders (route : list Z) (a : RouteArgs) (w w' : World) :
  plot_graph_route route a w = (OK tt, w') ->
  (exists lines xs ys notes lons lats c rlines,
     drawn w' =
       [LineCollection lines (edge_color (base a)) (edge_linewidth (base a))
          (edge_alpha (base a)) 2%Z;
        PathCollection xs ys (node_size (base a)) (node_color (base a))
          (node_alpha (base a)) (node_edgecolor (base a)) (node_zorder (base a))]
       ++ notes ++
       [PathCollection lons lats (orig_dest_node_size a) c
          (orig_dest_node_alpha a) (node_edgecolor (base a)) 4%Z;
        LineCollection rlines (route_color a) (Width (route_linewidth a))
          (route_alpha a) 3%Z] /\
     Forall (fun r => exists n p, r = Annotation n p) notes) /\
  node_zorder (base plot_graph_route_defaults) = 1%Z /\
  node_zorder plot_graph_defaults = 1%Z /\
  (node_zorder (base plot_graph_route_defaults) < 2)%Z.
Proof.
  intro H. split; [| repeat split; reflexivity].
  apply plot_graph_route_OK in H
    as (w1 & o & d & lats & lons & c & rlines & Hbg & _ & _ & _ & _ & Hv).
  apply plot_graph_OK in Hbg
    as (north & south & east & west & fw & lines & _ & _ & _ & _ & Hv1).
  apply view_inv in Hv as (_ & _ & Hd & _).
  apply view_inv in Hv1 as (_ & _ & Hd1 & _).
  rewrite Hd1 in Hd. simpl in Hd.
  do 8 eexists. split; [exact Hd | apply annotations_are_annotations].
Qed.

(** The route around two sides of the unit square, drawn with the
    defaults. *)
Lemma route_rendering_zorders_witness :
  exists lines xs ys notes lons lats c rlines,
    drawn (after (plot_graph_route [0; 1; 2]%Z plot_graph_route_defaults)
             (fresh square)) =
      [LineCollection lines "#999999" (Width 1) 1 2%Z;
       PathCollection xs ys 15 "#999999" 1 "none" 1%Z]
      ++ notes ++
      [PathCollection lons lats 100 c (1 # 2) "none" 4%Z;
       LineCollection rlines "r" (Width 4) (1 # 2) 3%Z] /\
    Forall (fun r => exists n p, r = Annotation n p) notes.
Proof.
  exact (proj1 (route_rendering_zorders [0; 1; 2]%Z plot_graph_route_defaults
                  (fresh square)
                  (after (plot_graph_route [0; 1; 2]%Z plot_graph_route_defaults)
                     (fresh square))
                  ltac:(vm_compute; reflexivity))).
Defined.

(** ** C10: one override point alone *)





(** The end-to-end example of the spec: on the unit square with
    [use_geom] off, the route 0, 1, 2 is drawn as the two segments
    (0,0)-(0,1) and (0,1)-(1,1), with the markers at (0,0) and (1,1). *)
Example square_route_rendering :
  exists background,
    drawn (after (plot_graph_route [0; 1; 2]%Z
                    (mkRouteArgs
                       (mkGraphArgs None 6 None (2 # 100) true "w" true false
                          true "png" "temp" 300%Z false "#999999" 15 1 "none"
                          1%Z "#999999" (Width 1) 1 false)
                       None None "r" 4 (1 # 2) (1 # 2) 100 "r" "b"))
             (fresh square))
    = background ++
      [PathCollection [0; 1] [0; 1] 100 "r" (1 # 2) "none" 4%Z;
       LineCollection [[(0, 0); (0, 1)]; [(0, 1); (1, 1)]] "r" (Width 4)
         (1 # 2) 3%Z].
Proof. eexists [_; _]. vm_compute. reflexivity. Qed.

(** ** Edges of the graph and lookups in the adjacency *)

Lemma dict_get_In {V : Type} (k : Z) (d : dict V) (v : V) :
  dict_get k d = Some v -> In (k, v) d.
Proof.
  induction d as [|[k' v'] d IH]; simpl; [discriminate|].
  destruct (Z.eqb_spec k k') as [->|_]; intro H.
  - inversion H; subst. left. reflexivity.
  - right. apply IH, H.
Qed.

Lemma edges_of_In g u v key data nbrs par :
  In (u, nbrs) (edge g) -> In (v, par) nbrs -> In (key, data) par ->
  In (u, v, key, data) (edges_of g).
Proof.
  intros Hu Hv Hk. unfold edges_of.
  apply in_flat_map. exists (u, nbrs). split; [exact Hu|].
  apply in_flat_map. exists (v, par). split; [exact Hv|].
  apply in_map_iff. exists (key, data). split; [reflexivity | exact Hk].
Qed.

Lemma has_edge_In g u v key data :
  In (u, v, key, data) (edges_of g) -> has_edge g u v = true.
Proof.
  intro H. unfold has_edge. apply existsb_exists.
  exists (u, v, key, data). split; [exact H|].
  rewrite !Z.eqb_refl. reflexivity.
Qed.

Lemma parallel_has_edge g u v first rest :
  parallel g u v = Some (first :: rest) -> has_edge g u v = true.
Proof.
  unfold parallel. destruct (dict_get u (edge g)) as [nbrs|] eqn:Hu; [|discriminate].
  destruct (dict_get v nbrs) as [par|] eqn:Hv; [|discriminate].
  simpl. intro H. inversion H as [Hp].
  destruct par as [|[key data] par']; [discriminate|].
  apply (has_edge_In g u v key data).
  apply (edges_of_In g u v key data nbrs ((key, data) :: par')).
  - apply dict_get_In, Hu.
  - apply dict_get_In, Hv.
  - left. reflexivity.
Qed.

Lemma parallel_nonempty g u v l :
  adjacency_nonempty g = true -> parallel g u v = Some l -> l <> [].
Proof.
  unfold adjacency_nonempty, parallel. intros Hne.
  destruct (dict_get u (edge g)) as [nbrs|] eqn:Hu; [|discriminate].
  destruct (dict_get v nbrs) as [par|] eqn:Hv; [|discriminate].
  simpl. intro H. inversion H; subst l.
  apply dict_get_In in Hu. apply dict_get_In in Hv.
  rewrite forallb_forall in Hne. specialize (Hne _ Hu). simpl in Hne.
  rewrite forallb_forall in Hne. specialize (Hne _ Hv). simpl in Hne.
  destruct par; [discriminate Hne | discriminate].
Qed.

Lemma no_edge_no_adjacency g u v :
  has_edge g u v = false -> adjacency_nonempty g = true -> parallel g u v = None.
Proof.
  intros Hno Hne. destruct (parallel g u v) as [[|first rest]|] eqn:Hp.
  - exfalso. apply (parallel_nonempty g u v [] Hne Hp). reflexivity.
  - apply parallel_has_edge in Hp. congruence.
  - reflexivity.
Qed.

(** ** How errors travel *)

Lemma bind_Raise {A B : Type} (m : M A) (k : A -> M B) w e w' :
  bind m k w = (Raise e, w') ->
  m w = (Raise e, w') \/ exists a w1, m w = (OK a, w1) /\ k a w1 = (Raise e, w').
Proof.
  unfold bind. destruct (m w) as [[a|e'] w1]; intro H.
  - right. exists a, w1. auto.
  - left. inversion H. reflexivity.
Qed.

Lemma of_option_Raise {A : Type} e0 (o : option A) w e w' :
  of_option e0 o w = (Raise e, w') -> e = e0 /\ w' = w /\ o = None.
Proof. destruct o; intro H; inversion H; auto. Qed.

(** A loop of reads over a list that holds an item on which the body
    raises, raises; and what it raises is what the body raised on some
    item. *)
Lemma for_collect_raises {A B : Type} (body : A -> M B) (P : exn -> Prop) l w :
  (forall a, reads (body a)) ->
  (forall a e w', In a l -> body a w = (Raise e, w') -> P e) ->
  (exists a e w', In a l /\ body a w = (Raise e, w')) ->
  exists e, for_collect body l w = (Raise e, w) /\ P e.
Proof.
  intros Hr. induction l as [|x l IH]; intros HP (a & e & w' & Hin & Ha).
  - destruct Hin.
  - simpl. destruct (body x w) as [[b|ex] wx] eqn:Hx.
    + assert (wx = w) by (eapply reads_same; [apply Hr | exact Hx]). subst wx.
      destruct Hin as [-> | Hin]; [congruence|].
      destruct IH as (e1 & He1 & HP1).
      * intros a0 e0 w0 Hin0. apply HP. right. exact Hin0.
      * exists a, e, w'. auto.
      * exists e1. rewrite (bind_run_OK _ _ _ _ _ Hx).
        rewrite (bind_run_Raise _ _ _ _ _ He1). auto.
    + assert (wx = w) by (eapply reads_same; [apply Hr | exact Hx]). subst wx.
      exists ex. rewrite (bind_run_Raise _ _ _ _ _ Hx). split; [reflexivity|].
      apply (HP x ex w); [left; reflexivity | exact Hx].
Qed.

Lemma G_node_Raise u w e w' : G_node u w = (Raise e, w') -> e = KeyError.
Proof.
  unfold G_node. intro H. apply bind_Raise in H as [H | (g & w1 & _ & H)].
  - discriminate H.
  - apply of_option_Raise in H. tauto.
Qed.

Lemma node_to_node_Raise u v w e w' :
  node_to_node u v w = (Raise e, w') -> e = KeyError.
Proof.
  unfold node_to_node. intro H.
  repeat (apply bind_Raise in H as [H | (? & ? & _ & H)];
          [apply G_node_Raise in H; exact H |]).
  discriminate H.
Qed.

Lemma edge_polyline_Raise ug u v data w e w' :
  edge_polyline ug u v data w = (Raise e, w') -> e = KeyError.
Proof.
  unfold edge_polyline. destruct (geometry data); [destruct ug|]; simpl;
    try apply node_to_node_Raise.
  discriminate.
Qed.

Lemma markers_Raise a o d w e w' :
  markers a o d w = (Raise e, w') -> e = KeyError.
Proof.
  unfold markers. destruct (origin_point a), (destination_point a); simpl;
    intro H;
    repeat (apply bind_Raise in H as [H | (? & ? & _ & H)];
            [apply G_node_Raise in H; exact H |]);
    discriminate H.
Qed.

Lemma G_edge_run u v w :
  G_edge u v w =
  match dict_get u (edge (graph w)) with
  | Some nbrs =>
      match dict_get v nbrs with
      | Some par => (OK par, w)
      | None => (Raise KeyError, w)
      end
  | None => (Raise KeyError, w)
  end.
Proof.
  unfold G_edge, the_graph, bind, of_option.
  destruct (dict_get u (edge (graph w))) as [nbrs|]; simpl; [|reflexivity].
  destruct (dict_get v nbrs); reflexivity.
Qed.

(** The lookup [G.edge[u][v]] of a pair with no adjacency entry raises
    [KeyError]. *)
Lemma route_edge_missing u v w :
  parallel (graph w) u v = None -> route_edge u v w = (Raise KeyError, w).
Proof.
  unfold parallel, route_edge. intro H.
  apply bind_run_Raise. rewrite G_edge_run.
  destruct (dict_get u (edge (graph w))) as [nbrs|]; [|reflexivity].
  destruct (dict_get v nbrs); [discriminate H | reflexivity].
Qed.

Lemma route_edge_Raise u v w e w' :
  adjacency_nonempty (graph w) = true ->
  route_edge u v w = (Raise e, w') -> e = KeyError.
Proof.
  intros Hne H. unfold route_edge in H.
  apply bind_Raise in H as [H | (par & w1 & Hp & H)].
  - rewrite G_edge_run in H.
    destruct (dict_get u (edge (graph w))) as [nbrs|]; [|inversion H; reflexivity].
    destruct (dict_get v nbrs); inversion H; reflexivity.
  - apply G_edge_OK in Hp as [-> Hp].
    apply (parallel_nonempty _ _ _ _ Hne) in Hp.
    unfold py_min in H. destruct (values par); [congruence | discriminate H].
Qed.

Lemma for_collect_errors {A B : Type} (body : A -> M B) (P : exn -> Prop) l w e w' :
  (forall a w0 e0 w1, body a w0 = (Raise e0, w1) -> P e0) ->
  for_collect body l w = (Raise e, w') -> P e.
Proof.
  intro HP. revert w. induction l as [|a l IH]; simpl; intros w H.
  - discriminate H.
  - apply bind_Raise in H as [H | (b & w1 & _ & H)]; [eapply HP, H|].
    apply bind_Raise in H as [H | (bs & w2 & _ & H)]; [eapply IH, H|].
    discriminate H.
Qed.

Lemma Forall2_In_l {A B : Type} (P : A -> B -> Prop) l l' x :
  Forall2 P l l' -> In x l -> exists y, P x y.
Proof.
  induction 1 as [|a b l l' Hab _ IH]; intros Hin; [destruct Hin|].
  destruct Hin as [-> | Hin]; [exists b; exact Hab | apply IH, Hin].
Qed.

Lemma steps_nonempty route p :
  In p (steps route) ->
  exists o d, hd_error route = Some o /\ hd_error (rev route) = Some d.
Proof.
  unfold steps. destruct route as [|o rest]; [intros []|]. intros _.
  exists o. destruct (rev (o :: rest)) as [|d tl] eqn:E.
  - apply (f_equal (@List.length Z)) in E. rewrite length_rev in E. discriminate E.
  - exists d. auto.
Qed.

Lemma annotations_not_route_layer b nds :
  forallb (fun r => negb (is_route_layer r)) (annotations b nds) = true.
Proof.
  unfold annotations. destruct b; [|reflexivity].
  induction nds as [|[n data] nds IH]; simpl; [reflexivity | exact IH].
Qed.

(** After the background graph is drawn, no artist is a route layer. *)
Lemma background_has_no_route_layer a w w1 :
  plot_graph a w = (OK tt, w1) ->
  forallb (fun r => negb (is_route_layer r)) (drawn w1) = true.
Proof.
  intro H. apply plot_graph_OK in H
    as (north & south & east & west & fw & lines & _ & _ & _ & _ & Hv).
  apply view_inv in Hv as (_ & _ & -> & _). simpl.
  apply annotations_not_route_layer.
Qed.

(** ** The rows of the edge table *)

Lemma graph_to_gdfs_rows w rows w' :
  graph_to_gdfs w = (OK rows, w') ->
  w' = w /\
  Forall (fun r => In (row_u r, row_v r, row_key r, row_data r)
                      (edges_of (graph w))) rows.
Proof.
  unfold graph_to_gdfs. intro H.
  apply bind_OK in H as (es & w1 & He & H).
  cbv [G_edges the_graph bind ret] in He. inversion He; subst es w1; clear He.
  apply for_collect_reads in H as [-> H].
  2:{ intros [[[u v] key] data]. apply keeps_reads.
      destruct (geometry data); keep. }
  split; [reflexivity|].
  induction H as [|[[[u v] key] data] r es rows Hr _ IH]; constructor.
  - left. destruct (geometry data).
    + inversion Hr; reflexivity.
    + apply bind_OK in Hr as (pu & w1 & _ & Hr).
      apply bind_OK in Hr as (pv & w2 & _ & Hr). inversion Hr; reflexivity.
  - eapply Forall_impl; [| exact IH]. intros r0 Hin. right. exact Hin.
Qed.

Lemma graph_to_gdfs_Raise w e w' :
  graph_to_gdfs w = (Raise e, w') -> e = KeyError.
Proof.
  unfold graph_to_gdfs. intro H.
  apply bind_Raise in H as [H | (es & w1 & _ & H)]; [discriminate H|].
  apply (for_collect_errors _ (fun e => e = KeyError)) in H; [exact H|].
  intros [[[u v] key] data] w0 e0 w2. destruct (geometry data); [discriminate|].
  intro Hr.
  repeat (apply bind_Raise in Hr as [Hr | (? & ? & _ & Hr)];
          [apply G_node_Raise in Hr; exact Hr |]).
  discriminate Hr.
Qed.

Lemma matching_index_rows u v rows i :
  In i (matching_index u v rows) ->
  exists r, In r rows /\ row_u r = u /\ row_v r = v.
Proof.
  unfold matching_index, labelled. intro H.
  apply in_map_iff in H as ([j r] & _ & H).
  apply filter_In in H as [Hin Hm].
  apply in_combine_r in Hin. apply andb_prop in Hm as [Hu Hv].
  apply Z.eqb_eq in Hu. apply Z.eqb_eq in Hv. exists r. auto.
Qed.

Lemma no_edge_no_row w rows w' u v :
  graph_to_gdfs w = (OK rows, w') ->
  has_edge (graph w) u v = false ->
  matching_index u v rows = [].
Proof.
  intros Hrows Hno. apply graph_to_gdfs_rows in Hrows as [_ Hrows].
  destruct (matching_index u v rows) as [|i rest] eqn:E; [reflexivity|].
  exfalso.
  destruct (matching_index_rows u v rows i) as (r & Hin & <- & <-).
  { rewrite E. left. reflexivity. }
  rewrite Forall_forall in Hrows. apply Hrows in Hin.
  apply has_edge_In in Hin. congruence.
Qed.

(** ** When plot_graph_route returns *)

Lemma parallel_In g u v l data :
  parallel g u v = Some l -> In data l ->
  exists key, In (u, v, key, data) (edges_of g).
Proof.
  unfold parallel. destruct (dict_get u (edge g)) as [nbrs|] eqn:Hu; [|discriminate].
  destruct (dict_get v nbrs) as [par|] eqn:Hv; [|discriminate].
  simpl. intros H Hin. inversion H; subst l. unfold values in Hin.
  apply in_map_iff in Hin as ([key d] & Hd & Hin). simpl in Hd. subst d.
  exists key. apply (edges_of_In g u v key data nbrs par);
    [apply dict_get_In, Hu | apply dict_get_In, Hv | exact Hin].
Qed.

Lemma min_from_In {A : Type} (key : A -> Q) (best : A) (l : list A) :
  In (min_from key best l) (best :: l).
Proof.
  revert best. induction l as [|a l IH]; intro best; simpl; [left; reflexivity|].
  destruct (Qltb (key a) (key best)).
  - right. apply IH.
  - destruct (IH best) as [H | H]; [left; exact H | right; right; exact H].
Qed.

Lemma route_edge_found u v w first rest :
  parallel (graph w) u v = Some (first :: rest) ->
  route_edge u v w = (OK (min_from edge_length first rest), w).
Proof.
  unfold parallel, route_edge. intro H.
  destruct (dict_get u (edge (graph w))) as [nbrs|] eqn:Hu; [|discriminate].
  destruct (dict_get v nbrs) as [par|] eqn:Hv; [|discriminate].
  simpl in H. inversion H as [Hp].
  assert (G_edge u v w = (OK par, w)) as Hg by (rewrite G_edge_run, Hu, Hv; reflexivity).
  rewrite (bind_run_OK _ _ _ _ _ Hg). unfold py_min. rewrite Hp. reflexivity.
Qed.

(** With an edge for every step and the endpoints of every edge among
    the nodes, every step of the route has a polyline. *)
Lemma route_polylines_exist ug g w (l : list (Z * Z)) :
  graph w = g ->
  endpoints_known g ->
  Forall (fun '(u, v) => exists first rest, parallel g u v = Some (first :: rest)) l ->
  exists lines,
    for_collect (fun '(u, v) =>
      data <- route_edge u v ;; edge_polyline ug u v data) l w = (OK lines, w).
Proof.
  intros Hg Hk. induction 1 as [|[u v] l (first & rest & Hp) _ [lines IH]]; simpl.
  - exists []. reflexivity.
  - subst g. pose proof (route_edge_found u v w first rest Hp) as He.
    destruct (parallel_In _ _ _ _ _ Hp (min_from_In edge_length first rest))
      as [key Hin].
    destruct (Hk u v key _ Hin) as (nu & nv & Hu & Hv).
    assert (exists line,
              edge_polyline ug u v (min_from edge_length first rest) w
              = (OK line, w)) as [line Hl].
    { unfold edge_polyline.
      destruct (geometry (min_from edge_length first rest)) as [geom|];
        [destruct ug|];
        try (eexists; apply (node_to_node_found u v w nu nv Hu Hv)).
      eexists. reflexivity. }
    exists (line :: lines). unfold bind at 1. unfold bind at 1.
    rewrite He, Hl. rewrite (bind_run_OK _ _ _ _ _ IH). reflexivity.
Qed.

(** [plot_graph_route] returns when [plot_graph] does on the same
    arguments, the route is not empty, its first and last node are nodes
    of the graph, and every step of it has an edge. *)
Lemma plot_graph_route_returns route a w north south east west o d no nd :
  bbox (base a) = Some (north, south, east, west) ->
  ~ east == west ->
  (fig_width (base a) = None -> ~ north == south) ->
  endpoints_known (graph w) ->
  hd_error route = Some o -> hd_error (rev route) = Some d ->
  dict_get o (node (graph w)) = Some no ->
  dict_get d (node (graph w)) = Some nd ->
  Forall (fun '(u, v) =>
            exists first rest, parallel (graph w) u v = Some (first :: rest))
         (steps route) ->
  exists w', plot_graph_route route a w = (OK tt, w').
Proof.
  intros Hb Hew Hns Hk Ho Hd Hno Hnd Hsteps.
  destruct (plot_graph_returns (background_args (base a)) w north south east west
              Hb Hew Hns Hk) as [w1 Hbg].
  pose proof (keeps_run _ _ _ _ _ (plot_graph_keeps_graph _) Hbg) as Hg.
  unfold plot_graph_route. rewrite (bind_run_OK _ _ _ _ _ Hbg).
  unfold first_of, last_of. rewrite Ho, Hd.
  rewrite (bind_run_OK (of_option IndexError (Some o)) _ w1 o w1 eq_refl).
  rewrite (bind_run_OK (of_option IndexError (Some d)) _ w1 d w1 eq_refl).
  assert (exists m, markers a o d w1 = (OK m, w1)) as [[[lats lons] c] Hm].
  { unfold markers.
    destruct (is_None (origin_point a) || is_None (destination_point a)) eqn:E.
    - rewrite <- Hg in Hno, Hnd.
      rewrite (bind_run_OK _ _ _ _ _ (G_node_found o w1 no Hno)).
      rewrite (bind_run_OK _ _ _ _ _ (G_node_found d w1 nd Hnd)).
      rewrite (bind_run_OK _ _ _ _ _ (G_node_found o w1 no Hno)).
      rewrite (bind_run_OK _ _ _ _ _ (G_node_found d w1 nd Hnd)).
      eexists. reflexivity.
    - destruct (origin_point a), (destination_point a); try discriminate E.
      eexists. reflexivity. }
  rewrite (bind_run_OK _ _ _ _ _ Hm).
  match goal with
  | |- context [bind (add_artist ?r) _ w1] =>
      rewrite (bind_run_OK (add_artist r) _ w1 tt _ eq_refl)
  end.
  match goal with
  | |- context [bind (for_collect _ _) _ ?w2] =>
      destruct (route_polylines_exist (use_geom (base a)) (graph w) w2
                  (steps route) Hg Hk Hsteps) as [lines Hl]
  end.
  rewrite (bind_run_OK _ _ _ _ _ Hl).
  apply returns_bind; [apply returns_on_canvas | apply returns_save_and_show].
Qed.

(** ** C7: a route step without an edge *)

Lemma route_step_raises a w u v :
  has_edge (graph w) u v = false ->
  adjacency_nonempty (graph w) = true ->
  (data <- route_edge u v ;; edge_polyline (use_geom (base a)) u v data) w
  = (Raise KeyError, w).
Proof.
  intros Hno Hne. apply bind_run_Raise, route_edge_missing.
  apply no_edge_no_adjacency; assumption.
Qed.

Lemma route_layer_raises route a w u v :
  In (u, v) (steps route) ->
  has_edge (graph w) u v = false ->
  adjacency_nonempty (graph w) = true ->
  for_collect (fun '(u, v) =>
    data <- route_edge u v ;; edge_polyline (use_geom (base a)) u v data)
    (steps route) w = (Raise KeyError, w).
Proof.
  intros Hin Hno Hne.
  destruct (for_collect_raises
              (fun '(u, v) =>
                 data <- route_edge u v ;;
                 edge_polyline (use_geom (base a)) u v data)
              (fun e => e = KeyError) (steps route) w) as (e & He & ->).
  - intros [u0 v0]. apply keeps_reads. keep.
  - intros [u0 v0] e w' _ H.
    apply bind_Raise in H as [H | (data & w1 & Hd & H)].
    + apply (route_edge_Raise _ _ _ _ _ Hne H).
    + apply (edge_polyline_Raise _ _ _ _ _ _ _ H).
  - exists (u, v), KeyError, w. split; [exact Hin|].
    apply route_step_raises; assumption.
  - exact He.
Qed.

Lemma plot_graph_route_missing_edge route a w w1 u v :
  In (u, v) (steps route) ->
  has_edge (graph w) u v = false ->
  adjacency_nonempty (graph w) = true ->
  plot_graph (background_args (base a)) w = (OK tt, w1) ->
  exists w2,
    plot_graph_route route a w = (Raise KeyError, w2) /\
    forallb (fun r => negb (is_route_layer r)) (drawn w2) = true.
Proof.
  intros Hin Hno Hne Hbg.
  pose proof (keeps_run _ _ _ _ _ (plot_graph_keeps_graph _) Hbg) as Hg.
  pose proof (background_has_no_route_layer _ _ _ Hbg) as Hbare.
  destruct (steps_nonempty route (u, v) Hin) as (o & d & Ho & Hd).
  unfold plot_graph_route. rewrite (bind_run_OK _ _ _ _ _ Hbg).
  unfold first_of, last_of. rewrite Ho, Hd.
  rewrite (bind_run_OK (of_option IndexError (Some o)) _ w1 o w1 eq_refl).
  rewrite (bind_run_OK (of_option IndexError (Some d)) _ w1 d w1 eq_refl).
  destruct (markers a o d w1) as [[[[lats lons] c]|e] w2] eqn:Hm.
  - apply markers_OK in Hm as Hm'. destruct Hm' as [-> _].
    rewrite (bind_run_OK _ _ _ _ _ Hm).
    match goal with
    | |- context [bind (add_artist ?r) _ w1] =>
        rewrite (bind_run_OK (add_artist r) _ w1 tt _ eq_refl)
    end.
    match goal with
    | |- context [bind (for_collect _ _) _ ?w3] =>
        rewrite (bind_run_Raise _ _ w3 KeyError w3)
    end.
    + eexists. split; [reflexivity|].
      unfold drawn in *. simpl. rewrite forallb_app, Hbare. reflexivity.
    + apply (route_layer_raises route a _ u v); simpl; try rewrite Hg;
        assumption.
  - rewrite (bind_run_Raise _ _ _ _ _ Hm).
    pose proof (keeps_run (fun x => x) _ _ _ _ (keeps_markers _ a o d) Hm) as Hw.
    simpl in Hw. subst w2. apply markers_Raise in Hm as ->.
    exists w1. auto.
Qed.

Lemma plot_graph_route_needs_edges route a w w' u v :
  In (u, v) (steps route) ->
  has_edge (graph w) u v = false ->
  plot_graph_route route a w <> (OK tt, w').
Proof.
  intros Hin Hno H. apply plot_graph_route_OK in H
    as (w1 & o & d & lats & lons & c & rlines & _ & _ & _ & _ & HF & _).
  destruct (Forall2_In_l _ _ _ _ HF Hin) as (line & first & rest & Hp & _).
  apply parallel_has_edge in Hp. simpl in Hp. congruence.
Qed.

Lemma route_rows_missing_edge route w u v :
  In (u, v) (steps route) ->
  has_edge (graph w) u v = false ->
  exists e, route_rows route w = (Raise e, w) /\ LookupError e = true.
Proof.
  intros Hin Hno. unfold route_rows.
  destruct (graph_to_gdfs w) as [[rows|e] w1] eqn:Hrows.
  - apply graph_to_gdfs_rows in Hrows as Hw. destruct Hw as [-> _].
    rewrite (bind_run_OK _ _ _ _ _ Hrows).
    destruct (for_collect_raises
                (fun '(u, v) =>
                   of_option IndexError (hd_error (matching_index u v rows)))
                (fun e => e = IndexError) (steps route) w) as (e & He & ->).
    + intros [u0 v0]. apply keeps_reads. keep.
    + intros [u0 v0] e w' _ H. apply of_option_Raise in H. tauto.
    + exists (u, v), IndexError, w. split; [exact Hin|].
      rewrite (no_edge_no_row _ _ _ _ _ Hrows Hno). reflexivity.
    + exists IndexError. rewrite (bind_run_Raise _ _ _ _ _ He). auto.
  - pose proof (keeps_run (fun x => x) _ _ _ _ (keeps_graph_to_gdfs _) Hrows) as Hw.
    simpl in Hw. subst w1. apply graph_to_gdfs_Raise in Hrows as He. subst e.
    exists KeyError. rewrite (bind_run_Raise _ _ _ _ _ Hrows). auto.
Qed.

Lemma need_folium_run w :
  need_folium w = if folium w then (OK tt, w) else (Raise ImportError, w).
Proof. unfold need_folium, the_folium, bind. destruct (folium w); reflexivity. Qed.

(** C7.  If some consecutive pair (u, v) of the route has no edge in the
    graph, neither route rendering returns: each raises.  Once
    [plot_graph_route] has drawn the background graph (on a graph whose
    adjacency entries are non-empty, as networkx keeps them) what it
    raises is a lookup error and the figure holds no route layer; with
    folium installed, what [plot_route_folium] raises is a lookup error
    and no map is returned. *)
Theorem missing_route_edge_raises
    (route : list Z) (a : RouteArgs) (u v : Z) (w : World)
    (route_map : option FoliumMap) (popup_attribute : option string)
    (tiles : string) (zoom : Z) (fit_bounds : bool) (route_color : string)
    (route_width route_opacity : Q) :
  In (u, v) (steps route) ->
  has_edge (graph w) u v = false ->
  (exists e,
     fst (plot_graph_route route a w) = Raise e /\
     (forall w1,
        plot_graph (background_args (base a)) w = (OK tt, w1) ->
        adjacency_nonempty (graph w) = true ->
        LookupError e = true /\
        forallb (fun r => negb (is_route_layer r))
          (drawn (after (plot_graph_route route a) w)) = true)) /\
  (exists e,
     fst (plot_route_folium route route_map popup_attribute tiles zoom
            fit_bounds route_color route_width route_opacity w) = Raise e /\
     (folium w = true -> LookupError e = true)).
Proof.
  intros Hin Hno. split.
  - destruct (plot_graph_route route a w) as [[[]|e] w2] eqn:Hrun.
    + exfalso. apply (plot_graph_route_needs_edges _ _ _ _ _ _ Hin Hno Hrun).
    + exists e. split; [reflexivity|]. intros w1 Hbg Hne.
      destruct (plot_graph_route_missing_edge _ a _ _ _ _ Hin Hno Hne Hbg)
        as (w3 & Hrun' & Hbare).
      unfold after. rewrite Hrun in *. inversion Hrun'; subst. auto.
  - unfold plot_route_folium. pose proof (need_folium_run w) as Hf.
    destruct (folium w).
    + destruct (route_rows_missing_edge route w u v Hin Hno) as (e & He & Hl).
      exists e. rewrite (bind_run_OK _ _ _ _ _ Hf).
      rewrite (bind_run_Raise _ _ _ _ _ He). auto.
    + exists ImportError. rewrite (bind_run_Raise _ _ _ _ _ Hf).
      split; [reflexivity | discriminate].
Qed.

(** On the unit square the route 0, 2 crosses the diagonal, where there
    is no edge. *)
Lemma missing_route_edge_witness :
  (exists e,
     fst (plot_graph_route [0; 2]%Z (route_boxed (1, 0, 1, 0)) (fresh square))
       = Raise e /\
     (forall w1,
        plot_graph (background_args (base (route_boxed (1, 0, 1, 0))))
          (fresh square) = (OK tt, w1) ->
        adjacency_nonempty (graph (fresh square)) = true ->
        LookupError e = true /\
        forallb (fun r => negb (is_route_layer r))
          (drawn (after (plot_graph_route [0; 2]%Z (route_boxed (1, 0, 1, 0)))
                    (fresh square))) = true)) /\
  (exists e,
     fst (plot_route_folium [0; 2]%Z None None "cartodbpositron" 1%Z true
            "#cc0000" 5 1 (fresh square)) = Raise e /\
     (folium (fresh square) = true -> LookupError e = true)).
Proof.
  apply (missing_route_edge_raises [0; 2]%Z (route_boxed (1, 0, 1, 0)) 0%Z 2%Z
           (fresh square)).
  - left. reflexivity.
  - reflexivity.
Defined.

(** ** C1: the parallel edge of a route step *)

Lemma Qltb_lt (p q : Q) : Qltb p q = true <-> p < q.
Proof.
  unfold Qltb. rewrite negb_true_iff. split; intro H.
  - apply Qnot_le_lt. intro Hle. apply Qle_bool_iff in Hle. congruence.
  - destruct (Qle_bool q p) eqn:E; [|reflexivity].
    apply Qle_bool_iff in E. exfalso. apply (Qlt_not_le _ _ H E).
Qed.

Lemma Qltb_ge (p q : Q) : Qltb p q = false <-> q <= p.
Proof.
  unfold Qltb. rewrite negb_false_iff. apply Qle_bool_iff.
Qed.

(** [min_from] scans left to right: its result is strictly below, in
    key, everything before it and at most equal to everything after. *)
Lemma min_from_scan {A : Type} (key : A -> Q) (l : list A) :
  forall (seen later : list A) (best : A),
    Forall (fun x => key best < key x) seen ->
    Forall (fun x => key best <= key x) later ->
    exists pre post,
      seen ++ best :: later ++ l = pre ++ min_from key best l :: post /\
      Forall (fun x => key (min_from key best l) < key x) pre /\
      Forall (fun x => key (min_from key best l) <= key x) post.
Proof.
  induction l as [|a l IH]; intros seen later best Hs Hl; simpl.
  - exists seen, later. rewrite app_nil_r. auto.
  - destruct (Qltb (key a) (key best)) eqn:E.
    + apply Qltb_lt in E.
      destruct (IH (seen ++ best :: later) [] a) as (pre & post & Heq & Hpre & Hpost).
      * apply Forall_app. split.
        -- eapply Forall_impl; [| exact Hs]. intros x Hx. simpl in Hx.
           apply (Qlt_trans _ _ _ E Hx).
        -- constructor; [exact E|].
           eapply Forall_impl; [| exact Hl]. intros x Hx. simpl in Hx.
           apply (Qlt_le_trans _ _ _ E Hx).
      * constructor.
      * exists pre, post. simpl in Heq. rewrite <- Heq, <- app_assoc. auto.
    + apply Qltb_ge in E.
      destruct (IH seen (later ++ [a]) best Hs) as (pre & post & Heq & Hpre & Hpost).
      * apply Forall_app. split; [exact Hl | constructor; [exact E | constructor]].
      * exists pre, post. rewrite <- Heq, <- app_assoc. auto.
Qed.

(** What [plot_graph_route] does for a route step: of the parallel
    edges from [u] to [v] it takes one of minimal length, and of several
    of minimal length the first. *)
Lemma route_edge_is_first_shortest u v w data w' :
  route_edge u v w = (OK data, w') ->
  exists pars pre post,
    parallel (graph w) u v = Some pars /\
    pars = pre ++ data :: post /\
    Forall (fun d => edge_length data < edge_length d) pre /\
    Forall (fun d => edge_length data <= edge_length d) post.
Proof.
  intro H. apply route_edge_OK in H as (_ & first & rest & Hp & ->).
  destruct (min_from_scan edge_length rest [] [] first)
    as (pre & post & Heq & Hpre & Hpost); try constructor.
  exists (first :: rest), pre, post. auto.
Qed.

(** The first index label of a selection is the position of the first
    row that matches. *)
Lemma first_label (p : EdgeRow -> bool) (table : list EdgeRow) :
  forall k i,
    hd_error (map fst (filter (fun '(_, r) => p r)
                         (combine (seq k (List.length table)) table))) = Some i ->
    exists pre r post,
      table = pre ++ r :: post /\ i = (k + List.length pre)%nat /\
      p r = true /\ Forall (fun r' => p r' = false) pre.
Proof.
  induction table as [|r0 table IH]; intros k i H; simpl in H; [discriminate|].
  destruct (p r0) eqn:E; simpl in H.
  - inversion H; subst i. exists [], r0, table. simpl.
    repeat split; [lia | exact E | constructor].
  - apply IH in H as (pre & r & post & -> & -> & Hp & Hpre).
    exists (r0 :: pre), r, post. simpl.
    repeat split; [lia | exact Hp | constructor; assumption].
Qed.

(** What [plot_route_folium] does for a route step: of the rows of the
    edge table from [u] to [v] it takes the first, whatever the lengths. *)
Lemma route_rows_first_match route w rows w' :
  route_rows route w = (OK rows, w') ->
  exists table,
    graph_to_gdfs w = (OK table, w) /\
    Forall2 (fun '(u, v) r =>
               exists pre post,
                 table = pre ++ r :: post /\ row_u r = u /\ row_v r = v /\
                 Forall (fun r' => Z.eqb (row_u r') u && Z.eqb (row_v r') v = false)
                        pre)
            (steps route) rows.
Proof.
  unfold route_rows, loc. intro H.
  apply bind_OK in H as (table & w1 & Ht & H).
  apply graph_to_gdfs_rows in Ht as Hw. destruct Hw as [-> _].
  exists table. split; [exact Ht|].
  apply bind_OK in H as (index & w2 & Hi & H).
  apply for_collect_reads in Hi as [-> Hi];
    [| intros [u v]; apply keeps_reads; keep].
  apply for_collect_reads in H as [-> H];
    [| intro i; apply keeps_reads; keep].
  revert rows H. induction Hi as [|[u v] i ss index Hx _ IH]; intros rows H;
    inversion H as [|? r ? rows' Hr Hrest]; subst; constructor.
  - apply of_option_OK in Hx as [_ Hx]. apply of_option_OK in Hr as [_ Hr].
    unfold matching_index, labelled in Hx.
    apply (first_label (fun r => Z.eqb (row_u r) u && Z.eqb (row_v r) v)) in Hx
      as (pre & r1 & post & -> & -> & Hp & Hpre).
    simpl in Hr. rewrite nth_error_app2 in Hr by lia.
    rewrite Nat.sub_diag in Hr. simpl in Hr. inversion Hr; subst r1.
    apply andb_prop in Hp as [Hu Hv].
    apply Z.eqb_eq in Hu. apply Z.eqb_eq in Hv.
    exists pre, post. auto.
  - apply IH, Hrest.
Qed.

(** C1 at the divided road.  Of the two parallel edges from node 1 to
    node 2, [plot_graph_route] draws the shorter one, of length 2, as a
    straight line; [plot_route_folium] draws the first one of the edge
    table, of length 4, with its curve. *)
Theorem plot_route_folium_draws_first_parallel_edge :
  parallel divided 1 2
    = Some [mkEdge 4 (Scalar "primary") (Some [(0, 0); (1, 1); (2, 0)]) [];
            mkEdge 2 (Listed ["service"; "alley"]) None []] /\
  route_edge 1 2 (fresh divided)
    = (OK (mkEdge 2 (Listed ["service"; "alley"]) None []), fresh divided) /\
  (exists others,
     drawn (after (plot_graph_route [1; 2]%Z (route_boxed (1, 0, 2, 0)))
              (fresh divided))
     = others ++ [LineCollection [[(0, 0); (2, 0)]] "r" (Width 4) (1 # 2) 3%Z]) /\
  option_map layers
    (match fst (plot_route_folium [1; 2]%Z None (Some "length")
                  "cartodbpositron" 1%Z true "#cc0000" 5 1 (fresh divided)) with
     | OK m => Some m
     | Raise _ => None
     end)
  = Some [mkPolyLine [(0, 0); (1, 1); (2, 0)] (Some (NumCell 4)) "#cc0000" 5 1].
Proof.
  split; [reflexivity|]. split; [reflexivity|].
  split; [| vm_compute; reflexivity].
  eexists [_; _; _]. vm_compute. reflexivity.
Qed.

(** ** C8: street widths *)

Lemma street_type_run h w :
  street_type h w =
  match street_type_of h with
  | Some s => (OK s, w)
  | None => (Raise IndexError, w)
  end.
Proof. destruct h as [s|[|s l]]; reflexivity. Qed.

(** The whole list of widths, when every edge has a street type. *)
Lemma edge_linewidths_classified street_widths default_width w :
  Forall (fun '(_, _, _, data) => street_type_of (highway data) <> None)
         (edges_of (graph w)) ->
  edge_linewidths street_widths default_width w =
  (OK (map (fun '(_, _, _, data) =>
              match option_map (fun st => str_get st street_widths)
                      (street_type_of (highway data)) with
              | Some (Some width) => width
              | _ => default_width
              end) (edges_of (graph w))), w).
Proof.
  intro H. unfold edge_linewidths.
  rewrite (bind_run_OK G_edges _ w (edges_of (graph w)) w eq_refl).
  apply for_collect_total. intros [[[u v] key] data] Hin.
  rewrite Forall_forall in H. specialize (H _ Hin). simpl in H.
  unfold street_width, bind. rewrite street_type_run.
  destruct (street_type_of (highway data)) as [st|]; [|congruence].
  simpl. destruct (str_get st street_widths); reflexivity.
Qed.

Lemma keeps_edge_linewidths {T : Type} (f : World -> T) street_widths default_width :
  keeps f (edge_linewidths street_widths default_width).
Proof.
  unfold edge_linewidths. apply keeps_bind; [apply keeps_G_edges | intro es].
  apply keeps_for_collect. intros [[[u v] key] data].
  unfold street_width, street_type.
  destruct (highway data); keep.
Qed.

(** The figure-ground diagram draws its edge layer with the classified
    widths, one per edge. *)
Lemma plot_figure_ground_linewidths bbox_proj default_name street_widths
    default_width fig_length edge_color bgcolor filename file_format
    show save close dpi w w' :
  plot_figure_ground bbox_proj default_name street_widths default_width
    fig_length edge_color bgcolor filename file_format show save close dpi w
  = (OK tt, w') ->
  exists lines others ws,
    edge_linewidths (match street_widths with
                     | None => default_street_widths
                     | Some d => d
                     end) default_width w = (OK ws, w) /\
    drawn w' = LineCollection lines edge_color (Widths ws) 1 2%Z :: others.
Proof.
  unfold plot_figure_ground. intro H.
  apply bind_OK in H as (ws & w1 & Hw & H).
  pose proof (keeps_run (fun x => x) _ _ _ _ (keeps_edge_linewidths _ _ _) Hw)
    as Hw1.
  simpl in Hw1. subst w1.
  apply bind_OK in H as ([] & w2 & Hp & H).
  apply plot_graph_OK in Hp
    as (north & south & east & west & fw & lines & _ & _ & _ & _ & Hv).
  apply view_inv in Hv as (_ & _ & Hd & _). simpl in Hd.
  apply (keeps_run drawn) in H; [| keep].
  exists lines. eexists. exists ws. split; [exact Hw|].
  rewrite H. exact Hd.
Qed.

Lemma edge_linewidths_OK street_widths default_width w ws w' :
  edge_linewidths street_widths default_width w = (OK ws, w') ->
  w' = w /\
  Forall2 (fun '(_, _, _, data) width =>
             classified street_widths default_width data width)
          (edges_of (graph w)) ws.
Proof.
  unfold edge_linewidths. intro H.
  apply bind_OK in H as (es & w1 & He & H).
  cbv [G_edges the_graph bind ret] in He. inversion He; subst es w1; clear He.
  apply for_collect_reads in H as [-> H].
  2:{ intros [[[u v] key] data]. apply keeps_reads.
      unfold street_width, street_type. destruct (highway data); keep. }
  split; [reflexivity|].
  eapply Forall2_impl; [| exact H].
  intros [[[u v] key] data] width Hw. unfold street_width, bind in Hw.
  rewrite street_type_run in Hw. unfold classified.
  destruct (street_type_of (highway data)) as [st|]; [| discriminate].
  exists st. split; [reflexivity|].
  simpl in Hw. destruct (str_get st street_widths); inversion Hw; reflexivity.
Qed.

Lemma classified_mapped_or_default street_widths default_width data width :
  classified street_widths default_width data width ->
  mapped_or_default street_widths default_width data width.
Proof.
  intros (st & Hst & ->). exists st. split; [| split].
  - destruct (highway data) as [s|[|s l]]; simpl in Hst; inversion Hst; subst.
    + left. reflexivity.
    + right. exists l. reflexivity.
  - intros mapped Hm. rewrite Hm. reflexivity.
  - intro Hm. rewrite Hm. reflexivity.
Qed.

Lemma widths_mapped_or_default street_widths default_width
    (es : list edge_record) (ws : list Q) :
  Forall2 (fun '(_, _, _, data) width =>
             classified street_widths default_width data width) es ws ->
  Forall2 (fun '(_, _, _, data) width =>
             mapped_or_default street_widths default_width data width) es ws.
Proof.
  intro H. eapply Forall2_impl; [| exact H].
  intros [[[u v] key] data] width. apply classified_mapped_or_default.
Qed.

(** C8.  The line widths [plot_figure_ground] collects and draws the edge
    layer with are one per edge, in the order of [G.edges]: for an edge
    whose street type is [st] (the first element of a [highway] list, or
    the [highway] value itself), the value [street_widths] maps [st] to,
    when it is one of its keys, and [default_width] when it is not.  This
    is the list the loop over the edges returns, without changing
    anything, and the list the edge layer of the figure is drawn with
    when [plot_figure_ground] returns. *)
Theorem street_width_is_mapped_or_default
    (bbox_proj : bbox_t) (default_name : string)
    (street_widths : option (list (string * Q))) (default_width fig_length : Q)
    (edge_color bgcolor : string) (filename : option string)
    (file_format : string) (show save close : bool) (dpi : Z) (w w' : World)
    (widths : list Q) :
  (edge_linewidths (widths_in_force street_widths) default_width w
   = (OK widths, w') ->
   w' = w /\
   Forall2 (fun '(_, _, _, data) width =>
              mapped_or_default (widths_in_force street_widths) default_width
                data width)
           (edges_of (graph w)) widths) /\
  (plot_figure_ground bbox_proj default_name street_widths default_width
     fig_length edge_color bgcolor filename file_format show save close dpi w
   = (OK tt, w') ->
   exists lines ws others,
     artists (canvas w') =
       LineCollection lines edge_color (Widths ws) 1 2%Z :: others /\
     Forall2 (fun '(_, _, _, data) width =>
                mapped_or_default (widths_in_force street_widths) default_width
                  data width)
             (edges_of (graph w)) ws).
Proof.
  split.
  - intro H. apply edge_linewidths_OK in H as [-> H].
    split; [reflexivity|]. apply widths_mapped_or_default, H.
  - unfold plot_figure_ground. intro H.
    apply bind_OK in H as (ws & w1 & Hw & H).
    apply edge_linewidths_OK in Hw as [-> Hw].
    apply bind_OK in H as ([] & w2 & Hp & H).
    apply plot_graph_OK in Hp
      as (north & south & east & west & fw & lines & _ & _ & _ & _ & Hv).
    apply view_inv in Hv as (_ & _ & Hd & _). simpl in Hd.
    apply (keeps_run drawn) in H; [| keep].
    exists lines, ws. eexists. split.
    + unfold drawn in *. rewrite H. exact Hd.
    + apply widths_mapped_or_default, Hw.
Qed.

(** The divided road with the default widths: the road tagged service
    and alley is classified by its first tag, the primary road gets the
    default width, and the figure carries both widths. *)
Lemma street_width_witness :
  (fresh divided = fresh divided /\
   Forall2 (fun '(_, _, _, data) width =>
              mapped_or_default (widths_in_force None) 4 data width)
           (edges_of (graph (fresh divided))) [4; 3 # 2]) /\
  (exists lines ws others,
     artists (canvas (after (plot_figure_ground (1, -1, 2, 0) "figure_ground"
                               None 4 8 "w" "#333333" None "png" false true
                               true 300) (fresh divided))) =
       LineCollection lines "w" (Widths ws) 1 2%Z :: others /\
     Forall2 (fun '(_, _, _, data) width =>
                mapped_or_default (widths_in_force None) 4 data width)
             (edges_of (graph (fresh divided))) ws).
Proof.
  split.
  - apply (proj1 (street_width_is_mapped_or_default (1, -1, 2, 0) "figure_ground"
                    None 4 8 "w" "#333333" None "png" false true true 300
                    (fresh divided) (fresh divided) [4; 3 # 2])).
    vm_compute. reflexivity.
  - apply (proj2 (street_width_is_mapped_or_default (1, -1, 2, 0) "figure_ground"
                    None 4 8 "w" "#333333" None "png" false true true 300
                    (fresh divided) _ [])).
    vm_compute. reflexivity.
Defined.

(** ** C2: quantile colours *)

(** *** Sorting *)






(** *** Ranks *)







(** *** Quantiles *)






(** *** The levels of the bin edges *)











(** *** Bins by rank *)















(** *** The largest value *)











(** *** All values equal *)



(** *** The colours *)









(** Two different speeds in five bins: no error, and only the first and
    the last bin are used. *)
Lemma two_speeds_five_bins :
  fst (get_edge_colors_by_attr "speed" 5 "viridis" 0 1 (fresh (speeds [10; 30])))
  = OK [cmap_at "viridis" (0 # 4); cmap_at "viridis" (4 # 4)].
Proof. vm_compute. reflexivity. Qed.


(** * Further properties of the module *)

(** ** The output sink *)

Lemma adds_nothing {A : Type} (m : M A) :
  keeps ledger m -> adds m (fun _ => []).
Proof.
  intros Hk w a w' H. apply (keeps_run ledger) in H; [| exact Hk].
  unfold ledger in H. inversion H as [[Hs Hf]].
  rewrite app_nil_r. auto.
Qed.

Lemma adds_bind_nil {A B : Type} (m : M A) (k : A -> M B) outs :
  keeps ledger m -> (forall a, adds (k a) outs) -> adds (bind m k) outs.
Proof.
  intros Hm Hk w b w' H. apply bind_OK in H as (a & w1 & H1 & H).
  apply (keeps_run ledger) in H1; [| exact Hm].
  unfold ledger in H1. inversion H1 as [[Hs Hf]].
  destruct (Hk a w1 b w' H) as [Hf' Hs']. rewrite Hf', Hs', Hs, Hf. auto.
Qed.

Lemma adds_bind_quiet {A B : Type} (m : M A) (k : A -> M B) outs :
  adds m (fun _ => []) -> (forall a, adds (k a) outs) -> adds (bind m k) outs.
Proof.
  intros Hm Hk w b w' H. apply bind_OK in H as (a & w1 & H1 & H).
  destruct (Hm w a w1 H1) as [Hf Hs]. rewrite app_nil_r in Hs.
  destruct (Hk a w1 b w' H) as [Hf' Hs']. rewrite Hf', Hs', Hs, Hf. auto.
Qed.

Lemma adds_bind_last {A B : Type} (m : M A) (k : A -> M B) outs :
  adds m outs -> (forall a, keeps ledger (k a)) -> adds (bind m k) outs.
Proof.
  intros Hm Hk w b w' H. apply bind_OK in H as (a & w1 & H1 & H).
  apply (keeps_run ledger) in H; [| apply Hk].
  unfold ledger in H. inversion H as [[Hs Hf]].
  destruct (Hm w a w1 H1) as [Hf' Hs']. rewrite Hs, Hf, Hf', Hs'. auto.
Qed.

Lemma save_and_show_run sv sh cl fn ff d ao w :
  exists w',
    save_and_show sv sh cl fn ff d ao w = (OK tt, w') /\
    view w' = view w /\
    imgs_folder w' = imgs_folder w /\
    sink w' = sink w ++ saved sv (imgs_folder w) fn ff d ao ++ shown sh cl /\
    axis_shown (canvas w') =
      (if sv && String.eqb ff "svg" then false else axis_shown (canvas w)).
Proof.
  unfold save_and_show, saved, shown, savefig, when.
  destruct sv; [destruct (String.eqb ff "svg") eqn:E|];
    destruct sh; try destruct cl; destruct ao;
    eexists; (split; [unfold bind; cbn; rewrite ?E; reflexivity|]);
    cbn; rewrite <- ?app_assoc, ?app_nil_r; auto.
Qed.

Lemma save_and_show_adds sv sh cl fn ff d ao :
  adds (save_and_show sv sh cl fn ff d ao)
       (fun folder => saved sv folder fn ff d ao ++ shown sh cl).
Proof.
  intros w [] w' H.
  destruct (save_and_show_run sv sh cl fn ff d ao w) as (w1 & H1 & _ & Hf & Hs & _).
  rewrite H in H1. inversion H1; subst w1. auto.
Qed.

Lemma plot_graph_adds a :
  adds (plot_graph a)
       (fun folder =>
          saved (save a) folder (filename a) (file_format a) (dpi a) (axis_off a)
          ++ shown (show a) (close a)).
Proof.
  unfold plot_graph.
  repeat (apply adds_bind_nil; [keep | intro]).
  match goal with a0 : bbox_t |- _ => destruct a0 as [[[north south] east] west] end.
  repeat (apply adds_bind_nil; [keep | intro]).
  apply save_and_show_adds.
Qed.

(** X11.  A call of [plot_graph] that returns has sent to the output
    sink the file it saved, if [save] is set, and after it the window it
    showed, if [show] is set, or else closed, if [close] is set; and so has
    a call of [plot_graph_route], once and with its own arguments: drawing
    the background graph saves, shows and closes nothing. *)
Theorem figure_is_saved_and_shown_once
    (a : GraphArgs) (route : list Z) (ra : RouteArgs) (w w' : World) :
  (plot_graph a w = (OK tt, w') ->
   sink w' =
     sink w
     ++ saved (save a) (imgs_folder w) (filename a) (file_format a) (dpi a)
          (axis_off a)
     ++ shown (show a) (close a)) /\
  (plot_graph_route route ra w = (OK tt, w') ->
   sink w' =
     sink w
     ++ saved (save (base ra)) (imgs_folder w) (filename (base ra))
          (file_format (base ra)) (dpi (base ra)) (axis_off (base ra))
     ++ shown (show (base ra)) (close (base ra))).
Proof.
  split; intro H.
  - apply (plot_graph_adds a) in H. tauto.
  - assert (adds (plot_graph_route route ra)
              (fun folder =>
                 saved (save (base ra)) folder (filename (base ra))
                   (file_format (base ra)) (dpi (base ra)) (axis_off (base ra))
                 ++ shown (show (base ra)) (close (base ra)))) as Hadds.
    { unfold plot_graph_route.
      apply adds_bind_quiet;
        [exact (plot_graph_adds (background_args (base ra))) | intros _].
      unfold first_of, last_of.
      repeat (apply adds_bind_nil; [keep | intro]).
      match goal with p : (list Q * list Q * string)%type |- _ =>
        destruct p as [[lats lons] c] end.
      repeat (apply adds_bind_nil; [keep | intro]).
      apply save_and_show_adds. }
    apply Hadds in H. tauto.
Qed.

(** Saving the unit square as a png and showing it. *)
Lemma figure_is_saved_and_shown_once_witness :
  sink (after (plot_graph
                 (mkGraphArgs (Some (1, 0, 1, 0)) 6 None (2 # 100) true "w" true
                    true true "png" "temp" 300%Z false "#66ccff" 15 1 "none"
                    1%Z "#999999" (Width 1) 1 true)) (fresh square))
  = [] ++ [SaveFig "images/temp.png" "png" (Some 300%Z) BboxAxis] ++ [Show].
Proof.
  apply (proj1 (figure_is_saved_and_shown_once
                  (mkGraphArgs (Some (1, 0, 1, 0)) 6 None (2 # 100) true "w" true
                     true true "png" "temp" 300%Z false "#66ccff" 15 1 "none"
                     1%Z "#999999" (Width 1) 1 true)
                  [] (route_boxed (1, 0, 1, 0)) (fresh square) _)).
  vm_compute. reflexivity.
Defined.

(** X12.  When [save_and_show] returns, it has left the graph, the
    artists, the view limits and the figure size as they were; it has
    hidden the axis exactly if it saved an svg file; and it has sent to
    the sink first the file [folder/filename.format], if [save] is set
    (an svg without dpi, any other format with [dpi] and cropped to the
    axis when [axis_off] is set, else tight), and then the window shown,
    if [show] is set, or else closed, if [close] is set: a figure shown is
    never closed. *)
Theorem save_and_show_effect
    (save show close : bool) (filename file_format : string) (dpi : Z)
    (axis_off : bool) (w w' : World) :
  save_and_show save show close filename file_format dpi axis_off w
    = (OK tt, w') ->
  graph w' = graph w /\
  artists (canvas w') = artists (canvas w) /\
  ylim (canvas w') = ylim (canvas w) /\
  xlim (canvas w') = xlim (canvas w) /\
  figsize (canvas w') = figsize (canvas w) /\
  axis_shown (canvas w') =
    (if save && String.eqb file_format "svg" then false
     else axis_shown (canvas w)) /\
  sink w' =
    sink w
    ++ (if save then
          if String.eqb file_format "svg" then
            [SaveFig (path_of (imgs_folder w) filename file_format)
               file_format None BboxZero]
          else
            [SaveFig (path_of (imgs_folder w) filename file_format)
               file_format (Some dpi)
               (if axis_off then BboxAxis else BboxTight)]
        else [])
    ++ (if show then [Show] else if close then [Close] else []).
Proof.
  intro H.
  destruct (save_and_show_run save show close filename file_format dpi axis_off w)
    as (w1 & Hrun & Hv & _ & Hs & Hax).
  rewrite H in Hrun. inversion Hrun; subst w1; clear Hrun.
  unfold view, limits, drawn, figure_size in Hv.
  inversion Hv as [[Hg Hf Hd Hy Hx]].
  repeat split; assumption.
Qed.

(** Saving a figure as svg and asking for it to be shown and closed. *)
Lemma save_and_show_effect_witness :
  graph (after (save_and_show true true true "temp" "svg" 300 false)
           (fresh square)) = graph (fresh square) /\
  artists (canvas (after (save_and_show true true true "temp" "svg" 300 false)
                     (fresh square))) = artists (canvas (fresh square)) /\
  ylim (canvas (after (save_and_show true true true "temp" "svg" 300 false)
                  (fresh square))) = ylim (canvas (fresh square)) /\
  xlim (canvas (after (save_and_show true true true "temp" "svg" 300 false)
                  (fresh square))) = xlim (canvas (fresh square)) /\
  figsize (canvas (after (save_and_show true true true "temp" "svg" 300 false)
                     (fresh square))) = figsize (canvas (fresh square)) /\
  axis_shown (canvas (after (save_and_show true true true "temp" "svg" 300 false)
                        (fresh square))) = false /\
  sink (after (save_and_show true true true "temp" "svg" 300 false)
          (fresh square))
  = [] ++ [SaveFig "images/temp.svg" "svg" None BboxZero] ++ [Show].
Proof.
  exact (save_and_show_effect true true true "temp" "svg" 300 false
           (fresh square) _ ltac:(vm_compute; reflexivity)).
Defined.

(** ** More on plot_graph *)



(** X9.  When [plot_graph] returns, the figure holds first the edge
    layer, with as many polylines as the graph has edges, then the node
    layer, with the x and the y of every node in the order of [G.node],
    and then, if [annotate] is set and only then, one label per node, the
    node's identifier at the node's coordinates; nothing else. *)
Theorem plot_graph_draws_every_edge_and_node (a : GraphArgs) (w w' : World) :
  plot_graph a w = (OK tt, w') ->
  exists lines,
    List.length lines = List.length (edges_of (graph w)) /\
    artists (canvas w') =
      [LineCollection lines (edge_color a) (edge_linewidth a) (edge_alpha a) 2%Z;
       PathCollection (map (fun '(_, nd) => node_x nd) (node (graph w)))
         (map (fun '(_, nd) => node_y nd) (node (graph w)))
         (node_size a) (node_color a) (node_alpha a) (node_edgecolor a)
         (node_zorder a)]
      ++ (if annotate a
          then map (fun '(n, nd) => Annotation n (node_x nd, node_y nd))
                 (node (graph w))
          else []).
Proof.
  intro H. apply plot_graph_OK in H
    as (north & south & east & west & fw & lines & _ & _ & _ & Hl & Hv).
  apply view_inv in Hv as (_ & _ & Hd & _).
  exists lines. split; [symmetry; apply (Forall2_length Hl)|].
  unfold drawn in Hd. rewrite Hd. unfold values, annotations.
  rewrite !map_map. simpl. f_equal. f_equal; f_equal;
    apply map_ext; intros [n nd]; reflexivity.
Qed.

(** The unit square, annotated: four polylines, four nodes, four labels. *)
Lemma plot_graph_draws_every_edge_and_node_witness :
  exists lines,
    List.length lines = 4%nat /\
    artists (canvas (after (plot_graph
                              (mkGraphArgs (Some (1, 0, 1, 0)) 6 None (2 # 100)
                                 true "w" false false false "png" "temp" 300%Z
                                 true "#66ccff" 15 1 "none" 1%Z "#999999"
                                 (Width 1) 1 true)) (fresh square)))
    = [LineCollection lines "#999999" (Width 1) 1 2%Z;
       PathCollection [0; 0; 1; 1] [0; 1; 1; 0] 15 "#66ccff" 1 "none" 1%Z]
      ++ [Annotation 0 (0, 0); Annotation 1 (0, 1); Annotation 2 (1, 1);
          Annotation 3 (1, 0)].
Proof.
  exact (plot_graph_draws_every_edge_and_node
           (mkGraphArgs (Some (1, 0, 1, 0)) 6 None (2 # 100) true "w" false
              false false "png" "temp" 300%Z true "#66ccff" 15 1 "none" 1%Z
              "#999999" (Width 1) 1 true)
           (fresh square) _ ltac:(vm_compute; reflexivity)).
Defined.

Lemma node_to_node_missing u v w :
  dict_get u (node (graph w)) = None \/ dict_get v (node (graph w)) = None ->
  node_to_node u v w = (Raise KeyError, w).
Proof.
  intro Hmiss. destruct (node_to_node u v w) as [[line|e] w1] eqn:E.
  - exfalso. apply node_to_node_OK in E as [_ (nu & nv & Hu & Hv & _)].
    destruct Hmiss; congruence.
  - pose proof (keeps_run (fun x => x) _ _ _ _ (keeps_node_to_node _ u v) E) as Hw.
    simpl in Hw. subst w1. apply node_to_node_Raise in E. subst e. reflexivity.
Qed.

Lemma edge_polyline_missing ug u v data w :
  geometry data = None \/ ug = false ->
  dict_get u (node (graph w)) = None \/ dict_get v (node (graph w)) = None ->
  edge_polyline ug u v data w = (Raise KeyError, w).
Proof.
  intros Hgeom Hmiss. unfold edge_polyline.
  destruct (geometry data) as [geom|]; [destruct ug|];
    try (apply node_to_node_missing, Hmiss).
  destruct Hgeom; discriminate.
Qed.

(** X10.  If some edge that is to be drawn as a straight line (it has no
    [geometry], or [use_geom] is off) has an endpoint without coordinates,
    [plot_graph], given a box with east <> west (and north <> south when
    it derives the figure width), does not return: it raises [KeyError],
    leaves the graph as it was, and saves and shows nothing. *)
Theorem plot_graph_missing_endpoint
    (a : GraphArgs) (w : World) (north south east west : Q)
    (u v key : Z) (data : EdgeData) :
  bbox a = Some (north, south, east, west) ->
  ~ east == west ->
  (fig_width a = None -> ~ north == south) ->
  In (u, v, key, data) (edges_of (graph w)) ->
  geometry data = None \/ use_geom a = false ->
  dict_get u (node (graph w)) = None \/ dict_get v (node (graph w)) = None ->
  fst (plot_graph a w) = Raise KeyError /\
  graph (after (plot_graph a) w) = graph w /\
  sink (after (plot_graph a) w) = sink w.
Proof.
  intros Hb Hew Hns Hin Hgeom Hmiss. unfold after, plot_graph.
  rewrite (bind_run_OK G_node_values _ w _ w eq_refl).
  rewrite Hb. simpl get_bbox.
  rewrite (bind_run_OK (ret (north, south, east, west)) _ w _ w eq_refl).
  cbv beta iota.
  rewrite (bind_run_OK _ _ _ _ _
             (py_div_run (north - south) (east - west) w
                (difference_nonzero _ _ Hew))).
  assert (exists fw,
            match fig_width a with
            | Some fw => ret fw
            | None => py_div (fig_height a) ((north - south) / (east - west))
            end w = (OK fw, w)) as [fw Hfw].
  { destruct (fig_width a) as [given|].
    - exists given. reflexivity.
    - eexists. apply py_div_run, ratio_nonzero; auto. }
  rewrite (bind_run_OK _ _ _ _ _ Hfw).
  rewrite (bind_run_OK (subplots _ _) _ w tt _ eq_refl).
  match goal with
  | |- context [bind (set_facecolor ?c) _ ?w1] =>
      rewrite (bind_run_OK (set_facecolor c) _ w1 tt _ eq_refl)
  end.
  match goal with
  | |- context [bind G_edges _ ?w1] =>
      rewrite (bind_run_OK G_edges _ w1 (edges_of (graph w)) w1 eq_refl);
      destruct (for_collect_raises
                  (fun '(u, v, _, data) => edge_polyline (use_geom a) u v data)
                  (fun e => e = KeyError) (edges_of (graph w)) w1)
        as (e & He & ->)
  end.
  - intros [[[u0 v0] key0] data0]. apply keeps_reads, keeps_edge_polyline.
  - intros [[[u0 v0] key0] data0] e w2 _ H.
    apply (edge_polyline_Raise _ _ _ _ _ _ _ H).
  - eexists (u, v, key, data), KeyError, _. split; [exact Hin|].
    apply edge_polyline_missing; assumption.
  - rewrite !(bind_run_Raise _ _ _ _ _ He). simpl. auto.
Qed.

(** The graph with a dangling edge. *)
Lemma plot_graph_missing_endpoint_witness :
  fst (plot_graph (boxed (1, 0, 1, 0)) (fresh dangling)) = Raise KeyError /\
  graph (after (plot_graph (boxed (1, 0, 1, 0))) (fresh dangling))
    = graph (fresh dangling) /\
  sink (after (plot_graph (boxed (1, 0, 1, 0))) (fresh dangling))
    = sink (fresh dangling).
Proof.
  apply (plot_graph_missing_endpoint (boxed (1, 0, 1, 0)) (fresh dangling)
           1 0 1 0 0%Z 7%Z 0%Z (street 1) eq_refl).
  - vm_compute. discriminate.
  - intros _. vm_compute. discriminate.
  - left. reflexivity.
  - left. reflexivity.
  - right. reflexivity.
Defined.

(** ** More on plot_graph_route *)

Lemma steps_length (route : list Z) :
  List.length (steps route) = (List.length route - 1)%nat.
Proof.
  unfold steps. rewrite length_combine.
  assert (List.length (removelast route) = (List.length route - 1)%nat) as ->.
  { induction route as [|x [|y route] IH]; simpl in *; try reflexivity.
    rewrite IH. lia. }
  destruct route; simpl; lia.
Qed.

(** X1.  When [plot_graph_route] returns, the route layer, drawn last,
    holds one polyline per consecutive pair of route nodes (one less than
    the route has nodes), and the polyline of a pair (u, v) is that of the
    parallel edge from u to v that is shortest in [length], or of the
    first of the shortest in the order of [G.edge[u][v]]. *)
Theorem route_layer_draws_shortest_parallel_edges
    (route : list Z) (a : RouteArgs) (w w' : World) :
  plot_graph_route route a w = (OK tt, w') ->
  exists before marker lines,
    artists (canvas w') =
      before ++
      [marker;
       LineCollection lines (route_color a) (Width (route_linewidth a))
         (route_alpha a) 3%Z] /\
    List.length lines = (List.length route - 1)%nat /\
    Forall2 (fun '(u, v) line =>
               exists pars data,
                 parallel (graph w) u v = Some pars /\
                 first_shortest pars data /\
                 drawn_as (graph w) (use_geom (base a)) u v data line)
            (steps route) lines.
Proof.
  intro H. apply plot_graph_route_OK in H
    as (w1 & o & d & lats & lons & c & rlines & _ & _ & _ & _ & Hl & Hv).
  apply view_inv in Hv as (_ & _ & Hd & _).
  exists (drawn w1). eexists. exists rlines. split; [exact Hd|]. split.
  - rewrite <- (Forall2_length Hl). apply steps_length.
  - eapply Forall2_impl; [| exact Hl].
    intros [u v] line (first & rest & Hp & Hdr). simpl in *.
    destruct (min_from_scan edge_length rest [] [] first)
      as (pre & post & Heq & Hpre & Hpost); try constructor.
    exists (first :: rest), (min_from edge_length first rest).
    split; [exact Hp|]. split; [| exact Hdr].
    exists pre, post. auto.
Qed.

(** On the divided road the route 1, 2 is one polyline, the straight
    line of the shorter parallel edge. *)
Lemma route_layer_witness :
  exists before marker lines,
    artists (canvas (after (plot_graph_route [1; 2]%Z (route_boxed (1, 0, 2, 0)))
                       (fresh divided))) =
      before ++ [marker; LineCollection lines "r" (Width 4) (1 # 2) 3%Z] /\
    List.length lines = 1%nat /\
    Forall2 (fun '(u, v) line =>
               exists pars data,
                 parallel divided u v = Some pars /\
                 first_shortest pars data /\
                 drawn_as divided true u v data line)
            [(1, 2)%Z] lines.
Proof.
  exact (route_layer_draws_shortest_parallel_edges [1; 2]%Z
           (route_boxed (1, 0, 2, 0)) (fresh divided) _
           ltac:(vm_compute; reflexivity)).
Defined.

(** X2.  Whatever the arguments and whether it returns or raises,
    [plot_graph_route] leaves the caller's graph as it found it. *)
Theorem plot_graph_route_leaves_graph_unchanged
    (route : list Z) (a : RouteArgs) (w : World) :
  graph (after (plot_graph_route route a) w) = graph w.
Proof. apply plot_graph_route_keeps_graph. Qed.

(** X3.  Drawing the route changes neither the view nor the figure:
    when [plot_graph_route] returns, the view limits are the box expanded
    by the margin on every side and the figure has the height asked for,
    exactly as [plot_graph] leaves them. *)
Theorem route_overlay_keeps_the_view (route : list Z) (a : RouteArgs) (w w' : World) :
  plot_graph_route route a w = (OK tt, w') ->
  exists w1 north south east west,
    plot_graph (background_args (base a)) w = (OK tt, w1) /\
    get_bbox (bbox (base a)) w = (OK (north, south, east, west), w) /\
    ylim (canvas w') = ylim (canvas w1) /\
    xlim (canvas w') = xlim (canvas w1) /\
    figsize (canvas w') = figsize (canvas w1) /\
    ylim (canvas w') =
      Some (south - (north - south) * margin (base a),
            north + (north - south) * margin (base a)) /\
    xlim (canvas w') =
      Some (west - (east - west) * margin (base a),
            east + (east - west) * margin (base a)) /\
    snd (figsize (canvas w')) = fig_height (base a).
Proof.
  intro H. apply plot_graph_route_OK in H
    as (w1 & o & d & lats & lons & c & rlines & Hbg & _ & _ & _ & _ & Hv).
  pose proof Hbg as Hbg'. apply plot_graph_OK in Hbg'
    as (north & south & east & west & fw & lines & Hb & _ & _ & _ & Hv1).
  apply view_inv in Hv as (_ & Hs & _ & Hl).
  apply view_inv in Hv1 as (_ & Hs1 & _ & Hl1).
  unfold limits, figure_size in *. rewrite Hl1 in Hl. rewrite Hs1 in Hs.
  inversion Hl as [[Hy Hx]]. inversion Hl1 as [[Hy1 Hx1]].
  exists w1, north, south, east, west. simpl in *.
  rewrite Hs, Hs1, Hy, Hx, Hy1, Hx1. repeat split; auto.
Qed.

Lemma route_overlay_keeps_the_view_witness :
  exists w1 north south east west,
    plot_graph (background_args (base (route_boxed (1, 0, 1, 0)))) (fresh square)
      = (OK tt, w1) /\
    get_bbox (bbox (base (route_boxed (1, 0, 1, 0)))) (fresh square)
      = (OK (north, south, east, west), fresh square) /\
    ylim (canvas (after (plot_graph_route [0; 1; 2]%Z (route_boxed (1, 0, 1, 0)))
                    (fresh square))) = ylim (canvas w1) /\
    xlim (canvas (after (plot_graph_route [0; 1; 2]%Z (route_boxed (1, 0, 1, 0)))
                    (fresh square))) = xlim (canvas w1) /\
    figsize (canvas (after (plot_graph_route [0; 1; 2]%Z
                              (route_boxed (1, 0, 1, 0))) (fresh square)))
      = figsize (canvas w1) /\
    ylim (canvas (after (plot_graph_route [0; 1; 2]%Z (route_boxed (1, 0, 1, 0)))
                    (fresh square))) =
      Some (south - (north - south) * (2 # 100),
            north + (north - south) * (2 # 100)) /\
    xlim (canvas (after (plot_graph_route [0; 1; 2]%Z (route_boxed (1, 0, 1, 0)))
                    (fresh square))) =
      Some (west - (east - west) * (2 # 100),
            east + (east - west) * (2 # 100)) /\
    snd (figsize (canvas (after (plot_graph_route [0; 1; 2]%Z
                                   (route_boxed (1, 0, 1, 0))) (fresh square))))
      = 6.
Proof.
  exact (route_overlay_keeps_the_view [0; 1; 2]%Z (route_boxed (1, 0, 1, 0))
           (fresh square) _ ltac:(vm_compute; reflexivity)).
Defined.

(** X4.  With both [origin_point] and [destination_point] given, each
    as (lat, lon), the two markers are placed at these points, longitude
    as x and latitude as y, in the colour [orig_dest_point_color]; the
    coordinates of the route's end nodes are not used. *)
Theorem override_points_place_the_markers
    (route : list Z) (a : RouteArgs) (op dp : point) (w w' : World) :
  origin_point a = Some op ->
  destination_point a = Some dp ->
  plot_graph_route route a w = (OK tt, w') ->
  exists before route_layer,
    artists (canvas w') =
      before ++
      [PathCollection [snd op; snd dp] [fst op; fst dp] (orig_dest_node_size a)
         (orig_dest_point_color a) (orig_dest_node_alpha a)
         (node_edgecolor (base a)) 4%Z;
       route_layer].
Proof.
  intros Hop Hdp H. apply plot_graph_route_OK in H
    as (w1 & o & d & lats & lons & c & rlines & _ & _ & _ & Hm & _ & Hv).
  unfold marked in Hm. rewrite Hop, Hdp in Hm. simpl in Hm.
  destruct Hm as (op' & dp' & Hop' & Hdp' & -> & -> & ->).
  inversion Hop'; inversion Hdp'; subst op' dp'.
  apply view_inv in Hv as (_ & _ & Hd & _).
  exists (drawn w1). eexists. exact Hd.
Qed.

Lemma override_points_witness :
  exists before route_layer,
    artists (canvas (after (plot_graph_route [0; 1; 2]%Z
                              (route_between (1, 0, 1, 0) (5, 6) (7, 8)))
                       (fresh square))) =
      before ++ [PathCollection [6; 8] [5; 7] 100 "b" (1 # 2) "none" 4%Z;
                 route_layer].
Proof.
  exact (override_points_place_the_markers [0; 1; 2]%Z
           (route_between (1, 0, 1, 0) (5, 6) (7, 8)) (5, 6) (7, 8)
           (fresh square) _ eq_refl eq_refl ltac:(vm_compute; reflexivity)).
Defined.

(** X5.  [plot_graph_route] draws the background graph before it looks
    at the route: what [plot_graph] raises, it raises, in the same world;
    and an empty route raises [IndexError] only after the background graph
    has been drawn, leaving that figure without markers or route. *)
Theorem route_is_read_after_the_background (route : list Z) (a : RouteArgs)
    (w w1 : World) :
  (forall e,
     plot_graph (background_args (base a)) w = (Raise e, w1) ->
     plot_graph_route route a w = (Raise e, w1)) /\
  (plot_graph (background_args (base a)) w = (OK tt, w1) ->
   plot_graph_route [] a w = (Raise IndexError, w1)).
Proof.
  split.
  - intros e H. unfold plot_graph_route. apply bind_run_Raise, H.
  - intro H. unfold plot_graph_route. rewrite (bind_run_OK _ _ _ _ _ H).
    reflexivity.
Qed.

Lemma route_is_read_after_the_background_witness :
  plot_graph_route [] (route_boxed (1, 0, 1, 0)) (fresh square)
  = (Raise IndexError,
     after (plot_graph (background_args (base (route_boxed (1, 0, 1, 0)))))
       (fresh square)).
Proof.
  apply (proj2 (route_is_read_after_the_background [] (route_boxed (1, 0, 1, 0))
                  (fresh square) _)).
  vm_compute. reflexivity.
Defined.

(** ** plot_shape *)

Lemma with_no_artists w : with_artists [] w = w.
Proof.
  destruct w as [g [sz ffc afc ar yl xl sh eq ch] f fo s].
  cbv [with_artists after on_canvas snd canvas artists graph imgs_folder folium
       sink figsize fig_facecolor ax_facecolor ylim xlim axis_shown aspect_equal
       chrome].
  rewrite app_nil_r. reflexivity.
Qed.

Lemma with_artists_app l1 l2 w :
  with_artists l2 (with_artists l1 w) = with_artists (l1 ++ l2) w.
Proof.
  cbv [with_artists after on_canvas snd canvas artists graph imgs_folder folium
       sink figsize fig_facecolor ax_facecolor ylim xlim axis_shown aspect_equal
       chrome].
  rewrite app_assoc. reflexivity.
Qed.

Lemma add_artists_run {A : Type} (f : A -> artist) (l : list A) (w : World) :
  for_each (fun p => add_artist (f p)) l w = (OK tt, with_artists (map f l) w).
Proof.
  revert w. induction l as [|p l IH]; intro w; simpl.
  - rewrite with_no_artists. reflexivity.
  - rewrite (bind_run_OK _ _ w tt (with_artists [f p] w) eq_refl).
    rewrite IH, with_artists_app. reflexivity.
Qed.

(** The loop over the geometries (lines 60-68). *)
Lemma shape_loop_polygonal fc ec lw al (gdf : list shape) (w : World) :
  forallb is_polygonal gdf = true ->
  for_each (fun geom =>
    match geom with
    | OtherShape _ => raise ValueError
    | Polygon ring =>
        for_each (fun polygon =>
          add_artist (PolygonPatch polygon fc ec lw al)) [ring]
    | MultiPolygon parts =>
        for_each (fun polygon =>
          add_artist (PolygonPatch polygon fc ec lw al)) parts
    end) gdf w
  = (OK tt, with_artists (patches fc ec lw al gdf) w).
Proof.
  revert w. induction gdf as [|s gdf IH]; intros w Hp.
  - simpl. unfold patches. simpl. rewrite with_no_artists. reflexivity.
  - simpl in Hp. apply andb_prop in Hp as [Hs Hp].
    cbn [for_each].
    assert (match s with
            | OtherShape _ => raise ValueError
            | Polygon ring =>
                for_each (fun polygon =>
                  add_artist (PolygonPatch polygon fc ec lw al)) [ring]
            | MultiPolygon parts =>
                for_each (fun polygon =>
                  add_artist (PolygonPatch polygon fc ec lw al)) parts
            end w = (OK tt, with_artists (patches fc ec lw al [s]) w)) as Hs1.
    { unfold patches. cbn [flat_map]. rewrite app_nil_r.
      destruct s as [ring | parts | coords]; [| | discriminate Hs];
        cbn [rings]; apply (add_artists_run
          (fun polygon => PolygonPatch polygon fc ec lw al)). }
    rewrite (bind_run_OK _ _ _ _ _ Hs1), (IH _ Hp), with_artists_app.
    unfold patches. cbn [flat_map]. rewrite app_nil_r, map_app. reflexivity.
Qed.

Lemma shape_loop_rejects fc ec lw al (pre post : list shape) coords (w : World) :
  forallb is_polygonal pre = true ->
  for_each (fun geom =>
    match geom with
    | OtherShape _ => raise ValueError
    | Polygon ring =>
        for_each (fun polygon =>
          add_artist (PolygonPatch polygon fc ec lw al)) [ring]
    | MultiPolygon parts =>
        for_each (fun polygon =>
          add_artist (PolygonPatch polygon fc ec lw al)) parts
    end) (pre ++ OtherShape coords :: post) w
  = (Raise ValueError, with_artists (patches fc ec lw al pre) w).
Proof.
  revert w. induction pre as [|s pre IH]; intros w Hp.
  - simpl. unfold patches. simpl. rewrite with_no_artists. reflexivity.
  - simpl in Hp. apply andb_prop in Hp as [Hs Hp].
    pose proof (shape_loop_polygonal fc ec lw al [s] w) as Hs1.
    cbn [for_each forallb] in Hs1. rewrite Hs in Hs1.
    specialize (Hs1 eq_refl). apply bind_OK in Hs1 as ([] & w1 & Hs1 & Hr).
    inversion Hr; subst w1; clear Hr.
    cbn [for_each app].
    rewrite (bind_run_OK _ _ _ _ _ Hs1), (IH _ Hp), with_artists_app.
    unfold patches. cbn [flat_map]. rewrite app_nil_r, map_app. reflexivity.
Qed.

(** X13.  A geometry that is neither a polygon nor a multipolygon makes
    [plot_shape] raise [ValueError] when the loop reaches it: the patches
    of the geometries before it are on the figure already, but no limits
    have been set and nothing is shown. *)
Theorem plot_shape_rejects_other_geometries
    (pre post : list shape) (coords : list point) (fc ec : string)
    (linewidth alpha : Q) (size : Q * Q) (margin : Q) (axis_off : bool)
    (w : World) :
  forallb is_polygonal pre = true ->
  exists w1,
    plot_shape (pre ++ OtherShape coords :: post) fc ec linewidth alpha size
      margin axis_off w = (Raise ValueError, w1) /\
    drawn w1 = patches fc ec linewidth alpha pre /\
    limits w1 = (None, None) /\
    sink w1 = sink w /\ graph w1 = graph w.
Proof.
  intro Hp. unfold plot_shape.
  rewrite (bind_run_OK (subplots size None) _ w tt _ eq_refl).
  rewrite (bind_run_Raise _ _ _ _ _
             (shape_loop_rejects fc ec linewidth alpha pre post coords _ Hp)).
  eexists. split; [reflexivity|]. repeat split.
Qed.

Lemma plot_shape_rejects_witness :
  exists w1,
    plot_shape mixed "#cbe0f0" "#999999" 1 1 (6, 6) (2 # 100) true (fresh square)
      = (Raise ValueError, w1) /\
    drawn w1 = patches "#cbe0f0" "#999999" 1 1 [Polygon [(0, 0); (4, 0); (0, 2)]] /\
    limits w1 = (None, None) /\
    sink w1 = sink (fresh square) /\ graph w1 = graph (fresh square).
Proof.
  exact (plot_shape_rejects_other_geometries
           [Polygon [(0, 0); (4, 0); (0, 2)]] [] [(1, 1)] "#cbe0f0" "#999999"
           1 1 (6, 6) (2 # 100) true (fresh square) eq_refl).
Defined.

Lemma plot_shape_run gdf fc ec linewidth alpha size margin axis_off w bounds :
  forallb is_polygonal gdf = true ->
  bounds_of (flat_map shape_coords gdf) = Some bounds ->
  exists w1,
    plot_shape gdf fc ec linewidth alpha size margin axis_off w = (OK tt, w1) /\
    drawn w1 = patches fc ec linewidth alpha gdf /\
    figure_size w1 = size /\
    axis_shown (canvas w1) = negb axis_off /\
    aspect_equal (canvas w1) = true /\
    sink w1 = sink w ++ [Show] /\ graph w1 = graph w.
Proof.
  intros Hp Hb. unfold plot_shape.
  rewrite (bind_run_OK (subplots size None) _ w tt _ eq_refl).
  rewrite (bind_run_OK _ _ _ _ _
             (shape_loop_polygonal fc ec linewidth alpha gdf _ Hp)).
  unfold unary_union_bounds. rewrite Hb.
  destruct bounds as [[[west south] east] north].
  destruct axis_off; eexists; (split; [reflexivity|]); repeat split.
Qed.

Lemma first_other_shape (gdf : list shape) :
  forallb is_polygonal gdf = false ->
  exists pre coords post,
    gdf = pre ++ OtherShape coords :: post /\ forallb is_polygonal pre = true.
Proof.
  induction gdf as [|s gdf IH]; [discriminate|]. simpl. intro H.
  destruct s as [ring | parts | coords]; simpl in H.
  - destruct (IH H) as (pre & coords & post & -> & Hpre).
    exists (Polygon ring :: pre), coords, post. auto.
  - destruct (IH H) as (pre & coords & post & -> & Hpre).
    exists (MultiPolygon parts :: pre), coords, post. auto.
  - exists [], coords, gdf. auto.
Qed.

(** X14.  When [plot_shape] returns, every geometry of the table was a
    polygon or a multipolygon, and on a new figure of the size asked for
    there is one patch per polygon, a multipolygon giving one per part, in
    the order of the table and all in the given style; the axes are hidden
    exactly if [axis_off]; and the figure has been shown once, and not
    saved. *)
Theorem plot_shape_draws_one_patch_per_polygon
    (gdf : list shape) (fc ec : string) (linewidth alpha : Q) (size : Q * Q)
    (margin : Q) (axis_off : bool) (w w1 : World) :
  plot_shape gdf fc ec linewidth alpha size margin axis_off w = (OK tt, w1) ->
  forallb is_polygonal gdf = true /\
  drawn w1 = patches fc ec linewidth alpha gdf /\
  figure_size w1 = size /\
  axis_shown (canvas w1) = negb axis_off /\
  aspect_equal (canvas w1) = true /\
  sink w1 = sink w ++ [Show] /\ graph w1 = graph w.
Proof.
  intro H. destruct (forallb is_polygonal gdf) eqn:Hp.
  - split; [reflexivity|].
    destruct (bounds_of (flat_map shape_coords gdf)) as [bounds|] eqn:Hb.
    + destruct (plot_shape_run gdf fc ec linewidth alpha size margin axis_off w
                  bounds Hp Hb) as (w2 & Hrun & Hrest).
      rewrite H in Hrun. inversion Hrun; subst w2. exact Hrest.
    + exfalso. unfold plot_shape in H.
      rewrite (bind_run_OK (subplots size None) _ w tt _ eq_refl) in H.
      rewrite (bind_run_OK _ _ _ _ _
                 (shape_loop_polygonal fc ec linewidth alpha gdf _ Hp)) in H.
      unfold unary_union_bounds in H. rewrite Hb in H. discriminate H.
  - exfalso. destruct (first_other_shape gdf Hp) as (pre & coords & post & -> & Hpre).
    unfold plot_shape in H.
    rewrite (bind_run_OK (subplots size None) _ w tt _ eq_refl) in H.
    rewrite (bind_run_Raise _ _ _ _ _
               (shape_loop_rejects fc ec linewidth alpha pre post coords _ Hpre))
      in H.
    discriminate H.
Qed.

Lemma plot_shape_draws_witness :
  forallb is_polygonal triangle = true /\
  drawn (after (plot_shape triangle "#cbe0f0" "#999999" 1 1 (6, 6) (2 # 100) true)
           (fresh square)) = patches "#cbe0f0" "#999999" 1 1 triangle /\
  figure_size (after (plot_shape triangle "#cbe0f0" "#999999" 1 1 (6, 6)
                        (2 # 100) true) (fresh square)) = (6, 6) /\
  axis_shown (canvas (after (plot_shape triangle "#cbe0f0" "#999999" 1 1 (6, 6)
                               (2 # 100) true) (fresh square))) = negb true /\
  aspect_equal (canvas (after (plot_shape triangle "#cbe0f0" "#999999" 1 1
                                 (6, 6) (2 # 100) true) (fresh square))) = true /\
  sink (after (plot_shape triangle "#cbe0f0" "#999999" 1 1 (6, 6) (2 # 100) true)
          (fresh square)) = sink (fresh square) ++ [Show] /\
  graph (after (plot_shape triangle "#cbe0f0" "#999999" 1 1 (6, 6) (2 # 100) true)
           (fresh square)) = graph (fresh square).
Proof.
  exact (plot_shape_draws_one_patch_per_polygon triangle "#cbe0f0" "#999999"
           1 1 (6, 6) (2 # 100) true (fresh square) _
           ltac:(vm_compute; reflexivity)).
Defined.

(** ** The folium renderings *)

Lemma make_folium_polyline_OK row c wd op popup_attribute w pl w' :
  make_folium_polyline row c wd op popup_attribute w = (OK pl, w') ->
  w' = w /\ polyline_for c wd op popup_attribute row pl.
Proof.
  unfold make_folium_polyline. intro H.
  apply bind_OK in H as ([] & w1 & Hf & H).
  rewrite need_folium_run in Hf. destruct (folium w); [| discriminate].
  inversion Hf; subst w1; clear Hf.
  apply bind_OK in H as (p & w1 & Hp & H). inversion H; subst pl w'; clear H.
  unfold polyline_for. simpl.
  destruct popup_attribute as [column|].
  - apply bind_OK in Hp as (cell & w2 & Hc & Hp).
    apply of_option_OK in Hc as [-> Hc]. inversion Hp; subst.
    rewrite Hc. repeat split; auto. discriminate.
  - inversion Hp; subst. repeat split; auto.
Qed.

Lemma add_polylines_OK rows c wd op popup_attribute m w m' w' :
  add_polylines rows c wd op popup_attribute m w = (OK m', w') ->
  w' = w /\
  exists new,
    Forall2 (polyline_for c wd op popup_attribute) rows new /\
    m' = mkMap (location m) (zoom_start m) (tiles m) (layers m ++ new) (fitted m).
Proof.
  revert m w. induction rows as [|row rows IH]; intros m w H.
  - inversion H; subst. split; [reflexivity|]. exists []. split; [constructor|].
    rewrite app_nil_r. destruct m'; reflexivity.
  - simpl in H. apply bind_OK in H as (pl & w1 & Hpl & H).
    apply make_folium_polyline_OK in Hpl as [-> Hpl].
    apply IH in H as [-> (new & Hnew & ->)].
    split; [reflexivity|]. exists (pl :: new). split; [constructor; assumption|].
    simpl. rewrite <- app_assoc. reflexivity.
Qed.

(** The common end of both renderings: the polylines, then the bounds. *)
Lemma folium_layers_OK rows c wd op popup_attribute (fit_bounds : bool) m0 w m' w' :
  ((m <- add_polylines rows c wd op popup_attribute m0 ;;
    if fit_bounds then
      '(tb0, tb1, tb2, tb3) <- total_bounds rows ;;
      let bounds := ((tb1, tb0), (tb3, tb2)) in
      ret (fit_to bounds m)
    else ret m) : M FoliumMap) w = (OK m', w') ->
  w' = w /\ rendered rows c wd op popup_attribute fit_bounds m0 m'.
Proof.
  intro H. apply bind_OK in H as (m & w1 & Hm & H).
  apply add_polylines_OK in Hm as [-> (new & Hnew & ->)].
  unfold rendered, fit_of. destruct fit_bounds.
  - apply bind_OK in H as ([[[tb0 tb1] tb2] tb3] & w1 & Hb & H).
    apply of_option_OK in Hb as [-> Hb]. inversion H; subst; clear H.
    split; [reflexivity|]. exists new. simpl. repeat split; auto.
    exists tb0, tb1, tb2, tb3. auto.
  - inversion H; subst; clear H.
    split; [reflexivity|]. exists new. simpl. repeat split; auto.
Qed.

(** X15.  Without the folium package, [make_folium_polyline],
    [plot_graph_folium] and [plot_route_folium] raise [ImportError] before
    they look at the graph, the route or the row, and change nothing. *)
Theorem folium_is_required
    (w : World) (row : EdgeRow) (route : list Z) (given : option FoliumMap)
    (popup_attribute : option string) (tiles : string) (zoom : Z)
    (fit_bounds : bool) (c : string) (wd op : Q) :
  folium w = false ->
  make_folium_polyline row c wd op popup_attribute w = (Raise ImportError, w) /\
  plot_graph_folium given popup_attribute tiles zoom fit_bounds c wd op w
    = (Raise ImportError, w) /\
  plot_route_folium route given popup_attribute tiles zoom fit_bounds c wd op w
    = (Raise ImportError, w).
Proof.
  intro Hf. pose proof (need_folium_run w) as Hn. rewrite Hf in Hn.
  unfold make_folium_polyline, plot_graph_folium, plot_route_folium.
  repeat split; apply bind_run_Raise, Hn.
Qed.

Lemma folium_is_required_witness :
  make_folium_polyline (mkRow 0 1 0 (street 1) [(0, 0); (0, 1)]) "#333333" 5 1
    None (bare square) = (Raise ImportError, bare square) /\
  plot_graph_folium None None "cartodbpositron" 1 true "#333333" 5 1 (bare square)
    = (Raise ImportError, bare square) /\
  plot_route_folium [0; 1]%Z None None "cartodbpositron" 1 true "#333333" 5 1
    (bare square) = (Raise ImportError, bare square).
Proof.
  exact (folium_is_required (bare square) (mkRow 0 1 0 (street 1) [(0, 0); (0, 1)])
           [0; 1]%Z None None "cartodbpositron" 1 true _ 5 1 eq_refl).
Defined.

(** X16.  Let the graph have edges and let the popup attribute, if one
    is asked for, be carried by every edge.  When [plot_graph_folium]
    returns, the map it returns is the caller's map, or else a new one
    centred on the edges with the zoom and tiles asked for, with one
    polyline appended per edge of the graph, in the order of [G.edges]:
    the edge's geometry, or the straight line between its end nodes, in
    the given colour, width and opacity and with the popup attribute's
    value, or with no popup when none is asked for.  With [fit_bounds]
    the map is fitted to [(south, west), (north, east)] of the edges'
    geometries; without, its bounds are as they were.  The world is left
    as it was. *)
Theorem plot_graph_folium_adds_one_polyline_per_edge
    (given : option FoliumMap) (popup_attribute : option string)
    (tiles : string) (zoom : Z) (fit_bounds : bool) (edge_color : string)
    (edge_width edge_opacity : Q) (w w' : World) (m' : FoliumMap) :
  edges_of (graph w) <> [] ->
  popup_carried popup_attribute (graph w) ->
  plot_graph_folium given popup_attribute tiles zoom fit_bounds edge_color
    edge_width edge_opacity w = (OK m', w') ->
  w' = w /\
  exists rows,
    Forall2 (row_of (graph w)) (edges_of (graph w)) rows /\
    rendered rows edge_color edge_width edge_opacity popup_attribute fit_bounds
      (started given rows tiles zoom) m'.
Proof.
  intros _ _ H. unfold plot_graph_folium in H.
  apply bind_OK in H as ([] & w1 & Hf & H).
  rewrite need_folium_run in Hf. destruct (folium w); [| discriminate].
  inversion Hf; subst w1; clear Hf.
  apply bind_OK in H as (rows & w1 & Hrows & H).
  apply graph_to_gdfs_table in Hrows as [-> Hrows].
  apply (folium_layers_OK rows edge_color edge_width edge_opacity popup_attribute
           fit_bounds (started given rows tiles zoom)) in H as [-> H].
  split; [reflexivity|]. exists rows. auto.
Qed.

Lemma plot_graph_folium_witness :
  exists m',
    plot_graph_folium None (Some "length") "cartodbpositron" 1 true "#333333" 5 1
      (fresh divided) = (OK m', fresh divided) /\
    exists rows,
      Forall2 (row_of divided) (edges_of divided) rows /\
      rendered rows "#333333" 5 1 (Some "length") true
        (started None rows "cartodbpositron" 1) m'.
Proof.
  eexists. split; [vm_compute; reflexivity|].
  refine (proj2 (plot_graph_folium_adds_one_polyline_per_edge None
                   (Some "length") "cartodbpositron" 1 true "#333333" 5 1
                   (fresh divided) (fresh divided) _ _ _ _)).
  - vm_compute. discriminate.
  - intros u v key data line _. cbn. discriminate.
  - vm_compute. reflexivity.
Defined.

(** X17.  Let the route have two nodes or more and let the popup
    attribute, if one is asked for, be carried by every edge of the graph.
    When [plot_route_folium] returns, the map it returns is the caller's
    map, or else a new one centred on the route with the zoom and tiles
    asked for, with one
    polyline appended per consecutive pair (u, v) of route nodes, in route
    order: that of the first row of the edge table from u to v, in the
    given colour, width and opacity.  With [fit_bounds] the map is fitted
    to [(south, west), (north, east)] of these rows' geometries; without,
    its bounds are as they were.  The world is left as it was. *)
Theorem plot_route_folium_adds_one_polyline_per_step
    (route : list Z) (given : option FoliumMap)
    (popup_attribute : option string) (tiles : string) (zoom : Z)
    (fit_bounds : bool) (route_color : string) (route_width route_opacity : Q)
    (w w' : World) (m' : FoliumMap) :
  steps route <> [] ->
  popup_carried popup_attribute (graph w) ->
  plot_route_folium route given popup_attribute tiles zoom fit_bounds
    route_color route_width route_opacity w = (OK m', w') ->
  w' = w /\
  exists table rows,
    Forall2 (row_of (graph w)) (edges_of (graph w)) table /\
    Forall2 (first_row table) (steps route) rows /\
    rendered rows route_color route_width route_opacity popup_attribute
      fit_bounds (started given rows tiles zoom) m'.
Proof.
  intros _ _ H. unfold plot_route_folium in H.
  apply bind_OK in H as ([] & w1 & Hf & H).
  rewrite need_folium_run in Hf. destruct (folium w); [| discriminate].
  inversion Hf; subst w1; clear Hf.
  apply bind_OK in H as (rows & w1 & Hrows & H).
  assert (w1 = w) as ->.
  { apply (keeps_run (fun x => x)) in Hrows; [exact Hrows|].
    unfold route_rows, loc. keep. }
  apply route_rows_first_match in Hrows as (table & Ht & Hrows).
  apply graph_to_gdfs_table in Ht as [_ Ht].
  apply (folium_layers_OK rows route_color route_width route_opacity
           popup_attribute fit_bounds (started given rows tiles zoom)) in H
    as [-> H].
  split; [reflexivity|]. exists table, rows. repeat split; auto.
  eapply Forall2_impl; [| exact Hrows].
  intros [u v] r Hr. exact Hr.
Qed.

Lemma plot_route_folium_witness :
  exists m',
    plot_route_folium [1; 2]%Z None (Some "length") "cartodbpositron" 1 true
      "#cc0000" 5 1 (fresh divided) = (OK m', fresh divided) /\
    exists table rows,
      Forall2 (row_of divided) (edges_of divided) table /\
      Forall2 (first_row table) (steps [1; 2]%Z) rows /\
      rendered rows "#cc0000" 5 1 (Some "length") true
        (started None rows "cartodbpositron" 1) m'.
Proof.
  eexists. split; [vm_compute; reflexivity|].
  refine (proj2 (plot_route_folium_adds_one_polyline_per_step [1; 2]%Z None
                   (Some "length") "cartodbpositron" 1 true "#cc0000" 5 1
                   (fresh divided) (fresh divided) _ _ _ _)).
  - vm_compute. discriminate.
  - intros u v key data line _. cbn. discriminate.
  - vm_compute. reflexivity.
Defined.

(** ** More on get_edge_colors_by_attr *)

(** X18.  If some edge of the graph lacks the attribute,
    [get_edge_colors_by_attr] raises [KeyError] while it collects the
    values, whatever the number of bins and the colormap, and changes
    nothing. *)
Theorem edge_colors_need_the_attribute
    (attr : string) (num_bins : nat) (cmap : string) (start stop : Q)
    (w : World) (u v key : Z) (data : EdgeData) :
  In (u, v, key, data) (edges_of (graph w)) ->
  edge_get data attr = None ->
  get_edge_colors_by_attr attr num_bins cmap start stop w = (Raise KeyError, w).
Proof.
  intros Hin Hno. unfold get_edge_colors_by_attr. apply bind_run_Raise.
  unfold attr_values.
  rewrite (bind_run_OK G_edges _ w (edges_of (graph w)) w eq_refl).
  destruct (for_collect_raises
              (fun '(u, v, key, data) => of_option KeyError (edge_get data attr))
              (fun e => e = KeyError) (edges_of (graph w)) w)
    as (e & He & ->).
  - intros [[[u0 v0] key0] data0]. apply keeps_reads. keep.
  - intros [[[u0 v0] key0] data0] e w' _ H.
    apply of_option_Raise in H as [-> _]. reflexivity.
  - exists (u, v, key, data), KeyError, w. split; [exact Hin|].
    rewrite Hno. reflexivity.
  - exact He.
Qed.

Lemma edge_colors_need_the_attribute_witness :
  get_edge_colors_by_attr "speed" 5 "viridis" 0 1 (fresh square)
  = (Raise KeyError, fresh square).
Proof.
  apply (edge_colors_need_the_attribute "speed" 5 "viridis" 0 1 (fresh square)
           0%Z 1%Z 0%Z (street 1)).
  - left. reflexivity.
  - reflexivity.
Defined.



(** ** More on plot_figure_ground *)

(** X20.  When [plot_figure_ground] returns, the figure holds the edge
    layer and after it the node layer, drawn with size 0.  The edge layer
    has one polyline and one line width per edge of the network, both in
    the order of [G.edges]: the polyline is the edge's geometry, or the
    straight line between its end nodes, and the width is the one
    [street_widths] (or the default table) gives the edge's street type,
    or [default_width]. *)
Theorem figure_ground_widths_line_up_with_edges
    (bbox_proj : bbox_t) (default_name : string)
    (street_widths : option (list (string * Q))) (default_width fig_length : Q)
    (edge_color bgcolor : string) (filename : option string)
    (file_format : string) (show save close : bool) (dpi : Z) (w w' : World) :
  plot_figure_ground bbox_proj default_name street_widths default_width
    fig_length edge_color bgcolor filename file_format show save close dpi w
  = (OK tt, w') ->
  exists lines ws xs ys,
    artists (canvas w') =
      [LineCollection lines edge_color (Widths ws) 1 2%Z;
       PathCollection xs ys 0 "#66ccff" 1 "none" 1%Z] /\
    Forall2 (fun '(u, v, _, data) line => drawn_as (graph w) true u v data line)
            (edges_of (graph w)) lines /\
    Forall2 (fun '(_, _, _, data) width =>
               classified (widths_in_force street_widths) default_width data width)
            (edges_of (graph w)) ws.
Proof.
  unfold plot_figure_ground. intro H.
  apply bind_OK in H as (ws & w1 & Hw & H).
  apply edge_linewidths_OK in Hw as [-> Hw].
  apply bind_OK in H as ([] & w2 & Hp & H).
  apply plot_graph_OK in Hp
    as (north & south & east & west & fw & lines & _ & _ & _ & Hl & Hv).
  apply view_inv in Hv as (_ & _ & Hd & _). simpl in Hd, Hl.
  apply (keeps_run drawn) in H; [| keep].
  exists lines, ws. eexists. eexists. split; [| split; [exact Hl | exact Hw]].
  unfold drawn in *. rewrite H, Hd. reflexivity.
Qed.

(** The divided road: the service road is drawn thin, the primary road
    with the default width. *)
Lemma figure_ground_widths_witness :
  exists lines ws xs ys,
    artists (canvas (after (plot_figure_ground (1, -1, 2, 0) "figure_ground"
                              None 4 8 "w" "#333333" None "png" false true
                              true 300) (fresh divided))) =
      [LineCollection lines "w" (Widths ws) 1 2%Z;
       PathCollection xs ys 0 "#66ccff" 1 "none" 1%Z] /\
    Forall2 (fun '(u, v, _, data) line => drawn_as divided true u v data line)
            (edges_of divided) lines /\
    Forall2 (fun '(_, _, _, data) width =>
               classified (widths_in_force None) 4 data width)
            (edges_of divided) ws.
Proof.
  exact (figure_ground_widths_line_up_with_edges (1, -1, 2, 0) "figure_ground"
           None 4 8 "w" "#333333" None "png" false true true 300
           (fresh divided) _ ltac:(vm_compute; reflexivity)).
Defined.

(** X21.  The figure-ground diagram is cropped to the box it is given:
    when [plot_figure_ground] returns, the view limits are the box itself,
    with no margin, the figure is [fig_length] high and, for a square box,
    as wide, the aspect is equal, and the network is unchanged. *)
Theorem figure_ground_is_cropped_to_the_box
    (north south east west : Q) (default_name : string)
    (street_widths : option (list (string * Q))) (default_width fig_length : Q)
    (edge_color bgcolor : string) (filename : option string)
    (file_format : string) (show save close : bool) (dpi : Z) (w w' : World) :
  plot_figure_ground (north, south, east, west) default_name street_widths
    default_width fig_length edge_color bgcolor filename file_format show save
    close dpi w = (OK tt, w') ->
  exists y0 y1 x0 x1 width,
    ylim (canvas w') = Some (y0, y1) /\ y0 == south /\ y1 == north /\
    xlim (canvas w') = Some (x0, x1) /\ x0 == west /\ x1 == east /\
    figsize (canvas w') = (width, fig_length) /\
    (north - south == east - west -> width == fig_length) /\
    aspect_equal (canvas w') = true /\
    graph w' = graph w.
Proof.
  unfold plot_figure_ground. intro H.
  apply bind_OK in H as (ws & w1 & Hw & H).
  apply edge_linewidths_OK in Hw as [-> _].
  apply bind_OK in H as ([] & w2 & Hp & H).
  apply plot_graph_OK in Hp
    as (n & s & e & w0 & fw & lines & Hb & Hew & Hfw & _ & Hv).
  simpl in Hb, Hfw, Hv. inversion Hb; subst n s e w0; clear Hb.
  destruct Hfw as [_ ->].
  apply view_inv in Hv as (Hg & Hs & _ & Hl).
  unfold figure_size, limits in *.
  inversion H; subst w'; clear H. simpl.
  inversion Hl as [[Hy Hx]]. rewrite Hs.
  exists (south - (north - south) * 0), (north + (north - south) * 0),
    (west - (east - west) * 0), (east + (east - west) * 0),
    (fig_length / ((north - south) / (east - west))).
  split; [exact Hy|]. split; [ring|]. split; [ring|].
  split; [exact Hx|]. split; [ring|]. split; [ring|].
  split; [reflexivity|]. split; [| split; [reflexivity | exact Hg]].
  intro Hsq. apply Qeq_bool_neq in Hew. rewrite Hsq. field. exact Hew.
Qed.

Lemma figure_ground_is_cropped_witness :
  exists y0 y1 x0 x1 width,
    ylim (canvas (after (plot_figure_ground (1, -1, 2, 0) "figure_ground" None 4
                           8 "w" "#333333" None "png" false true true 300)
                    (fresh divided))) = Some (y0, y1) /\
    y0 == -1 /\ y1 == 1 /\
    xlim (canvas (after (plot_figure_ground (1, -1, 2, 0) "figure_ground" None 4
                           8 "w" "#333333" None "png" false true true 300)
                    (fresh divided))) = Some (x0, x1) /\
    x0 == 0 /\ x1 == 2 /\
    figsize (canvas (after (plot_figure_ground (1, -1, 2, 0) "figure_ground"
                              None 4 8 "w" "#333333" None "png" false true true
                              300) (fresh divided))) = (width, 8) /\
    (1 - -1 == 2 - 0 -> width == 8) /\
    aspect_equal (canvas (after (plot_figure_ground (1, -1, 2, 0)
                                   "figure_ground" None 4 8 "w" "#333333" None
                                   "png" false true true 300) (fresh divided)))
      = true /\
    graph (after (plot_figure_ground (1, -1, 2, 0) "figure_ground" None 4 8 "w"
                    "#333333" None "png" false true true 300) (fresh divided))
      = graph (fresh divided).
Proof.
  exact (figure_ground_is_cropped_to_the_box 1 (-1) 2 0 "figure_ground" None 4 8
           "w" "#333333" None "png" false true true 300 (fresh divided) _
           ltac:(vm_compute; reflexivity)).
Defined.

(** X22.  An edge whose [highway] value is an empty list makes
    [plot_figure_ground] raise [IndexError] while it collects the line
    widths: no figure has been created, and nothing is saved or shown. *)
Theorem figure_ground_empty_highway_list
    (bbox_proj : bbox_t) (default_name : string)
    (street_widths : option (list (string * Q))) (default_width fig_length : Q)
    (edge_color bgcolor : string) (filename : option string)
    (file_format : string) (show save close : bool) (dpi : Z) (w : World)
    (u v key : Z) (data : EdgeData) :
  In (u, v, key, data) (edges_of (graph w)) ->
  highway data = Listed [] ->
  plot_figure_ground bbox_proj default_name street_widths default_width
    fig_length edge_color bgcolor filename file_format show save close dpi w
  = (Raise IndexError, w).
Proof.
  intros Hin Hh. unfold plot_figure_ground. apply bind_run_Raise.
  unfold edge_linewidths.
  rewrite (bind_run_OK G_edges _ w (edges_of (graph w)) w eq_refl).
  destruct (for_collect_raises
              (fun '(u, v, key, data) =>
                 street_width (widths_in_force street_widths) default_width data)
              (fun e => e = IndexError) (edges_of (graph w)) w)
    as (e & He & ->).
  - intros [[[u0 v0] key0] data0]. apply keeps_reads.
    unfold street_width, street_type. destruct (highway data0); keep.
  - intros [[[u0 v0] key0] data0] e w' _ H.
    unfold street_width, bind in H. rewrite street_type_run in H.
    destruct (street_type_of (highway data0)) as [st|].
    + simpl in H. destruct (str_get st (widths_in_force street_widths));
        discriminate H.
    + inversion H. reflexivity.
  - exists (u, v, key, data), IndexError, w. split; [exact Hin|].
    unfold street_width, bind. rewrite street_type_run, Hh. reflexivity.
  - exact He.
Qed.

Lemma figure_ground_empty_highway_witness :
  plot_figure_ground (1, -1, 2, 0) "figure_ground" None 4 8 "w" "#333333" None
    "png" false true true 300 (fresh untagged)
  = (Raise IndexError, fresh untagged).
Proof.
  apply (figure_ground_empty_highway_list (1, -1, 2, 0) "figure_ground" None 4 8
           "w" "#333333" None "png" false true true 300 (fresh untagged)
           0%Z 1%Z 0%Z (mkEdge 1 (Listed []) None [])).
  - left. reflexivity.
  - reflexivity.
Defined.

(** X23.  When [plot_figure_ground] returns it has saved the figure
    once, if [save] is set, under the caller's [filename] or else under
    the name made of the point and the network type, cropped to the axis
    (as an svg, with no crop and no dpi), and after that shown it, if
    [show] is set, or else closed it, if [close] is set. *)
Theorem figure_ground_is_saved_under_its_name
    (bbox_proj : bbox_t) (default_name : string)
    (street_widths : option (list (string * Q))) (default_width fig_length : Q)
    (edge_color bgcolor : string) (filename : option string)
    (file_format : string) (show save close : bool) (dpi : Z) (w w' : World) :
  plot_figure_ground bbox_proj default_name street_widths default_width
    fig_length edge_color bgcolor filename file_format show save close dpi w
  = (OK tt, w') ->
  sink w' =
    sink w
    ++ saved save (imgs_folder w) (name_in_force filename default_name)
         file_format dpi true
    ++ shown show close.
Proof.
  intro H.
  assert (adds (plot_figure_ground bbox_proj default_name street_widths
                  default_width fig_length edge_color bgcolor filename
                  file_format show save close dpi)
            (fun folder =>
               saved save folder
                 (match filename with
                  | None => if save then default_name else ""
                  | Some f => f
                  end) file_format dpi true
               ++ shown show close)) as Hadds.
  { unfold plot_figure_ground.
    apply adds_bind_nil; [apply keeps_edge_linewidths | intro ws].
    apply adds_bind_last; [| intros; keep].
    apply (plot_graph_adds
             (mkGraphArgs (Some bbox_proj) fig_length None 0 true bgcolor show
                save close file_format
                (match filename with
                 | None => if save then default_name else ""
                 | Some f => f
                 end) dpi false "#66ccff" 0 1 "none" 1%Z edge_color
                (Widths ws) 1 true)). }
  apply Hadds in H as [_ H]. rewrite H.
  unfold name_in_force. destruct filename as [f|]; [reflexivity|].
  destruct save; reflexivity.
Qed.

Lemma figure_ground_is_saved_witness :
  sink (after (plot_figure_ground (1, -1, 2, 0) "figure_ground" None 4 8 "w"
                 "#333333" None "png" false true true 300) (fresh divided))
  = sink (fresh divided)
    ++ saved true (imgs_folder (fresh divided))
         (name_in_force None "figure_ground") "png" 300 true
    ++ shown false true.
Proof.
  exact (figure_ground_is_saved_under_its_name (1, -1, 2, 0) "figure_ground"
           None 4 8 "w" "#333333" None "png" false true true 300
           (fresh divided) _ ltac:(vm_compute; reflexivity)).
Defined.

(** ** What plot_graph needs to return *)

(** X24.  Given a box, [plot_graph] returns only if the box has
    east <> west, and north <> south when the figure width is to be
    derived from it, and every edge it has to draw as a straight line (an
    edge without curve data, or any edge when [use_geom] is off) joins two
    nodes that have coordinates. *)
Theorem plot_graph_returns_only_when
    (a : GraphArgs) (w w' : World) (north south east west : Q) :
  bbox a = Some (north, south, east, west) ->
  plot_graph a w = (OK tt, w') ->
  ~ east == west /\
  (fig_width a = None -> ~ north == south) /\
  endpoints_needed (use_geom a) (graph w).
Proof.
  intros Hb H. apply plot_graph_OK in H
    as (n & s & e & w0 & fw & lines & Hbox & Hew & Hfw & Hl & _).
  rewrite Hb in Hbox. inversion Hbox; subst n s e w0; clear Hbox.
  apply Qeq_bool_neq in Hew.
  assert (~ east == west) as Hne by (intro Heq; apply Hew; lra).
  split; [exact Hne|]. split.
  - intros Hnone Hns. rewrite Hnone in Hfw. destruct Hfw as [Hr _].
    apply Qeq_bool_neq in Hr. apply Hr.
    assert (north - south == 0) as -> by lra. field. exact Hew.
  - intros u v key data Hin Hneed.
    destruct (Forall2_In_l _ _ _ _ Hl Hin) as (line & Hd).
    simpl in Hd. unfold drawn_as in Hd.
    destruct Hneed as [Hg | Hug].
    + rewrite Hg in Hd. destruct Hd as (nu & nv & Hu & Hv & _). eauto.
    + rewrite Hug in Hd. destruct (geometry data);
        destruct Hd as (nu & nv & Hu & Hv & _); eauto.
Qed.

Lemma plot_graph_returns_only_when_witness :
  ~ 1 == 0 /\
  (fig_width (boxed (1, 0, 1, 0)) = None -> ~ 1 == 0) /\
  endpoints_needed (use_geom (boxed (1, 0, 1, 0))) (graph (fresh square)).
Proof.
  exact (plot_graph_returns_only_when (boxed (1, 0, 1, 0)) (fresh square) _
           1 0 1 0 eq_refl ltac:(vm_compute; reflexivity)).
Defined.

(** ** The box plot_graph derives from the edges *)

Lemma fold_bounds (rest : list point) (minx miny maxx maxy a b c d : Q) :
  fold_left (fun '(minx, miny, maxx, maxy) '(px, py) =>
               (Qmin minx px, Qmin miny py, Qmax maxx px, Qmax maxy py))
    rest (minx, miny, maxx, maxy) = (a, b, c, d) ->
  a <= minx /\ b <= miny /\ maxx <= c /\ maxy <= d /\
  forall x y, In (x, y) rest -> a <= x /\ x <= c /\ b <= y /\ y <= d.
Proof.
  revert minx miny maxx maxy.
  induction rest as [|[px py] rest IH]; intros minx miny maxx maxy H; simpl in H.
  - inversion H; subst.
    do 4 (split; [apply Qle_refl|]). intros x y [].
  - apply IH in H as (Ha & Hb & Hc & Hd & Hin).
    pose proof (Q.le_min_l minx px). pose proof (Q.le_min_r minx px).
    pose proof (Q.le_min_l miny py). pose proof (Q.le_min_r miny py).
    pose proof (Q.le_max_l maxx px). pose proof (Q.le_max_r maxx px).
    pose proof (Q.le_max_l maxy py). pose proof (Q.le_max_r maxy py).
    do 4 (split; [eapply Qle_trans; eassumption|]).
    intros x y [Heq | Hxy]; [inversion Heq; subst x y | apply Hin, Hxy].
    do 3 (split; [eapply Qle_trans; eassumption|]).
    eapply Qle_trans; eassumption.
Qed.

Lemma bounds_enclose (pts : list point) (minx miny maxx maxy : Q) :
  bounds_of pts = Some (minx, miny, maxx, maxy) ->
  forall x y, In (x, y) pts -> minx <= x /\ x <= maxx /\ miny <= y /\ y <= maxy.
Proof.
  unfold bounds_of. destruct pts as [|[x0 y0] rest]; [discriminate|].
  intro H. inversion H as [H1]. apply fold_bounds in H1 as (Ha & Hb & Hc & Hd & Hin).
  intros x y [Heq | Hxy]; [inversion Heq; subst x y; auto | apply Hin, Hxy].
Qed.

Lemma drawn_as_unique g ug u v data l1 l2 :
  drawn_as g ug u v data l1 -> drawn_as g ug u v data l2 -> l1 = l2.
Proof.
  unfold drawn_as, straight. intros H1 H2.
  destruct (geometry data) as [geom|]; [destruct ug; [congruence|]|];
    destruct H1 as (nu & nv & Hu & Hv & ->);
    destruct H2 as (nu' & nv' & Hu' & Hv' & ->); congruence.
Qed.

(** X6.  Without a [bbox] argument, [plot_graph] takes as its box the
    bounds of the edges' lines, so that, with [use_geom] on, nothing of
    the edge layer lies outside the box: every point (x, y) of every
    polyline drawn has west <= x <= east and south <= y <= north. *)
Theorem derived_box_encloses_the_edges (a : GraphArgs) (w w' : World) :
  bbox a = None ->
  use_geom a = true ->
  plot_graph a w = (OK tt, w') ->
  exists north south east west lines others,
    get_bbox None w = (OK (north, south, east, west), w) /\
    artists (canvas w') =
      LineCollection lines (edge_color a) (edge_linewidth a) (edge_alpha a) 2%Z
      :: others /\
    List.length lines = List.length (edges_of (graph w)) /\
    forall line x y,
      In line lines -> In (x, y) line ->
      west <= x /\ x <= east /\ south <= y /\ y <= north.
Proof.
  intros Hb Hug H. apply plot_graph_OK in H
    as (north & south & east & west & fw & lines & Hbox & _ & _ & Hl & Hv).
  rewrite Hb in Hbox. rewrite Hug in Hl.
  apply view_inv in Hv as (_ & _ & Hd & _).
  exists north, south, east, west, lines. eexists.
  split; [exact Hbox|]. split; [exact Hd|].
  split; [symmetry; apply (Forall2_length Hl)|].
  unfold get_bbox in Hbox.
  apply bind_OK in Hbox as (rows & w1 & Hrows & Hbox).
  apply graph_to_gdfs_table in Hrows as [-> Hrows].
  apply bind_OK in Hbox as ([[[minx miny] maxx] maxy] & w1 & Ht & Hbox).
  apply of_option_OK in Ht as [-> Ht].
  inversion Hbox; subst; clear Hbox.
  assert (lines = map row_geometry rows) as ->.
  { clear Ht Hd. revert lines Hl.
    induction Hrows as [|[[[u v] key] data] r es rows Hr _ IH]; intros lines Hl;
      inversion Hl as [|? line ? lines' Hline Hrest]; subst; [reflexivity|].
    simpl. f_equal; [| apply IH, Hrest].
    destruct Hr as (_ & _ & _ & _ & Hr). eapply drawn_as_unique; eassumption. }
  intros line x y Hline Hxy.
  destruct (bounds_enclose _ _ _ _ _ Ht x y) as (H1 & H2 & H3 & H4); [| auto].
  apply in_flat_map. apply in_map_iff in Hline as (r & <- & Hr).
  exists r. auto.
Qed.

Lemma derived_box_witness :
  exists north south east west lines others,
    get_bbox None (fresh square) = (OK (north, south, east, west), fresh square) /\
    artists (canvas (after (plot_graph plot_graph_defaults) (fresh square))) =
      LineCollection lines "#999999" (Width 1) 1 2%Z :: others /\
    List.length lines = List.length (edges_of (graph (fresh square))) /\
    forall line x y,
      In line lines -> In (x, y) line ->
      west <= x /\ x <= east /\ south <= y /\ y <= north.
Proof.
  exact (derived_box_encloses_the_edges plot_graph_defaults (fresh square) _
           eq_refl eq_refl ltac:(vm_compute; reflexivity)).
Defined.
